(** * pymame: parsers and composite machine view

    A shallow embedding of the pure core of pymame (the catlist category
    parser, the MAMEInfo entry parser, the history section splitter, the
    .dat parser, the category folder queries and the Machine composite
    view), together with the properties its specification states about it,
    and of the code around it (history entries, type and platform of a
    machine, the play time store, software views and the software finders)
    with further properties of that code.

    Python values are modelled as follows.
    - [str] is [string]; a character is a code point below 256.
    - A raised exception is the [Raise] case of [result].
    - [dict] is an insertion-ordered association list where iteration order
      is observable, and a [gmap] where only lookups are.
    - [set] iteration order depends on the per-process string hash, so the
      functions that iterate a set take the iteration order as a parameter. *)

From stdpp Require Import base option list strings gmap.
From Stdlib Require Import Ascii.

Local Open Scope string_scope.

(** ** Exceptions *)

Inductive exn : Type :=
  | IndexError
  | KeyError (key : string)
  | AssertionError
  | RecursionError
  | FileNotFoundError
  | OperationalError.

Inductive result (A : Type) : Type :=
  | Ok (a : A)
  | Raise (e : exn).

Arguments Ok {A} a.
Arguments Raise {A} e.

#[global] Instance result_ret : MRet result := fun A a => Ok a.
#[global] Instance result_bind : MBind result := fun A B f m =>
  match m with
  | Ok a => f a
  | Raise e => Raise e
  end.
#[global] Instance result_fmap : FMap result := fun A B f m =>
  match m with
  | Ok a => Ok (f a)
  | Raise e => Raise e
  end.

Definition raises {A} (m : result A) : Prop := ∃ e, m = Raise e.
Definition returns {A} (m : result A) : Prop := ∃ a, m = Ok a.

(** ** Python string and list primitives *)

Module Py.

(** [l[i]] on a list: [IndexError] out of range. *)
Definition index {A} (l : list A) (i : nat) : result A :=
  match l !! i with
  | Some x => Ok x
  | None => Raise IndexError
  end.

(** [s.startswith(p)] *)
Definition startswith (s p : string) : bool := String.prefix p s.

Fixpoint drop (n : nat) (s : string) : string :=
  match n, s with
  | 0, _ => s
  | S _, EmptyString => EmptyString
  | S n', String _ s' => drop n' s'
  end.

(** [s.removeprefix(p)] *)
Definition removeprefix (p s : string) : string :=
  if startswith s p then drop (String.length p) s else s.

(** First occurrence of [sep] in [s]: the text before it and the text
    after it. *)
Fixpoint find (sep s : string) : option (string * string) :=
  if startswith s sep then Some (EmptyString, drop (String.length sep) s)
  else
    match s with
    | EmptyString => None
    | String c s' =>
        match find sep s' with
        | Some (a, r) => Some (String c a, r)
        | None => None
        end
    end.

(** [sub in s] *)
Definition contains (sub s : string) : bool :=
  match find sub s with Some _ => true | None => false end.

(** [s.partition(sep)] *)
Definition partition (sep s : string) : string * string * string :=
  match find sep s with
  | Some (a, r) => (a, sep, r)
  | None => (s, EmptyString, EmptyString)
  end.

(** [s.split(sep)] for a non-empty [sep]. Every separator found removes at
    least one character, so [String.length s] rounds are enough. *)
Fixpoint split_fuel (n : nat) (sep s : string) : list string :=
  match find sep s with
  | None => [s]
  | Some (a, r) =>
      match n with
      | 0 => [s]
      | S n' => a :: split_fuel n' sep r
      end
  end.

Definition split (sep s : string) : list string :=
  split_fuel (String.length s) sep s.

(** [s.split(sep, 1)] *)
Definition split1 (sep s : string) : list string :=
  match find sep s with
  | None => [s]
  | Some (a, r) => [a; r]
  end.

(** [sep.join(l)] *)
Fixpoint join (sep : string) (l : list string) : string :=
  match l with
  | [] => EmptyString
  | [x] => x
  | x :: l' => x +:+ sep +:+ join sep l'
  end.

(** [c.isspace()] for a code point below 256: the characters removed by
    [str.strip()]. *)
Definition isspace (c : ascii) : bool :=
  let n := nat_of_ascii c in
  (Nat.leb 9 n && Nat.leb n 13) || (Nat.leb 28 n && Nat.leb n 32)
  || Nat.eqb n 133 || Nat.eqb n 160.

(** [s.lstrip()] *)
Fixpoint lstrip (s : string) : string :=
  match s with
  | EmptyString => EmptyString
  | String c s' => if isspace c then lstrip s' else s
  end.

(** [s.rstrip()] *)
Fixpoint rstrip (s : string) : string :=
  match s with
  | EmptyString => EmptyString
  | String c s' =>
      match rstrip s' with
      | EmptyString => if isspace c then EmptyString else String c EmptyString
      | t => String c t
      end
  end.

(** [s.strip()] *)
Definition strip (s : string) : string := rstrip (lstrip s).

(** [s[:-1]] *)
Fixpoint init (s : string) : string :=
  match s with
  | EmptyString => EmptyString
  | String c EmptyString => EmptyString
  | String c s' => String c (init s')
  end.

(** [bool(s)] *)
Definition truthy (s : string) : bool :=
  match s with EmptyString => false | _ => true end.

(** [x in l] for a list or set of strings *)
Definition mem (x : string) (l : list string) : bool :=
  bool_decide (x ∈ l).

(** The newline character and the one-character string holding it. *)
Definition newline : ascii := "010"%char.
Definition nl : string := String newline EmptyString.

(** Line boundaries of [str.splitlines()] below code point 256: LF, VT, FF,
    CR, FS, GS, RS and NEL. *)
Definition is_linebreak (c : ascii) : bool :=
  let n := nat_of_ascii c in
  (Nat.leb 10 n && Nat.leb n 13) || (Nat.leb 28 n && Nat.leb n 30)
  || Nat.eqb n 133.

(** [s.splitlines()]: [after_cr] is set right after a carriage return, whose
    following line feed belongs to the same boundary. *)
Fixpoint splitlines_from (after_cr : bool) (s : string) : list string :=
  match s with
  | EmptyString => []
  | String c s' =>
      if after_cr && Ascii.eqb c newline then splitlines_from false s'
      else if is_linebreak c
      then EmptyString :: splitlines_from (Ascii.eqb c "013"%char) s'
      else
        match splitlines_from false s' with
        | [] => [String c EmptyString]
        | l :: ls => String c l :: ls
        end
  end.

Definition splitlines (s : string) : list string := splitlines_from false s.

End Py.

(** ** wrappers/catlist.py *)

Module Catlist.

Inductive MachineType : Type :=
  | Arcade | BIOS | CoinPusher | ConsoleCartridge | Gambling | Handheld
  | LCDHandheld | Redemption | MedalGame | Mechanical | Pinball
  | PlugAndPlay | PrintClub | Other.

#[global] Instance MachineType_eq_dec : EqDecision MachineType.
Proof. solve_decision. Defined.

Record CatlistCategory : Type := {
  category : string;
  _has_extra : string;
  extra : string;
  _components : list string;
}.

(** [CatlistCategory.__init__] *)
Definition init (cat : string) : CatlistCategory :=
  let '(c, h, e) := Py.partition " * " cat in
  {| category := c; _has_extra := h; extra := e;
     _components := Py.split " / " (Py.removeprefix "Arcade: " c) |}.

Definition is_arcade (self : CatlistCategory) : bool :=
  Py.startswith (category self) "Arcade: ".

Definition is_ttl (self : CatlistCategory) : bool :=
  String.eqb (extra self) "TTL".

Definition is_mature (self : CatlistCategory) : bool :=
  String.eqb (extra self) "Mature".

Definition _is_plug_and_play (self : CatlistCategory) : result bool :=
  c0 ← Py.index (_components self) 0;
  mret (String.eqb c0 "Handheld"
        && Py.mem "Plug n' Play TV Game" (_components self)).

Definition genre_types (c : string) : option MachineType :=
  if String.eqb c "Slot Machine" then Some Gambling
  else if String.eqb c "Casino" then Some Gambling
  else if String.eqb c "Redemption Game" then Some Redemption
  else if String.eqb c "Medal Game" then Some MedalGame
  else if String.eqb c "Coin Pusher" then Some CoinPusher
  else if String.eqb c "Print Club" then Some PrintClub
  else None.

Definition machine_type (self : CatlistCategory) : result MachineType :=
  if String.eqb (category self) "Arcade: System / BIOS" then Ok BIOS
  else
    c0 ← Py.index (_components self) 0;
    match genre_types c0 with
    | Some t => Ok t
    | None =>
        if String.eqb c0 "Electromechanical" then
          c1 ← Py.index (_components self) 1;
          if String.eqb c1 "Pinball" then Ok Pinball else Ok Mechanical
        else if is_arcade self then Ok Arcade
        else
          pp ← _is_plug_and_play self;
          if (pp : bool) then Ok PlugAndPlay
          else if String.eqb (category self) "Handheld / Electronic Game"
          then Ok LCDHandheld
          else Ok Other
    end.

(** The set literal [{Mechanical, Redemption, MedalGame}] tested by [genre]
    and [subgenre]. *)
Definition takes_second_component (t : MachineType) : bool :=
  match t with
  | Mechanical | Redemption | MedalGame => true
  | _ => false
  end.

Definition genre (self : CatlistCategory) : result (option string) :=
  t ← machine_type self;
  if takes_second_component (t : MachineType)
  then Some <$> Py.index (_components self) 1
  else if is_arcade self then Some <$> Py.index (_components self) 0
  else
    pp ← _is_plug_and_play self;
    if (pp : bool) && Nat.ltb 2 (length (_components self))
    then Some <$> Py.index (_components self) 2
    else Ok None.

Definition subgenre (self : CatlistCategory) : result (option string) :=
  t ← machine_type self;
  if takes_second_component (t : MachineType) then
    if Nat.ltb 2 (length (_components self))
    then Some <$> Py.index (_components self) 2
    else Ok None
  else if is_arcade self && Nat.ltb 1 (length (_components self))
  then Some <$> Py.index (_components self) 1
  else Ok None.

End Catlist.

(** ** support_files/mameinfo.py *)

Module MAMEInfo.

Definition normal_sections : list string :=
  (λ s, s +:+ ":") <$>
  [ "WIP"; "CHANGES"; "TODO"; "TEST MODE"; "Bugs"; "NOTE"; "NOTES"; "SETUP";
    "SETUP and TEST MODE"; "SERVICE MODE"; "SETUP/SERVICE MODE"; "STORY";
    "HOW TO PLAY" ].

Definition list_sections_names : list string :=
  (λ s, s +:+ ":") <$> [ "BIOS"; "DEVICE"; "ROMS"; "Other Emulators" ].

(** The attributes of the entry under construction and the local variables
    of [MAMEInfoEntry.__init__] that [finish] and the loop share. *)
Record state : Type := {
  sections : gmap string string;
  list_sections : gmap string (list string);
  recommended_games : gmap string (list string);
  current_section : string;
  current_lines : list string;
  current_is_list : bool;
}.

Definition initial : state :=
  {| sections := ∅; list_sections := ∅; recommended_games := ∅;
     current_section := "summary"; current_lines := [];
     current_is_list := false |}.

(** The nested function [finish]. *)
Definition finish (st : state) : state :=
  let lines := filter (λ liney, Py.truthy liney = true) (current_lines st) in
  if Py.startswith (current_section st) "Recommended Games" then
    let key :=
      if Py.contains "(" (current_section st)
      then Py.init (Py.removeprefix "Recommended Games (" (current_section st))
      else "Games" in
    {| sections := sections st;
       list_sections := list_sections st;
       recommended_games := <[key := lines]> (recommended_games st);
       current_section := current_section st;
       current_lines := [];
       current_is_list := current_is_list st |}
  else if current_is_list st then
    {| sections := sections st;
       list_sections := <[current_section st := lines]> (list_sections st);
       recommended_games := recommended_games st;
       current_section := current_section st;
       current_lines := [];
       current_is_list := current_is_list st |}
  else
    {| sections := <[current_section st := Py.join Py.nl lines]> (sections st);
       list_sections := list_sections st;
       recommended_games := recommended_games st;
       current_section := current_section st;
       current_lines := [];
       current_is_list := current_is_list st |}.

(** [finish()] followed by the assignments of a scalar header branch
    ([LEVELS:], [ARCADE RELEASE:]). *)
Definition scalar_section (name prefix line : string) (st : state) : state :=
  let st' := finish st in
  {| sections :=
       <[name := Py.strip (Py.removeprefix prefix line)]> (sections st');
     list_sections := list_sections st';
     recommended_games := recommended_games st';
     current_section := name;
     current_lines := current_lines st';
     current_is_list := false |}.

(** One iteration of the loop over [contents.splitlines()]. *)
Definition step (st : state) (line : string) : state :=
  if Py.mem line normal_sections || Py.mem line list_sections_names then
    let st' := finish st in
    {| sections := sections st';
       list_sections := list_sections st';
       recommended_games := recommended_games st';
       current_section := Py.init line;
       current_lines := current_lines st';
       current_is_list := Py.mem line list_sections_names |}
  else if Py.startswith line "Recommended Games" then
    let st' := finish st in
    {| sections := sections st';
       list_sections := list_sections st';
       recommended_games := recommended_games st';
       current_section := Py.init line;
       current_lines := current_lines st';
       current_is_list := current_is_list st' |}
  else if Py.startswith line "LEVELS:" then
    scalar_section "Levels" "LEVELS:" line st
  else if Py.startswith line "ARCADE RELEASE:" then
    scalar_section "Release date" "ARCADE RELEASE:" line st
  else if Py.startswith line "Romset:" || Py.startswith line "CHD:" then st
  else
    {| sections := sections st;
       list_sections := list_sections st;
       recommended_games := recommended_games st;
       current_section := current_section st;
       current_lines :=
         current_lines st
         ++ [Py.strip (Py.removeprefix "* " (Py.removeprefix "- " line))];
       current_is_list := current_is_list st |}.

(** The whole loop, from the initial values of the locals. *)
Definition scan (lines : list string) : state := foldl step initial lines.

(** The object [MAMEInfoEntry(contents)] leaves behind. *)
Record MAMEInfoEntry : Type := {
  entry_contents : string;
  entry_sections : gmap string string;
  entry_list_sections : gmap string (list string);
  entry_recommended_games : gmap string (list string);
}.

(** [MAMEInfoEntry.__init__]: the loop runs over the lines of the argument
    and nothing follows it. *)
Definition init (contents : string) : MAMEInfoEntry :=
  let st := scan (Py.splitlines contents) in
  {| entry_contents := Py.removeprefix ("$mame" +:+ Py.nl) contents;
     entry_sections := sections st;
     entry_list_sections := list_sections st;
     entry_recommended_games := recommended_games st |}.

(** The lines that start a section. *)
Definition is_header (line : string) : bool :=
  Py.mem line normal_sections || Py.mem line list_sections_names
  || Py.startswith line "Recommended Games"
  || Py.startswith line "LEVELS:"
  || Py.startswith line "ARCADE RELEASE:".

(** Two states that hold the same buckets. *)
Definition same_buckets (st st' : state) : Prop :=
  sections st = sections st'
  ∧ list_sections st = list_sections st'
  ∧ recommended_games st = recommended_games st'.

End MAMEInfo.

(** ** support_files/dat.py *)

Module Dat.

(** The locals of [_parse_dat_raw]. *)
Record state : Type := {
  d : gmap string string;
  current_name : option string;
  current_info : list string;
}.

Definition initial : state :=
  {| d := ∅; current_name := None; current_info := [] |}.

(** One iteration of the loop over [f.readlines()]. *)
Definition step (st : state) (raw : string) : result state :=
  let line := Py.strip raw in
  if Py.startswith line "$info" then
    name ← Py.index (Py.split1 "=" line) 1;
    Ok {| d := d st; current_name := Some name; current_info := [] |}
  else
    match current_name st with
    | Some name =>
        if Py.truthy name then
          if String.eqb line "$end" then
            Ok {| d :=
                    <[name := Py.join Py.nl (tail (current_info st))]> (d st);
                  current_name := None;
                  current_info := current_info st |}
          else
            Ok {| d := d st; current_name := current_name st;
                  current_info := current_info st ++ [line] |}
        else Ok st
    | None => Ok st
    end.

Fixpoint run (st : state) (lines : list string) : result state :=
  match lines with
  | [] => Ok st
  | raw :: rest => st' ← step st raw; run st' rest
  end.

(** [_parse_dat_raw], on the lines the file yields. *)
Definition _parse_dat_raw (lines : list string) : result (gmap string string) :=
  d <$> run initial lines.

(** [DatsFolder.get_dat_info], on the lines of [<name>.dat]. *)
Definition get_dat_info (lines : list string) (basename : string)
  : result (option string) :=
  dat ← _parse_dat_raw lines;
  Ok ((dat : gmap string string) !! basename).

(** A line that is neither a header nor the end of a block. *)
Definition is_content (raw : string) : Prop :=
  Py.startswith (Py.strip raw) "$info" = false ∧ Py.strip raw ≠ "$end".

(** A header line the parser can read, and the name it declares. *)
Definition header_name (raw : string) : option (result string) :=
  if Py.startswith (Py.strip raw) "$info"
  then Some (Py.index (Py.split1 "=" (Py.strip raw)) 1)
  else None.

(** No header of [lines] lacks its [=]. *)
Definition headers_readable (lines : list string) : Prop :=
  Forall (λ raw, ∀ r, header_name raw = Some r → returns r) lines.

(** No header of [lines] declares [name]. *)
Definition never_declares (name : string) (lines : list string) : Prop :=
  Forall (λ raw, header_name raw ≠ Some (Ok name)) lines.

End Dat.

(** ** support_files/cats.py *)

Module Cats.

(** [CatMapping]: section of an .ini file -> basenames in it. The sections
    are kept in the order the dict received them. *)
Abbreviation CatMapping := (list (string * gset string)).

(** [d[section].add(line)] on a [defaultdict(set)]. *)
Fixpoint add_to_section (section line : string) (d : CatMapping) : CatMapping :=
  match d with
  | [] => [(section, {[ line ]})]
  | (k, names) :: d' =>
      if String.eqb k section then (k, {[ line ]} ∪ names) :: d'
      else (k, names) :: add_to_section section line d'
  end.

(** One iteration of the loop of [parse_mame_cat_ini]; the state is the dict
    and [current_section]. *)
Definition step (st : CatMapping * option string) (raw : string)
  : CatMapping * option string :=
  let '(d, current_section) := st in
  let line := Py.strip raw in
  if Py.startswith line ";" then st
  else if Py.startswith line "[" then (d, Some (Py.init (Py.drop 1 line)))
  else
    match current_section with
    | Some section =>
        if Py.truthy section
        then (add_to_section section line d, current_section)
        else st
    | None => st
    end.

(** [parse_mame_cat_ini], on the lines the file yields. *)
Definition parse_mame_cat_ini (lines : list string) : CatMapping :=
  (foldl step ([], None) lines).1.

(** [CategoryFolder.cats] *)
Record CategoryFolder : Type := { cats : gmap string CatMapping }.

(** [CategoryFolder.get_cats]. The empty tuple and the empty set are the
    same empty collection. *)
Definition get_cats (self : CategoryFolder) (cat_name basename : string)
  : gset string :=
  match cats self !! cat_name with
  | None | Some [] => ∅
  | Some cat =>
      list_to_set
        ((filter (λ kv, basename ∈ kv.2) cat).*1)
  end.

(** The sections of a category that hold [basename], in file order. *)
Definition matching_sections (self : CategoryFolder)
    (cat_name basename : string) : list string :=
  match cats self !! cat_name with
  | None => []
  | Some cat => (filter (λ kv, basename ∈ kv.2) cat).*1
  end.

(** [CategoryFolder.get_cat]: the value returned and whether the warning is
    logged. [set_iter] is the order in which this process iterates a set of
    strings. *)
Definition get_cat (set_iter : gset string → list string)
    (self : CategoryFolder) (cat_name basename : string)
  : option string * bool :=
  let sections := get_cats self cat_name basename in
  if bool_decide (sections = ∅) then (None, false)
  else (head (set_iter sections), bool_decide (1 < size sections)).

(** An order in which a process may iterate its sets of strings. *)
Definition iteration_order (set_iter : gset string → list string) : Prop :=
  ∀ s, set_iter s ≡ₚ elements s.

End Cats.

(** ** support_files/history.py *)

Module History.

(** [(.+) -\n] at the start of [s]: the group and the text after the match.
    The group takes one character that is not a newline, then prefers to go
    on (it is greedy) and otherwise must be followed by [" -\n"]. *)
Fixpoint match_group (s : string) : option (string * string) :=
  match s with
  | EmptyString => None
  | String c s' =>
      if Ascii.eqb c Py.newline then None
      else
        match match_group s' with
        | Some (g, r) => Some (String c g, r)
        | None =>
            if Py.startswith s' (" -" +:+ Py.nl)
            then Some (String c EmptyString, Py.drop 3 s')
            else None
        end
  end.

(** [_line_pattern.match(s)] for [_line_pattern = \n- (.+) -\n]. *)
Definition match_line_pattern (s : string) : option (string * string) :=
  if Py.startswith s (Py.nl +:+ "- ") then match_group (Py.drop 3 s) else None.

(** [_line_pattern.search(s)]: the text before the leftmost match, its group
    and the text after it. *)
Fixpoint search (s : string) : option (string * string * string) :=
  match match_line_pattern s with
  | Some (g, r) => Some (EmptyString, g, r)
  | None =>
      match s with
      | EmptyString => None
      | String c s' =>
          match search s' with
          | Some (b, g, r) => Some (String c b, g, r)
          | None => None
          end
      end
  end.

(** [_line_pattern.split(s)]; a match is at least seven characters long, so
    [String.length s] rounds are enough. *)
Fixpoint split_fuel (n : nat) (s : string) : list string :=
  match search s with
  | None => [s]
  | Some (b, g, r) =>
      match n with
      | 0 => [s]
      | S n' => b :: g :: split_fuel n' r
      end
  end.

Definition re_split (s : string) : list string :=
  split_fuel (String.length s) s.

(** [sections[k] = v] on a dict, which keeps the position of a key it
    already holds. *)
Fixpoint dict_set (k v : string) (dict : list (string * string))
  : list (string * string) :=
  match dict with
  | [] => [(k, v)]
  | (k', v') :: dict' =>
      if String.eqb k' k then (k', v) :: dict'
      else (k', v') :: dict_set k v dict'
  end.

(** The loop of [parse_info_sections] from index [i] on. *)
Fixpoint loop (i : nat) (section : string) (sections : list (string * string))
    (groups : list string) : list (string * string) :=
  match groups with
  | [] => sections
  | group :: rest =>
      if Nat.odd i then loop (S i) group sections rest
      else loop (S i) section (dict_set section (Py.strip group) sections) rest
  end.

Definition parse_info_sections (text : string) : list (string * string) :=
  loop 0 EmptyString [] (re_split text).

(** The elements of a split at even indices: the text between markers. *)
Fixpoint bodies (groups : list string) : list string :=
  match groups with
  | [] => []
  | b :: rest =>
      b :: match rest with
           | [] => []
           | _ :: rest' => bodies rest'
           end
  end.

(** The elements of a split at odd indices: the section headers. *)
Definition headers (groups : list string) : list string :=
  match groups with
  | [] => []
  | _ :: rest => bodies rest
  end.

(** The section names of the delimiters [re.split] finds in [text]. *)
Definition delimiters (text : string) : list string := headers (re_split text).

(** The marker a header was cut out of. *)
Definition marker (header : string) : string :=
  Py.nl +:+ "- " +:+ header +:+ " -" +:+ Py.nl.

(** A split put back together, every header inside its marker again. *)
Fixpoint unsplit (groups : list string) : string :=
  match groups with
  | [] => EmptyString
  | [b] => b
  | b :: h :: rest => b +:+ marker h +:+ unsplit rest
  end.

(** The assignments the loop performs, in order. *)
Definition assignments (section : string) (groups : list string)
  : list (string * string) :=
  zip (section :: headers groups) (Py.strip <$> bodies groups).

Definition assign (dict : list (string * string)) (kv : string * string)
  : list (string * string) :=
  dict_set kv.1 kv.2 dict.

End History.

(** ** user_data/timer_db.py *)

Module TimerDb.

(** A [datetime.timedelta], as its number of microseconds. *)
Definition timedelta : Type := Z.
Definition timedelta_zero : timedelta := 0%Z.

Record TimerDBRow : Type := {
  total_time : timedelta;
  play_count : Z;
  emulated_time : timedelta;
}.

Record TimerDB : Type := {
  systems : gmap string TimerDBRow;
  software : gmap (string * string) TimerDBRow;
}.

End TimerDb.

(** ** elements/machine_element.py *)

Module Elements.

(** The attributes of a [<machine>] element the composite view reads:
    [name], [description], [cloneof] and [romof]. *)
Record MachineElement : Type := {
  basename : string;
  name : string;
  parent_basename : option string;
  bios_basename : option string;
}.

(** [get_machine_elements_from_file_as_dict]: a later element replaces an
    earlier one of the same basename. *)
Definition get_machine_elements_from_file_as_dict (file : list MachineElement)
  : gmap string MachineElement :=
  foldl (λ dict element, <[basename element := element]> dict) ∅ file.

End Elements.

(** ** wrappers/machine.py *)

Module MachineView.

Import TimerDb.

(** File system paths are strings. *)
Definition Path : Type := string.

Record MAMESettings : Type := {
  xml_path : option Path;
  cat_path : option Path;
  plugin_config_home : option Path;
}.

(** [MAMESettings.timer_db_path] *)
Definition timer_db_path (settings : MAMESettings) : option Path :=
  match plugin_config_home settings with
  | Some home => Some (home +:+ "/timer/timer.db")
  | None => None
  end.

(** What the composite view reads from outside the process. The listing
    and the category folder are taken as read: a path that the settings give
    for them names a file or a folder that exists and parses, and
    [mame -listxml] runs. What opening or decoding them can raise is outside
    this model. *)
Record World : Type := {
  (** the [<machine>] elements of the file at a path, in document order *)
  xml_file : Path → list Elements.MachineElement;
  (** [mame -listxml <basename>]: the machine listed, if any *)
  listxml : string → option Elements.MachineElement;
  (** [read_cat_folder(path)] *)
  cat_folder : Path → Cats.CategoryFolder;
  (** the store that [load_timer_db(path)] reads from the table [timer] of
      the database at a path; [None] when the database has no such table,
      as at a path where no file exists: [sqlite3] then creates an empty
      database, or cannot open one, and raises [OperationalError] *)
  timer_db : Path → option TimerDB;
}.

(** user_data/timer_db.py: [load_timer_db] *)
Definition load_timer_db (w : World) (db_path : Path) : result TimerDB :=
  match timer_db w db_path with
  | Some db => Ok db
  | None => Raise OperationalError
  end.

(** user_data/timer_db.py: [try_load_timer_db], whose handler catches
    [FileNotFoundError] and nothing else. *)
Definition try_load_timer_db (w : World) (db_path : Path)
  : result (option TimerDB) :=
  match load_timer_db w db_path with
  | Ok db => Ok (Some db)
  | Raise FileNotFoundError => Ok None
  | Raise err => Raise err
  end.

(** [_get_machine_element] and [_get_machine_element_async] *)
Definition _get_machine_element (w : World) (settings : MAMESettings)
    (basename_or_element : string + Elements.MachineElement)
  : result Elements.MachineElement :=
  match basename_or_element with
  | inr element => Ok element
  | inl basename =>
      match xml_path settings with
      | Some path =>
          match Elements.get_machine_elements_from_file_as_dict
                  (xml_file w path) !! basename with
          | Some element => Ok element
          | None => Raise (KeyError basename)
          end
      | None =>
          match listxml w basename with
          | Some element => Ok element
          | None => Raise (KeyError basename)
          end
      end
  end.

(** The attributes [Machine.__init__] stores that the properties below
    read. *)
#[warnings="-register-all"]
Inductive Machine : Type := mkMachine {
  element : Elements.MachineElement;
  settings : MAMESettings;
  category_folder : option Cats.CategoryFolder;
  parent : option Machine;
  bios : option Machine;
}.

(** [bool(x)] for an optional string *)
Definition truthy (x : option string) : bool :=
  match x with
  | Some s => Py.truthy s
  | None => false
  end.

(** [Machine.name] *)
Definition name (self : Machine) : string := Elements.name (element self).

(** [Machine.basename] *)
Definition basename (self : Machine) : string :=
  Elements.basename (element self).

(** [Machine.parent_basename] *)
Definition parent_basename (self : Machine) : option string :=
  Elements.parent_basename (element self).

(** [Machine.bios_basename] *)
Fixpoint bios_basename (self : Machine) : result (option string) :=
  if truthy (Elements.bios_basename (element self))
     && bool_decide (Elements.bios_basename (element self)
                     = Elements.parent_basename (element self))
  then
    match parent self with
    | Some p => bios_basename p
    | None => Raise AssertionError
    end
  else Ok (Elements.bios_basename (element self)).

(** [Machine.bios_name] *)
Definition bios_name (self : Machine) : option string :=
  name <$> bios self.

(** [Machine.parent_name] *)
Definition parent_name (self : Machine) : option string :=
  name <$> parent self.

(** [Machine._timer_db_row] *)
Definition _timer_db_row (w : World) (self : Machine)
  : result (option TimerDBRow) :=
  match timer_db_path (settings self) with
  | None => Ok None
  | Some path =>
      db ← try_load_timer_db w path;
      match (db : option TimerDB) with
      | None => Ok None
      | Some db => Ok (systems db !! basename self)
      end
  end.

(** [Machine.total_time_played] *)
Definition total_time_played (w : World) (self : Machine)
  : result timedelta :=
  time_played ← _timer_db_row w self;
  match (time_played : option TimerDBRow) with
  | Some time_played => Ok (total_time time_played)
  | None => Ok timedelta_zero
  end.

(** [Machine.play_count] *)
Definition play_count (w : World) (self : Machine) : result Z :=
  time_played ← _timer_db_row w self;
  match (time_played : option TimerDBRow) with
  | Some time_played => Ok (TimerDb.play_count time_played)
  | None => Ok 0%Z
  end.

(** [Machine.total_time_emulated] *)
Definition total_time_emulated (w : World) (self : Machine)
  : result timedelta :=
  time_played ← _timer_db_row w self;
  match (time_played : option TimerDBRow) with
  | Some time_played => Ok (emulated_time time_played)
  | None => Ok timedelta_zero
  end.

(** The [category_folder] both constructors go on with. *)
Definition resolve_category_folder (w : World) (settings : MAMESettings)
    (category_folder : option Cats.CategoryFolder)
  : option Cats.CategoryFolder :=
  match category_folder with
  | Some folder => Some folder
  | None => cat_folder w <$> cat_path settings
  end.

(** [get(basename) if basename else None], the conditional expression both
    constructors resolve a parent or a BIOS with. *)
Definition view_if_named (get : string → result Machine)
    (basename : option string) : result (option Machine) :=
  match basename with
  | Some b => if Py.truthy b then Some <$> get b else Ok None
  | None => Ok None
  end.

(** [get_machine]. Each call nests one frame; [fuel] is the number of
    frames left before [RecursionError]. *)
Fixpoint get_machine (fuel : nat) (w : World) (settings : MAMESettings)
    (basename_or_element : string + Elements.MachineElement)
    (category_folder : option Cats.CategoryFolder) : result Machine :=
  match fuel with
  | 0 => Raise RecursionError
  | S fuel' =>
      let category_folder :=
        resolve_category_folder w settings category_folder in
      let get basename :=
        get_machine fuel' w settings (inl basename) category_folder in
      element ← _get_machine_element w settings basename_or_element;
      parent ← view_if_named get (Elements.parent_basename element);
      bios ← view_if_named get (Elements.bios_basename element);
      Ok (mkMachine element settings category_folder parent bios)
  end.

(** [get_machine_async]. The awaits run one after the other, so the
    coroutine computes a value the same way a function does. *)
Fixpoint get_machine_async (fuel : nat) (w : World) (settings : MAMESettings)
    (basename_or_element : string + Elements.MachineElement)
    (category_folder : option Cats.CategoryFolder) : result Machine :=
  match fuel with
  | 0 => Raise RecursionError
  | S fuel' =>
      let category_folder :=
        resolve_category_folder w settings category_folder in
      let get basename :=
        get_machine_async fuel' w settings (inl basename) category_folder in
      element ← _get_machine_element w settings basename_or_element;
      parent ← view_if_named get (Elements.parent_basename element);
      bios_basename ←
        match parent with
        | Some p => bios_basename p
        | None => Ok (Elements.bios_basename element)
        end;
      bios ← view_if_named get bios_basename;
      Ok (mkMachine element settings category_folder parent bios)
  end.

(** A view whose parent link is there exactly when its element declares a
    parent, all the way up. Both constructors build such views. *)
Fixpoint linked (m : Machine) : Prop :=
  match parent m with
  | Some p =>
      truthy (Elements.parent_basename (element m)) = true ∧ linked p
  | None => truthy (Elements.parent_basename (element m)) = false
  end.

(** The entity source holds no machine of this basename. *)
Definition absent (w : World) (s : MAMESettings) (basename : string) : Prop :=
  _get_machine_element w s (inl basename) = Raise (KeyError basename).

(** No play time is on record for the machine: no store is configured, or
    the store that is configured loads and has no row for the machine. *)
Definition no_play_time_row (w : World) (self : Machine) : Prop :=
  match timer_db_path (settings self) with
  | None => True
  | Some path =>
      ∃ db, timer_db w path = Some db ∧ systems db !! basename self = None
  end.

End MachineView.

(** ** Sample data *)

Module Samples.

Import MachineView.

(** A BIOS, a game that runs on it and a clone of the game, the way a
    machine listing declares them: the clone names its parent as [romof]. *)
Definition neogeo : Elements.MachineElement :=
  {| Elements.basename := "neogeo"; Elements.name := "Neo-Geo MV-6F";
     Elements.parent_basename := None; Elements.bios_basename := None |}.

Definition mslug2 : Elements.MachineElement :=
  {| Elements.basename := "mslug2"; Elements.name := "Metal Slug 2";
     Elements.parent_basename := None;
     Elements.bios_basename := Some "neogeo" |}.

Definition mslug2t : Elements.MachineElement :=
  {| Elements.basename := "mslug2t"; Elements.name := "Metal Slug 2 Turbo";
     Elements.parent_basename := Some "mslug2";
     Elements.bios_basename := Some "mslug2" |}.

(** A clone whose parent the listing does not hold. *)
Definition orphan : Elements.MachineElement :=
  {| Elements.basename := "orphan"; Elements.name := "Orphaned Clone";
     Elements.parent_basename := Some "ghost";
     Elements.bios_basename := None |}.

Definition pacman_row : TimerDb.TimerDBRow :=
  {| TimerDb.total_time := 3600000000%Z; TimerDb.play_count := 4%Z;
     TimerDb.emulated_time := 3500000000%Z |}.

Definition world : World :=
  {| xml_file := λ _, [neogeo; mslug2; mslug2t; orphan];
     listxml := λ _, None;
     cat_folder := λ _, {| Cats.cats := ∅ |};
     timer_db := λ _,
       Some {| TimerDb.systems := {[ "pacman" := pacman_row ]};
               TimerDb.software := ∅ |} |}.

Definition settings_xml : MAMESettings :=
  {| xml_path := Some "mame.xml"; cat_path := None;
     plugin_config_home := Some "/home/user/.mame" |}.

(** Two sections of one category file that both list [pacman]. *)
Definition catlist_lines : list string :=
  [ "[Maze]"; "pacman"; "[Arcade]"; "pacman"; "dkong" ].

Definition folder : Cats.CategoryFolder :=
  {| Cats.cats := {[ "catlist" := Cats.parse_mame_cat_ini catlist_lines ]} |}.

(** A history text whose two sections carry the same header. *)
Definition repeated_header : string :=
  "a" +:+ History.marker "X" +:+ "b" +:+ History.marker "X" +:+ "c".

Definition distinct_headers : string :=
  "lead " +:+ History.marker "TRIVIA" +:+ " one" +:+ History.marker "TIPS"
  +:+ "two".

(** A mameinfo entry with a summary, a free-text section and a list. *)
Definition mameinfo_text : string :=
  "0.37b5 [Someone]" +:+ Py.nl +:+ "WIP:" +:+ Py.nl +:+ "- Fixed sound"
  +:+ Py.nl +:+ "BIOS:" +:+ Py.nl +:+ "* foo".

Definition dat_lines : list string :=
  [ "# header"; "$info=pacman"; "$mame"; " line 1  "; "line 2"; "$end";
    "junk"; "$info=dkong"; "$mame"; "other"; "$end" ].

(** The views both constructors build for the sample listing. *)
Definition sample_view (fuel : nat) (basename : string) : result Machine :=
  get_machine fuel world settings_xml (inl basename) None.

Definition sample_view_async (fuel : nat) (basename : string)
  : result Machine :=
  get_machine_async fuel world settings_xml (inl basename) None.

(** A view of a machine that the sample store, which is configured, has no
    row for. *)
Definition unplayed : Machine :=
  mkMachine mslug2 settings_xml None None None.

(** The sample world before the timer plugin has written a store: no file
    exists at the path of the store. *)
Definition world_without_store : World :=
  {| xml_file := xml_file world;
     listxml := listxml world;
     cat_folder := cat_folder world;
     timer_db := λ _, None |}.

End Samples.

(** ** support_files/mameinfo.py: the lines a section keeps *)

Module MAMEInfoLines.

(** What the last branch of the loop appends for a line. *)
Definition cleaned (line : string) : string :=
  Py.strip (Py.removeprefix "* " (Py.removeprefix "- " line)).

(** The lines the [Romset:] / [CHD:] branch discards. *)
Definition is_discarded (line : string) : bool :=
  Py.startswith line "Romset:" || Py.startswith line "CHD:".

(** What [finish] makes of lines that are no headers: the discarded ones
    left out, the others cleaned, the empty ones left out. *)
Definition kept (lines : list string) : list string :=
  filter (λ liney, Py.truthy liney = true)
    (cleaned <$> filter (λ line, is_discarded line = false) lines).

(** The header of the recommended games of a platform. *)
Definition recommended_header (platform : string) : string :=
  "Recommended Games (" +:+ platform +:+ "):".

End MAMEInfoLines.


(** ** support_files/history.py: entries and the history database *)

Module HistoryEntries.

(** [(.+) years ago:] at the start of [s]: the group and the text after the
    match. The group is greedy, like the one of [History.match_group]. *)
Fixpoint match_age (s : string) : option (string * string) :=
  match s with
  | EmptyString => None
  | String c s' =>
      if Ascii.eqb c Py.newline then None
      else
        match match_age s' with
        | Some (a, r) => Some (String c a, r)
        | None =>
            if Py.startswith s' " years ago:"
            then Some (String c EmptyString, Py.drop 11 s')
            else None
        end
  end.

(** [_start_line_pattern.match(s)] for
    [_start_line_pattern = (?P<type>.+) published (?P<age>.+) years ago:]:
    the two groups and the text after the match. The first group takes one
    character that is not a newline, then prefers to go on and otherwise
    must be followed by [" published "] and a match of the rest. *)
Fixpoint _start_line_pattern (s : string)
  : option (string * string * string) :=
  match s with
  | EmptyString => None
  | String c s' =>
      if Ascii.eqb c Py.newline then None
      else
        match _start_line_pattern s' with
        | Some (t, a, r) => Some (String c t, a, r)
        | None =>
            if Py.startswith s' " published " then
              match match_age (Py.drop 11 s') with
              | Some (a, r) => Some (String c EmptyString, a, r)
              | None => None
              end
            else None
        end
  end.

(** [dict.get(k)] on a dict kept as the list of its items. *)
Fixpoint get (dict : list (string * string)) (k : string) : option string :=
  match dict with
  | [] => None
  | (k', v) :: dict' => if String.eqb k' k then Some v else get dict' k
  end.

Record HistoryEntry : Type := { sections : list (string * string) }.

(** [HistoryEntry.__init__] *)
Definition init (text : string) : HistoryEntry :=
  {| sections := History.parse_info_sections text |}.

(** [HistoryEntry._start]: type, age, the rest of the text. *)
Definition _start (self : HistoryEntry)
  : option string * option string * option string :=
  match get (sections self) EmptyString with
  | None => (None, None, None)
  | Some start =>
      match _start_line_pattern start with
      | None => (None, None, Some start)
      | Some (type, age, rest) =>
          (Some type, Some age, Some (Py.strip (Py.drop 1 rest)))
      end
  end.

Definition entry_type (self : HistoryEntry) : option string :=
  (_start self).1.1.

Definition description (self : HistoryEntry) : option string :=
  (_start self).2.

Definition technical_info (self : HistoryEntry) : option string :=
  get (sections self) "TECHNICAL".

Definition trivia (self : HistoryEntry) : option string :=
  get (sections self) "TRIVIA".

Definition tips_and_tricks (self : HistoryEntry) : option string :=
  get (sections self) "TIPS AND TRICKS".

Definition updates (self : HistoryEntry) : option string :=
  get (sections self) "UPDATES".

Definition scoring (self : HistoryEntry) : option string :=
  get (sections self) "SCORING".

Definition series_info (self : HistoryEntry) : option string :=
  get (sections self) "SERIES".

Definition staff (self : HistoryEntry) : option string :=
  get (sections self) "STAFF".

Definition ports (self : HistoryEntry) : option string :=
  get (sections self) "PORTS".

Definition cast (self : HistoryEntry) : option string :=
  get (sections self) "CAST OF CHARACTERS".

(** The set literal of [other_sections]. *)
Definition known_sections : list string :=
  [ EmptyString; "TECHNICAL"; "TRIVIA"; "TIPS AND TRICKS"; "UPDATES";
    "SCORING"; "SERIES"; "STAFF"; "PORTS"; "CAST OF CHARACTERS" ].

Definition other_sections (self : HistoryEntry) : list (string * string) :=
  filter (λ kv, kv.1 ∉ known_sections) (sections self).

(** elements/history_xml.py: what [HistoryDB] reads of an [<entry>]
    element, its text and the set of the systems it names. *)
Record HistoryEntryElement : Type := {
  text : option string;
  systems : gset string;
}.

(** [HistoryXML.iter_system_histories]; [set_iter] is the order in which
    this process iterates a set of strings. *)
Definition iter_system_histories (set_iter : gset string → list string)
    (xml : list HistoryEntryElement) : list (string * string) :=
  entry ← xml;
  match text entry with
  | Some t =>
      if Py.truthy t then (λ system, (system, t)) <$> set_iter (systems entry)
      else []
  | None => []
  end.

Record HistoryDB : Type := { system_histories : list (string * string) }.

(** [HistoryDB.__init__] *)
Definition db_init (set_iter : gset string → list string)
    (xml : list HistoryEntryElement) : HistoryDB :=
  {| system_histories := iter_system_histories set_iter xml |}.

(** [HistoryDB.get_history] *)
Definition get_history (self : HistoryDB) (basename : string)
  : option HistoryEntry :=
  init <$> get (system_histories self) basename.

(** The text of the first entry, in document order, that has one and names
    the system. *)
Fixpoint first_history (xml : list HistoryEntryElement) (basename : string)
  : option string :=
  match xml with
  | [] => None
  | entry :: rest =>
      match text entry with
      | Some t =>
          if Py.truthy t && bool_decide (basename ∈ systems entry)
          then Some t
          else first_history rest basename
      | None => first_history rest basename
      end
  end.

(** A character other than the newline. *)
Fixpoint no_newline (s : string) : bool :=
  match s with
  | EmptyString => true
  | String c s' => negb (Ascii.eqb c Py.newline) && no_newline s'
  end.

(** A body that holds no newline followed by a dash and a space, the start
    of every marker. *)
Definition plain_body (b : string) : Prop :=
  Py.contains (Py.nl +:+ "- ") b = false.

(** A header a marker can carry: not empty and on one line. *)
Definition plain_header (h : string) : Prop :=
  h ≠ EmptyString ∧ no_newline h = true.

(** Bodies and headers in turn, as [History.unsplit] takes them. *)
Fixpoint well_formed (groups : list string) : Prop :=
  match groups with
  | [] => False
  | [b] => plain_body b
  | b :: h :: rest => plain_body b ∧ plain_header h ∧ well_formed rest
  end.

(** A history text of three sections, cut at its delimiters. *)
Definition sample_groups : list string :=
  [ "Arcade Video game published 45 years ago:" +:+ Py.nl +:+ "A maze game.";
    "TRIVIA"; "Released in 1980."; "SERIES"; "1. Pac-Man" ].

(** Two entries of a history.xml that both name the system [puckman]. *)
Definition sample_xml : list HistoryEntryElement :=
  [ {| text := None; systems := {[ "pacman" ]} |};
    {| text := Some "Arcade published 45 years ago: Eat the dots.";
       systems := {[ "pacman"; "puckman" ]} |};
    {| text := Some "A bootleg."; systems := {[ "puckman" ]} |} ].

End HistoryEntries.

(** ** support_files/cats.py: what a category file lists *)

Module CatLines.

(** A line that opens a section, once stripped. *)
Definition is_header (raw : string) : bool :=
  Py.startswith (Py.strip raw) "[".

(** A line that is neither a comment nor the start of a section. *)
Definition is_entry (raw : string) : bool :=
  negb (Py.startswith (Py.strip raw) ";")
  && negb (Py.startswith (Py.strip raw) "[").

(** The name a header gives its section: the line without its first and
    its last character. *)
Definition section_name (raw : string) : string :=
  Py.init (Py.drop 1 (Py.strip raw)).

(** The lines list [basename] under [section]: a header of that name, which
    is not empty, is followed by an entry line that reads [basename], with
    no other header in between. *)
Definition listed (lines : list string) (section basename : string) : Prop :=
  ∃ before header between entry after,
    lines = (before ++ header :: between ++ entry :: after)%list
    ∧ is_header header = true
    ∧ section_name header = section
    ∧ section ≠ EmptyString
    ∧ Forall (λ raw, is_header raw = false) between
    ∧ is_entry entry = true
    ∧ Py.strip entry = basename.

(** The mapping holds [basename] under [section]. *)
Definition holds (d : Cats.CatMapping) (section basename : string) : Prop :=
  ∃ names, (section, names) ∈ d ∧ basename ∈ names.

(** What the loop of the parser keeps true of its dict: no section twice,
    none with the empty name, none without a basename. *)
Definition well_shaped (d : Cats.CatMapping) : Prop :=
  NoDup d.*1 ∧ Forall (λ kv, kv.1 ≠ EmptyString ∧ kv.2 ≠ ∅) d.

(** A category file with a comment, a blank line inside a section and a
    header that lacks its closing bracket. *)
Definition sample_lines : list string :=
  [ "pacman"; ";; comment"; "[Maze]"; "  pacman "; ""; "[Arcade";
    "dkong"; "[]"; "qix" ].

Definition sample_folder : Cats.CategoryFolder :=
  {| Cats.cats := {[ "genre" := Cats.parse_mame_cat_ini sample_lines ]} |}.

End CatLines.

(** ** support_files/dat.py: the blocks of a .dat file *)

Module DatBlocks.

(** A header line that has no [=] to split at. *)
Definition lacks_equals (raw : string) : bool :=
  Py.startswith (Py.strip raw) "$info"
  && negb (Py.contains "=" (Py.strip raw)).

(** The lines hold a closed block that declares [name] and whose text is
    [v]: a header of that name, content lines, and [$end]. *)
Definition block (lines : list string) (name v : string) : Prop :=
  ∃ before header body end_ after,
    lines = (before ++ header :: body ++ end_ :: after)%list
    ∧ Dat.header_name header = Some (Ok name)
    ∧ Forall Dat.is_content body
    ∧ Py.strip end_ = "$end"
    ∧ v = Py.join Py.nl (tail (Py.strip <$> body)).

(** The block a header has opened and that no [$end] has closed yet. *)
Definition open_block (lines : list string) (st : Dat.state) (name : string)
  : Prop :=
  ∃ before header body,
    lines = (before ++ header :: body)%list
    ∧ Dat.header_name header = Some (Ok name)
    ∧ Forall Dat.is_content body
    ∧ Dat.current_info st = Py.strip <$> body.

(** What the loop of [_parse_dat_raw] keeps true after [lines]. *)
Definition invariant (lines : list string) (st : Dat.state) : Prop :=
  (∀ name v, Dat.d st !! name = Some v →
     name ≠ EmptyString ∧ block lines name v)
  ∧ (∀ name, Dat.current_name st = Some name → name ≠ EmptyString →
       open_block lines st name).

(** [Machine.get_messinfo_summary], on the lines of [messinfo.dat] when a
    dats folder is configured. *)
Definition get_messinfo_summary (dat_folder : option (list string))
    (basename : string) : result (option string) :=
  match dat_folder with
  | None => Ok None
  | Some lines =>
      messinfo ← Dat.get_dat_info lines basename;
      match (messinfo : option string) with
      | None => Ok None
      | Some text =>
          if Py.truthy text then
            summary ← Py.index (Py.split1 (Py.nl +:+ "DRIVER:") text) 0;
            Ok (Some summary)
          else Ok None
      end
  end.

(** A messinfo.dat with one block. *)
Definition messinfo_lines : list string :=
  [ "$info=coleco"; "$mame"; "ColecoVision"; "A console."; "DRIVER: coleco";
    "ok"; "$end" ].

End DatBlocks.

(** ** wrappers/machine.py: category, type and platform of a machine *)

Module MachineKind.

Import Catlist MachineView.

(** The attributes of the machine element that [machine_type] reads besides
    those of [Elements.MachineElement]. *)
Record MachineFlags : Type := {
  is_bios : bool;
  is_mechanical : bool;
  number_of_coin_slots : Z;
}.

(** [Machine.catlist_full]; [set_iter] is the order in which this process
    iterates a set of strings. *)
Definition catlist_full (set_iter : gset string → list string)
    (self : Machine) : option string :=
  match category_folder self with
  | None => None
  | Some folder =>
      match (Cats.get_cat set_iter folder "catlist" (basename self)).1 with
      | Some catlist => Some catlist
      | None =>
          match parent_basename self with
          | Some parent =>
              if Py.truthy parent
              then (Cats.get_cat set_iter folder "catlist" parent).1
              else None
          | None => None
          end
      end
  end.

(** [Machine.catlist] *)
Definition catlist (set_iter : gset string → list string) (self : Machine)
  : option CatlistCategory :=
  match catlist_full set_iter self with
  | Some full => if Py.truthy full then Some (Catlist.init full) else None
  | None => None
  end.

(** [Machine.genre] and [Machine.subgenre] *)
Definition genre (set_iter : gset string → list string) (self : Machine)
  : result (option string) :=
  match catlist set_iter self with
  | Some c => Catlist.genre c
  | None => Ok None
  end.

Definition subgenre (set_iter : gset string → list string) (self : Machine)
  : result (option string) :=
  match catlist set_iter self with
  | Some c => Catlist.subgenre c
  | None => Ok None
  end.

(** [Machine.platform_prefixes] and [Machine.platform_suffixes], in the
    order of the dict literals. *)
Definition platform_prefixes : list (string * MachineType) :=
  [ ("Game & Watch", LCDHandheld); ("R-Zone", ConsoleCartridge) ].

Definition platform_suffixes : list (string * MachineType) :=
  [ ("XaviXPORT", ConsoleCartridge); ("CPS Changer", ConsoleCartridge);
    ("Domyos Interactive System", ConsoleCartridge) ].

(** The loop of [Machine._platform_prefix]. *)
Fixpoint prefix_loop (name : string) (items : list (string * MachineType))
  : option (string * MachineType) :=
  match items with
  | [] => None
  | (prefix, machine_type) :: rest =>
      if Py.startswith name (prefix +:+ ": ")
      then Some (prefix, machine_type)
      else prefix_loop name rest
  end.

Definition _platform_prefix (self : Machine)
  : option (string * MachineType) :=
  prefix_loop (name self) platform_prefixes.

(** The loop of [Machine._platform_suffix]. *)
Fixpoint suffix_loop (name : string) (items : list (string * MachineType))
  : result (option (string * MachineType)) :=
  match items with
  | [] => Ok None
  | (suffix, machine_type) :: rest =>
      if Py.contains " (" name then
        tail ← Py.index (Py.split1 " (" name) 1;
        if Py.contains suffix tail then Ok (Some (suffix, machine_type))
        else suffix_loop name rest
      else suffix_loop name rest
  end.

Definition _platform_suffix (self : Machine)
  : result (option (string * MachineType)) :=
  suffix_loop (name self) platform_suffixes.

(** [Machine._is_arcade] *)
Definition _is_arcade (set_iter : gset string → list string)
    (self : Machine) (flags : MachineFlags) : result bool :=
  match catlist set_iter self with
  | Some c =>
      t ← Catlist.machine_type c;
      if bool_decide ((t : MachineType) = Arcade) then Ok true
      else Ok (0 <? number_of_coin_slots flags)%Z
  | None => Ok (0 <? number_of_coin_slots flags)%Z
  end.

(** [Machine.machine_type] *)
Definition machine_type (set_iter : gset string → list string)
    (self : Machine) (flags : MachineFlags) : result MachineType :=
  match _platform_prefix self with
  | Some (_, t) => Ok t
  | None =>
      suffix ← _platform_suffix self;
      match (suffix : option (string * MachineType)) with
      | Some (_, t) => Ok t
      | None =>
          if is_bios flags then Ok BIOS
          else
            match catlist set_iter self with
            | Some c => Catlist.machine_type c
            | None =>
                arcade ← _is_arcade set_iter self flags;
                if (arcade : bool) then Ok Arcade
                else if is_mechanical flags then Ok Mechanical
                else Ok Other
            end
      end
  end.

(** [MachineType.name] *)
Definition type_name (t : MachineType) : string :=
  match t with
  | Arcade => "Arcade" | BIOS => "BIOS" | CoinPusher => "CoinPusher"
  | ConsoleCartridge => "ConsoleCartridge" | Gambling => "Gambling"
  | Handheld => "Handheld" | LCDHandheld => "LCDHandheld"
  | Redemption => "Redemption" | MedalGame => "MedalGame"
  | Mechanical => "Mechanical" | Pinball => "Pinball"
  | PlugAndPlay => "PlugAndPlay" | PrintClub => "PrintClub"
  | Other => "Other"
  end.

(** [Machine.platform]. The property reads [machine_type] up to three
    times; every reading gives the same result. *)
Definition platform (set_iter : gset string → list string)
    (self : Machine) (flags : MachineFlags) : result string :=
  match _platform_prefix self with
  | Some (prefix, _) => Ok prefix
  | None =>
      suffix ← _platform_suffix self;
      match (suffix : option (string * MachineType)) with
      | Some (suffix, _) => Ok suffix
      | None =>
          t ← machine_type set_iter self flags;
          if bool_decide ((t : MachineType) = PlugAndPlay)
          then Ok "Plug & Play"
          else if bool_decide (t = MedalGame) then Ok "Medal Game"
          else Ok (type_name t)
      end
  end.

(** A machine of the category file of the samples, and a handheld whose
    name carries a platform prefix. *)
Definition pinball_element : Elements.MachineElement :=
  {| Elements.basename := "pinbot"; Elements.name := "Pin-Bot";
     Elements.parent_basename := None; Elements.bios_basename := None |}.

Definition pinball_folder : Cats.CategoryFolder :=
  {| Cats.cats :=
       {[ "catlist" :=
            Cats.parse_mame_cat_ini
              [ "[Electromechanical]"; "pinbot"; "gnw_ball" ] ]} |}.

Definition pinbot : Machine :=
  mkMachine pinball_element Samples.settings_xml (Some pinball_folder)
    None None.

Definition gnw_element : Elements.MachineElement :=
  {| Elements.basename := "gnw_ball"; Elements.name := "Game & Watch: Ball";
     Elements.parent_basename := None; Elements.bios_basename := None |}.

Definition gnw_ball : Machine :=
  mkMachine gnw_element Samples.settings_xml (Some pinball_folder)
    None None.

Definition no_flags : MachineFlags :=
  {| is_bios := false; is_mechanical := false; number_of_coin_slots := 0 |}.

End MachineKind.

(** ** user_data/timer_db.py: loading the play time store *)

Module TimerRow.

(** A row of the table [timer]: the columns the loader tests, and the
    [TimerDBRow] that [TimerDBRow.from_db_row] makes of its time columns. *)
Record Row : Type := {
  driver : string;
  softlist : option string;
  software : option string;
  data : TimerDb.TimerDBRow;
}.

(** The second component of the key of a software row:
    [f'{softlist}:{row["software"]}' if softlist else row['software']]. *)
Definition software_key (row : Row) : string :=
  match softlist row with
  | Some sl =>
      if Py.truthy sl then sl +:+ ":" +:+ default EmptyString (software row)
      else default EmptyString (software row)
  | None => default EmptyString (software row)
  end.

(** One iteration of the loop of [load_timer_db]. *)
Definition step (db : TimerDb.TimerDB) (row : Row) : TimerDb.TimerDB :=
  if MachineView.truthy (software row) then
    {| TimerDb.systems := TimerDb.systems db;
       TimerDb.software :=
         <[(driver row, software_key row) := data row]>
           (TimerDb.software db) |}
  else
    {| TimerDb.systems := <[driver row := data row]> (TimerDb.systems db);
       TimerDb.software := TimerDb.software db |}.

(** [load_timer_db], on the rows of the table in the order of the query. *)
Definition load_timer_db (rows : list Row) : TimerDb.TimerDB :=
  foldl step {| TimerDb.systems := ∅; TimerDb.software := ∅ |} rows.

(** The rows of a system, and those of a software under a key. *)
Definition is_system_row (d : string) (row : Row) : Prop :=
  MachineView.truthy (software row) = false ∧ driver row = d.

Definition is_software_row (d k : string) (row : Row) : Prop :=
  MachineView.truthy (software row) = true
  ∧ driver row = d ∧ software_key row = k.

#[global] Instance is_system_row_dec d row : Decision (is_system_row d row).
Proof. unfold is_system_row. apply _. Defined.

#[global] Instance is_software_row_dec d k row :
  Decision (is_software_row d k row).
Proof. unfold is_software_row. apply _. Defined.

End TimerRow.

(** ** wrappers/software.py *)

Module SoftwareView.

Import TimerDb MachineView.

(** [SoftwareList.__init__]: grouping and type of a list. *)
Record SoftwareList : Type := {
  list_basename : string;
  grouping : string;
  type : option string;
}.

Definition list_init (basename : string) : SoftwareList :=
  let '(grouping, has_underscore, software_type) :=
    Py.partition "_" basename in
  {| list_basename := basename;
     grouping := grouping;
     type := if Py.truthy has_underscore then Some software_type
             else None |}.

(** What the play time properties read of a [Software]; [software_list]
    is its attribute [list]. *)
Record Software : Type := {
  software_list : SoftwareList;
  basename : string;
  settings : MAMESettings;
}.

(** [Software._timer_db_row] *)
Definition _timer_db_row (w : World) (self : Software)
  : result (option TimerDBRow) :=
  match timer_db_path (settings self) with
  | None => Ok None
  | Some path =>
      db ← try_load_timer_db w path;
      match (db : option TimerDB) with
      | None => Ok None
      | Some db =>
          Ok (TimerDb.software db
                !! (list_basename (software_list self), basename self))
      end
  end.

(** [Software.total_time_played] *)
Definition total_time_played (w : World) (self : Software)
  : result timedelta :=
  time_played ← _timer_db_row w self;
  match (time_played : option TimerDBRow) with
  | Some time_played => Ok (total_time time_played)
  | None => Ok timedelta_zero
  end.

(** [Software.play_count] *)
Definition play_count (w : World) (self : Software) : result Z :=
  time_played ← _timer_db_row w self;
  match (time_played : option TimerDBRow) with
  | Some time_played => Ok (TimerDb.play_count time_played)
  | None => Ok 0%Z
  end.

(** [Software.total_time_emulated] *)
Definition total_time_emulated (w : World) (self : Software)
  : result timedelta :=
  time_played ← _timer_db_row w self;
  match (time_played : option TimerDBRow) with
  | Some time_played => Ok (emulated_time time_played)
  | None => Ok timedelta_zero
  end.

(** A store with a row for a system and one for a cartridge played on it. *)
Definition sample_rows : list TimerRow.Row :=
  [ {| TimerRow.driver := "nes"; TimerRow.softlist := None;
       TimerRow.software := None; TimerRow.data := Samples.pacman_row |};
    {| TimerRow.driver := "nes"; TimerRow.softlist := Some "nes";
       TimerRow.software := Some "smb";
       TimerRow.data := Samples.pacman_row |} ].

Definition sample_world : World :=
  {| xml_file := λ _, [];
     listxml := λ _, None;
     cat_folder := λ _, {| Cats.cats := ∅ |};
     timer_db := λ _, Some (TimerRow.load_timer_db sample_rows) |}.

Definition smb : Software :=
  {| software_list := list_init "nes"; basename := "smb";
     settings := Samples.settings_xml |}.

End SoftwareView.

(** ** utils.py: [multidict], and the info elements of a software *)

Module Infos.

(** [dict.get(k)] on a dict kept as the list of its items. *)
Fixpoint dict_get {V} (d : list (string * V)) (k : string) : option V :=
  match d with
  | [] => None
  | (k', v) :: d' => if String.eqb k' k then Some v else dict_get d' k
  end.

(** [d[k].append(v)] on a [defaultdict(list)]. *)
Fixpoint append_to {V} (k : string) (v : V) (d : list (string * list V))
  : list (string * list V) :=
  match d with
  | [] => [(k, [v])]
  | (k', vs) :: d' =>
      if String.eqb k' k then (k', vs ++ [v])%list :: d'
      else (k', vs) :: append_to k v d'
  end.

(** [multidict] *)
Definition multidict {V} (tuples : list (string * V))
  : list (string * list V) :=
  foldl (λ d kv, append_to kv.1 kv.2 d) [] tuples.

(** elements/software_element.py: [InfoElement], also used for the shared
    features. *)
Record InfoElement : Type := {
  name : string;
  value : option string;
}.

(** [Software.info_as_dict] and [Software.shared_features_as_dict], on the
    info elements or on the shared features of the software. *)
Definition info_as_dict (infos : list InfoElement)
  : list (string * list (option string)) :=
  multidict ((λ info, (name info, value info)) <$> infos).

(** [Software.get_info] and [Software.get_shared_feature] *)
Fixpoint get_info (infos : list InfoElement) (n : string) : option string :=
  match infos with
  | [] => None
  | info :: rest =>
      if String.eqb (name info) n then value info else get_info rest n
  end.

(** The values [tuples] give for [k], in their order. *)
Definition values_of {V} (k : string) (tuples : list (string * V)) : list V :=
  (filter (λ kv, kv.1 = k) tuples).*2.

End Infos.

(** ** user_data/favourites.py *)

Module Favourites.

(** [l[skip::step]] for a positive [step]: [skip] counts the elements to
    pass over before the next one is taken. *)
Fixpoint slice_from {A} (skip step : nat) (l : list A) : list A :=
  match l with
  | [] => []
  | x :: l' =>
      match skip with
      | 0 => x :: slice_from (step - 1) step l'
      | S skip' => slice_from skip' step l'
      end
  end.

(** [get_favourites] and [get_favourites_async], on the text of
    [favorites.ini]. *)
Definition get_favourites (text : string) : gset string :=
  list_to_set (slice_from 3 16 (Py.splitlines text)).

End Favourites.

(** ** software_finder: finding the software a file belongs to *)

Module Finder.

(** A Python [bytes] value. *)
Definition bytes : Type := list Byte.byte.

#[global] Instance byte_eq_dec : EqDecision Byte.byte := Byte.byte_eq_dec.

(** elements/software_element.py: [LoadFlag] *)
Inductive LoadFlag : Type :=
  | Load16Byte | Load16Word | Load16WordSwap | Load32Byte | Load32Word
  | Load32WordSwap | Load32DWord | Load64Word | Load64WordSwap | Reload
  | Fill | Continue | ReloadPlain | Ignore.

(** elements/common_elements.py: [DumpStatus] *)
Inductive DumpStatus : Type := Good | Bad | NoDump.

#[global] Instance DumpStatus_eq_dec : EqDecision DumpStatus.
Proof. solve_decision. Defined.

(** The elements of a part, each with the attributes the finders read. *)
Module Rom.
Record ROMElement : Type := {
  size : option Z;
  crc : option Z;
  sha1 : option bytes;
  load_flag : option LoadFlag;
}.
End Rom.

Module DataArea.
Record DataAreaElement : Type := {
  name : string;
  roms : list Rom.ROMElement;
}.
End DataArea.

Module Disk.
Record DiskElement : Type := {
  sha1 : option bytes;
  status : DumpStatus;
}.
End Disk.

Module DiskArea.
Record DiskAreaElement : Type := { disks : list Disk.DiskElement }.
End DiskArea.

Module Part.
Record PartElement : Type := {
  name : string;
  data_areas : list DataArea.DataAreaElement;
  disk_areas : list DiskArea.DiskAreaElement;
}.
End Part.

(** lazy_loaded_hashes.py: the cached properties of [LazyLoadedHashes]. *)
Module Hashes.
Record LazyLoadedHashes : Type := {
  size : Z;
  crc32 : Z;
  sha1 : bytes;
  suffix : option string;
}.
End Hashes.

(** The software and the software lists, with what the finders read. *)
Record Software : Type := {
  basename : string;
  parent_basename : option string;
  parts : list Part.PartElement;
}.

Record SoftwareList : Type := {
  list_basename : string;
  (** the values of [element.software], in the order of the dict *)
  software_of : list Software;
}.

(** finder.py: [SoftwareMatchResult] *)
Record SoftwareMatchResult : Type := {
  software_list : SoftwareList;
  software : Software;
  part : Part.PartElement;
}.

(** [should_ignore_rom] *)
Definition should_ignore_rom (rom : Rom.ROMElement) : bool :=
  match Rom.load_flag rom with
  | Some Ignore | Some Continue => true
  | _ => false
  end.

(** [rom_matches] *)
Definition rom_matches (rom : Rom.ROMElement)
    (hashes : Hashes.LazyLoadedHashes) (use_sha1 : bool) : bool :=
  match Rom.size rom with
  | None => false
  | Some size =>
      if negb (size =? Hashes.size hashes)%Z then false
      else if use_sha1 then
        match Rom.sha1 rom with
        | None => false
        | Some sha1 => bool_decide (sha1 = Hashes.sha1 hashes)
        end
      else
        match Rom.crc rom with
        | None => false
        | Some crc => (crc =? Hashes.crc32 hashes)%Z
        end
  end.

(** [should_ignore_data_area] *)
Definition should_ignore_data_area (data_area : DataArea.DataAreaElement)
  : bool :=
  String.eqb (DataArea.name data_area) "nvram"
  || forallb should_ignore_rom (DataArea.roms data_area).

(** [data_area_matches] *)
Definition data_area_matches (data_area : DataArea.DataAreaElement)
    (hashes : Hashes.LazyLoadedHashes) (use_sha1 : bool) : bool :=
  match List.filter (λ rom, negb (should_ignore_rom rom))
          (DataArea.roms data_area) with
  | [rom] => rom_matches rom hashes use_sha1
  | _ => false
  end.

(** [disk_area_matches] *)
Definition disk_area_matches (disk_area : DiskArea.DiskAreaElement)
    (hashes : Hashes.LazyLoadedHashes) : bool :=
  match List.filter (λ disk, negb (bool_decide (Disk.status disk = NoDump)))
          (DiskArea.disks disk_area) with
  | [disk] => bool_decide (Disk.sha1 disk = Some (Hashes.sha1 hashes))
  | _ => false
  end.

(** The data areas both finders take into account. *)
Definition kept_data_areas (part : Part.PartElement)
  : list DataArea.DataAreaElement :=
  List.filter (λ data_area, negb (should_ignore_data_area data_area))
    (Part.data_areas part).

(** [CRC32SoftwareFinder.part_matches] *)
Definition crc32_part_matches (hashes : Hashes.LazyLoadedHashes)
    (part : Part.PartElement) : bool :=
  match Part.disk_areas part with
  | _ :: _ => false
  | [] =>
      match kept_data_areas part with
      | [data_area] => data_area_matches data_area hashes false
      | _ => false
      end
  end.

(** [SHA1SoftwareFinder.part_matches] *)
Definition sha1_part_matches (hashes : Hashes.LazyLoadedHashes)
    (part : Part.PartElement) : bool :=
  let data_areas := kept_data_areas part in
  let disk_areas :=
    List.filter
      (λ disk_area,
         match DiskArea.disks disk_area with [] => false | _ => true end)
      (Part.disk_areas part) in
  match data_areas, disk_areas with
  | [data_area], [] => data_area_matches data_area hashes true
  | [], [disk_area] =>
      if bool_decide (Hashes.suffix hashes = Some "chd")
      then disk_area_matches disk_area hashes
      else false
  | _, _ => false
  end.

(** [SoftwareFinder.find], for the finder whose [part_matches] is given. *)
Definition find (part_matches : Part.PartElement → bool)
    (software_lists : list SoftwareList) : list SoftwareMatchResult :=
  l ← software_lists;
  s ← software_of l;
  p ← parts s;
  if part_matches p
  then [ {| software_list := l; software := s; part := p |} ]
  else [].

(** [SoftwareFinder.find_first] *)
Definition find_first (part_matches : Part.PartElement → bool)
    (software_lists : list SoftwareList) : option SoftwareMatchResult :=
  head (find part_matches software_lists).

(** [SoftwareFinder.find_all] *)
Definition find_all (part_matches : Part.PartElement → bool)
    (software_lists : list SoftwareList) : list SoftwareMatchResult :=
  find part_matches software_lists.

(** [SoftwareFinder.narrow_down_results] *)
Definition narrow_down_results (part_matches : Part.PartElement → bool)
    (results : list SoftwareMatchResult) : list SoftwareMatchResult :=
  List.filter (λ result, part_matches (part result)) results.

(** [m.software.parent_basename or m.software.basename] *)
Definition family_name (m : SoftwareMatchResult) : string :=
  match parent_basename (software m) with
  | Some parent => if Py.truthy parent then parent else basename (software m)
  | None => basename (software m)
  end.

(** [next((m for m in matches if not m.software.parent_basename), d)] *)
Fixpoint first_parent (matches : list SoftwareMatchResult)
    (d : SoftwareMatchResult) : SoftwareMatchResult :=
  match matches with
  | [] => d
  | m :: rest =>
      if MachineView.truthy (parent_basename (software m))
      then first_parent rest d
      else m
  end.

(** [_combine_matches]. Of no match at all, every [all] holds without
    reading [matches[0]]; the default of [next] does read it. *)
Definition _combine_matches (matches : list SoftwareMatchResult)
  : result (list SoftwareMatchResult) :=
  if Nat.eqb (length matches) 1 then Ok matches
  else
    match matches with
    | [] => _ ← Py.index matches 0; Ok matches
    | first :: rest =>
        if negb (forallb
                   (λ m, String.eqb (list_basename (software_list m))
                           (list_basename (software_list first))) rest)
        then Ok matches
        else if negb (forallb
                        (λ m, String.eqb (Part.name (part m))
                                (Part.name (part first))) rest)
        then Ok matches
        else if forallb (λ m, String.eqb (family_name m) (family_name first))
                  rest
        then Ok [first_parent matches first]
        else Ok matches
    end.

(** [find_software_for_hashes] *)
Definition find_software_for_hashes (software_lists : list SoftwareList)
    (hashes : Hashes.LazyLoadedHashes) : result (list SoftwareMatchResult) :=
  match software_lists with
  | [] => Ok []
  | _ =>
      let matches := find_all (crc32_part_matches hashes) software_lists in
      match matches with
      | [] => Ok []
      | _ =>
          matches ← _combine_matches matches;
          if Nat.eqb (length (matches : list SoftwareMatchResult)) 1
          then Ok matches
          else
            _combine_matches
              (narrow_down_results (sha1_part_matches hashes) matches)
      end
  end.

(** What [_combine_matches] makes of matches: all of them, or the one that
    stands for a family of a parent and its clones. *)
Definition one_of_a_family (matches : list SoftwareMatchResult)
    (m : SoftwareMatchResult) : Prop :=
  m ∈ matches
  ∧ (2 ≤ length matches)%nat
  ∧ Forall (λ m', list_basename (software_list m')
                  = list_basename (software_list m)
                  ∧ Part.name (part m') = Part.name (part m)
                  ∧ family_name m' = family_name m) matches
  ∧ (MachineView.truthy (parent_basename (software m)) = true →
     Forall (λ m', MachineView.truthy (parent_basename (software m')) = true)
       matches).

(** Two lists that each hold a cartridge of the same size and checksum,
    neither with a SHA-1, and the hashes of a file that fits both. *)
Definition sample_rom : Rom.ROMElement :=
  {| Rom.size := Some 16%Z; Rom.crc := Some 51966%Z; Rom.sha1 := None;
     Rom.load_flag := None |}.

Definition sample_part : Part.PartElement :=
  {| Part.name := "cart";
     Part.data_areas :=
       [ {| DataArea.name := "rom"; DataArea.roms := [sample_rom] |} ];
     Part.disk_areas := [] |}.

Definition sample_software (basename : string) : Software :=
  {| basename := basename; parent_basename := None;
     parts := [sample_part] |}.

Definition nes_list : SoftwareList :=
  {| list_basename := "nes"; software_of := [sample_software "smb"] |}.

Definition famicom_list : SoftwareList :=
  {| list_basename := "famicom"; software_of := [sample_software "smbj"] |}.

Definition sample_lists : list SoftwareList := [nes_list; famicom_list].

Definition sample_match : SoftwareMatchResult :=
  {| software_list := nes_list; software := sample_software "smb";
     part := sample_part |}.

Definition sample_hashes : Hashes.LazyLoadedHashes :=
  {| Hashes.size := 16; Hashes.crc32 := 51966; Hashes.sha1 := [];
     Hashes.suffix := Some "nes" |}.

(** A clone of the sample software, found in the same list. *)
Definition clone_match : SoftwareMatchResult :=
  {| software_list := nes_list;
     software := {| basename := "smbh"; parent_basename := Some "smb";
                    parts := [sample_part] |};
     part := sample_part |}.

End Finder.

(** ** support_files/history.py: the delimiters of a text *)

Module HistoryCut.

Import History HistoryEntries.

(** An occurrence of the delimiter pattern in [s]: behind [before] stands
    the marker of a header, which is not empty and on one line. *)
Definition occurs_at (s before header after : string) : Prop :=
  s = before +:+ marker header +:+ after ∧ plain_header header.

(** [groups] cuts [text] at its delimiters the way a scan from the left
    meets them: at the leftmost occurrence of the pattern, then at the
    leftmost occurrence in what follows that one, and so on; the last body
    holds no occurrence. An occurrence that starts inside another one, on
    the newline that ends it, is not met. *)
Inductive cut : string → list string → Prop :=
  | cut_last (b : string) :
      (∀ before header after, ¬ occurs_at b before header after) →
      cut b [b]
  | cut_step (b h rest : string) (groups : list string) :
      plain_header h →
      (∀ before header after,
         occurs_at (b +:+ marker h +:+ rest) before header after →
         (String.length b ≤ String.length before)%nat) →
      cut rest groups →
      cut (b +:+ marker h +:+ rest) (b :: h :: groups).

(** A text in which one delimiter starts on the newline that ends
    another. *)
Definition overlapping_delimiters : string :=
  "x" +:+ marker "A" +:+ "- B -" +:+ Py.nl +:+ "y".

End HistoryCut.

(** ** support_files/mameinfo.py: the key of a recommended games section *)

Module MAMEInfoKeys.

(** The key under which [finish] files the lines of a recommended games
    section. *)
Definition recommended_key (section : string) : string :=
  if Py.contains "(" section
  then Py.init (Py.removeprefix "Recommended Games (" section)
  else "Games".

(** [finish] files the lines of the section in [recommended_games] under
    [key]. *)
Definition stores_under (key section : string) : bool :=
  Py.startswith section "Recommended Games"
  && String.eqb (recommended_key section) key.

(** The line opens a section that [finish] files under [key]. *)
Definition opens_recommended (key line : string) : bool :=
  stores_under key (Py.init line).

(** A mameinfo entry whose level count is followed by a note and by two
    sections, and one that recommends games of two platforms. *)
Definition levels_and_sections : string :=
  "LEVELS: 5" +:+ Py.nl +:+ "- three loops" +:+ Py.nl +:+ "WIP:" +:+ Py.nl
  +:+ "- Fixed sound" +:+ Py.nl +:+ "BIOS:" +:+ Py.nl +:+ "* foo".

Definition two_platforms : string :=
  "Recommended Games (Arcade):" +:+ Py.nl +:+ "* Pac-Man" +:+ Py.nl
  +:+ "Recommended Games (Console):" +:+ Py.nl +:+ "* Tetris" +:+ Py.nl
  +:+ "WIP:" +:+ Py.nl +:+ "- x" +:+ Py.nl +:+ "BIOS:".

End MAMEInfoKeys.

(** * Properties *)

(** ** Python primitives *)

Section PyFacts.

Import Py.

Lemma prefix_empty (s : string) : String.prefix EmptyString s = true.
Proof. by destruct s. Qed.

Lemma app_cons (c : ascii) (s t : string) :
  String c s +:+ t = String c (s +:+ t).
Proof. reflexivity. Qed.

Lemma app_empty_l (t : string) : EmptyString +:+ t = t.
Proof. reflexivity. Qed.

Lemma startswith_drop (p s : string) :
  startswith s p = true → s = p +:+ drop (String.length p) s.
Proof.
  unfold startswith. revert s.
  induction p as [|a p IH]; intros s H.
  - by destruct s.
  - destruct s as [|b s]; simpl in H; [done|].
    destruct (ascii_dec a b) as [->|]; [|done].
    rewrite app_cons. simpl. f_equal. by apply IH.
Qed.

Lemma find_unfold (sep s : string) :
  find sep s =
  if startswith s sep then Some (EmptyString, drop (String.length sep) s)
  else
    match s with
    | EmptyString => None
    | String c s' =>
        match find sep s' with
        | Some (a, r) => Some (String c a, r)
        | None => None
        end
    end.
Proof. by destruct s. Qed.

Lemma find_spec (sep s a r : string) :
  find sep s = Some (a, r) → s = a +:+ sep +:+ r.
Proof.
  revert a r. induction s as [|c s IH]; intros a r; rewrite find_unfold.
  - destruct (startswith EmptyString sep) eqn:E; [|done].
    intros [= <- <-]. by apply startswith_drop in E.
  - destruct (startswith (String c s) sep) eqn:E.
    + intros [= <- <-]. by apply startswith_drop in E.
    + destruct (find sep s) as [[a' r']|]; [|done].
      intros [= <- <-]. rewrite app_cons. f_equal. by apply IH.
Qed.

Lemma length_app_string (a b : string) :
  String.length (a +:+ b) = String.length a + String.length b.
Proof.
  induction a as [|x a IH]; [done|]. rewrite app_cons. simpl. by rewrite IH.
Qed.

Lemma find_shorter (sep s a r : string) :
  sep ≠ EmptyString → find sep s = Some (a, r) →
  String.length r < String.length s.
Proof.
  intros Hsep ->%find_spec. rewrite !length_app_string.
  destruct sep; [done|]. simpl. lia.
Qed.

Lemma split_fuel_enough (n m : nat) (sep s : string) :
  sep ≠ EmptyString →
  (String.length s ≤ n)%nat → (String.length s ≤ m)%nat →
  split_fuel n sep s = split_fuel m sep s.
Proof.
  intros Hsep. revert m s. induction n as [|n IH]; intros m s Hn Hm.
  - destruct m; simpl; destruct (find sep s) as [[a r]|] eqn:E; try done.
    apply find_shorter in E; [lia|done].
  - destruct m; simpl; destruct (find sep s) as [[a r]|] eqn:E; try done.
    + apply find_shorter in E; [lia|done].
    + f_equal. apply find_shorter in E; [|done]. apply IH; lia.
Qed.

(** [split] never runs out of rounds: it obeys the equation of a split
    without a bound. *)
Lemma split_unfold (sep s : string) :
  sep ≠ EmptyString →
  split sep s =
  match find sep s with
  | None => [s]
  | Some (a, r) => a :: split sep r
  end.
Proof.
  intros Hsep. unfold split.
  destruct (String.length s) as [|n] eqn:Hlen; simpl;
    destruct (find sep s) as [[a r]|] eqn:E; try done.
  - apply find_shorter in E; [lia|done].
  - f_equal. apply find_shorter in E; [|done].
    apply split_fuel_enough; [done|lia..].
Qed.

Lemma split_fuel_nonempty (n : nat) (sep s : string) :
  split_fuel n sep s ≠ [].
Proof. destruct n; simpl; by destruct (find sep s) as [[??]|]. Qed.

Lemma split_nonempty (sep s : string) : split sep s ≠ [].
Proof. apply split_fuel_nonempty. Qed.

Lemma index_head {A} (l : list A) : l ≠ [] → returns (index l 0).
Proof. destruct l; [done|]. intros _. by eexists. Qed.

End PyFacts.

(** ** The catlist category parser *)

Section CatlistFacts.

Import Catlist.

Lemma components_nonempty (cat : string) : _components (init cat) ≠ [].
Proof.
  unfold init. destruct (Py.partition " * " cat) as [[c h] e]. simpl.
  apply split_nonempty.
Qed.

(** Reading the first component never fails. *)
Lemma first_component_returns (cat : string) :
  returns (Py.index (_components (init cat)) 0).
Proof. apply index_head, components_nonempty. Qed.

(** [machine_type] fails on exactly one shape of input: a category whose only
    component is [Electromechanical]. *)
Lemma machine_type_raises_iff (cat : string) :
  raises (machine_type (init cat))
  ↔ _components (init cat) = ["Electromechanical"].
Proof.
  pose proof (components_nonempty cat) as Hne.
  unfold machine_type, _is_plug_and_play.
  destruct (_components (init cat)) as [|c0 cs] eqn:Hc; [done|].
  split.
  - intros [e He]. revert He.
    destruct (String.eqb (category (init cat)) _) eqn:Hb.
    { apply String.eqb_eq in Hb.
      assert (Hcs : _components (init cat) = ["System"; "BIOS"]).
      { revert Hb. unfold init.
        destruct (Py.partition " * " cat) as [[c h] e']. simpl.
        by intros ->. }
      rewrite Hc in Hcs. by injection Hcs as -> ->. }
    simpl. destruct (genre_types c0); [done|].
    destruct (String.eqb c0 "Electromechanical") eqn:Hem.
    + apply String.eqb_eq in Hem as ->.
      destruct cs as [|c1 cs]; [done|]. simpl.
      by destruct (String.eqb c1 "Pinball").
    + destruct (is_arcade (init cat)); [done|]. simpl.
      destruct (_ && _); [done|].
      by destruct (String.eqb _ "Handheld / Electronic Game").
  - intros [= -> ->].
    destruct (String.eqb (category (init cat)) _) eqn:Hb.
    { apply String.eqb_eq in Hb. exfalso. revert Hc Hb. unfold init.
      destruct (Py.partition " * " cat) as [[c h] e']. simpl.
      by intros Hc ->. }
    by eexists.
Qed.

(** C3, at the inputs that break it: the parser is not total. The category
    ["Electromechanical"] has a single component, and [machine_type] reads
    the second one without a length check; [genre] does the same for
    ["Redemption Game"]. A string that matches no pattern does fall back to
    [Other]. *)
Theorem catlist_parser_raises_on_short_category :
  machine_type (init "Electromechanical") = Raise IndexError
  ∧ genre (init "Electromechanical") = Raise IndexError
  ∧ subgenre (init "Electromechanical") = Raise IndexError
  ∧ machine_type (init "Redemption Game") = Ok Redemption
  ∧ genre (init "Redemption Game") = Raise IndexError
  ∧ machine_type (init "Unknown Category Type") = Ok Other.
Proof. repeat split; by vm_compute. Qed.

(** C8 as stated fails: the genre is not ["Pinball"]. *)
Lemma pinball_genre_is_not_pinball :
  ¬ (machine_type (init "Electromechanical / Pinball") = Ok Pinball
     ∧ genre (init "Electromechanical / Pinball") = Ok (Some "Pinball")
     ∧ subgenre (init "Electromechanical / Pinball") = Ok None).
Proof. intros (_ & H & _). by vm_compute in H. Qed.

(** C8, amended: ["Electromechanical / Pinball"] is a Pinball machine with
    neither genre nor subgenre, because only the Mechanical, Redemption and
    MedalGame types take their genre from the second component. *)
Theorem pinball_category_has_no_genre :
  machine_type (init "Electromechanical / Pinball") = Ok Pinball
  ∧ genre (init "Electromechanical / Pinball") = Ok None
  ∧ subgenre (init "Electromechanical / Pinball") = Ok None.
Proof. repeat split; by vm_compute. Qed.

End CatlistFacts.

(** ** The MAMEInfo entry parser *)

Section MAMEInfoFacts.

Import MAMEInfo.

Lemma step_plain_line (st : state) (line : string) :
  is_header line = false → same_buckets st (step st line).
Proof.
  unfold is_header, step. intros H.
  repeat (apply orb_false_elim in H as [H ?]).
  rewrite H. simpl.
  repeat match goal with Hx : _ = false |- _ => rewrite Hx; clear Hx end.
  by destruct (_ || _).
Qed.

(** Lines that follow the last header never reach a bucket: the loop ends
    without a call of [finish]. *)
Lemma scan_ignores_lines_after_last_header (lines rest : list string) :
  Forall (λ line, is_header line = false) rest →
  same_buckets (scan lines) (scan (lines ++ rest)).
Proof.
  unfold scan. rewrite foldl_app. generalize (foldl step initial lines).
  intros st H. revert st.
  induction H as [|line rest Hline _ IH]; intros st; simpl; [done|].
  destruct (step_plain_line st line Hline) as (H1 & H2 & H3).
  destruct (IH (step st line)) as (H1' & H2' & H3').
  repeat split; congruence.
Qed.

(** C4, at an input that breaks it: the summary and the [WIP] section are
    stored because a header follows each of them, but the [BIOS] list that is
    open at the end of the input is not, and an entry without any header
    stores nothing at all. *)
Theorem mameinfo_last_section_is_not_flushed :
  entry_sections (init Samples.mameinfo_text) !! "summary"
    = Some "0.37b5 [Someone]"
  ∧ entry_sections (init Samples.mameinfo_text) !! "WIP" = Some "Fixed sound"
  ∧ entry_list_sections (init Samples.mameinfo_text) !! "BIOS" = None
  ∧ entry_list_sections (init Samples.mameinfo_text) = ∅
  ∧ entry_sections (init "Only a summary") = ∅.
Proof. repeat split; by vm_compute. Qed.

End MAMEInfoFacts.

(** ** The .dat parser *)

Section DatFacts.

Import Dat.

Lemma run_app (st : state) (l1 l2 : list string) :
  run st (l1 ++ l2) = st' ← run st l1; run st' l2.
Proof.
  revert st. induction l1 as [|raw l1 IH]; intros st; simpl; [done|].
  destruct (step st raw); simpl; [apply IH|done].
Qed.

Lemma run_readable (lines : list string) (st : state) :
  headers_readable lines → returns (run st lines).
Proof.
  intros H. revert st. induction H as [|raw lines Hraw _ IH]; intros st.
  - by eexists.
  - simpl. unfold step, header_name in *.
    destruct (Py.startswith (Py.strip raw) "$info").
    + destruct (Hraw _ eq_refl) as [n ->]. simpl. apply IH.
    + destruct (current_name st) as [n|]; [|apply IH].
      destruct (Py.truthy n); [|apply IH].
      destruct (String.eqb _ _); apply IH.
Qed.

Lemma run_content (body : list string) (st : state) (name : string) :
  current_name st = Some name → Py.truthy name = true →
  Forall is_content body →
  run st body =
  Ok {| d := d st; current_name := Some name;
        current_info := current_info st ++ (Py.strip <$> body) |}.
Proof.
  intros Hname Htruthy H. revert st Hname.
  induction H as [|raw body [Hinfo Hend] _ IH]; intros st Hname.
  - simpl. rewrite app_nil_r. by destruct st; simpl in *; subst.
  - simpl. unfold step. rewrite Hinfo, Hname, Htruthy.
    apply String.eqb_neq in Hend. rewrite Hend. simpl.
    rewrite IH by done. simpl. by rewrite <- app_assoc.
Qed.

Lemma run_keeps_entry (name v : string) (lines : list string) (st : state) :
  headers_readable lines → never_declares name lines →
  d st !! name = Some v → current_name st ≠ Some name →
  ∃ st', run st lines = Ok st' ∧ d st' !! name = Some v.
Proof.
  intros Hr Hn. revert st.
  induction Hr as [|raw lines Hraw _ IH]; intros st Hd Hcur;
    [by eexists|].
  apply Forall_cons in Hn as [Hraw' Hn]. simpl.
  unfold step, header_name in *.
  destruct (Py.startswith (Py.strip raw) "$info").
  - destruct (Hraw _ eq_refl) as [n Hn']. rewrite Hn' in *. simpl.
    apply IH; simpl; [done..|]. congruence.
  - destruct (current_name st) as [n|] eqn:Hc; simpl;
      [|apply IH; [done..|by rewrite Hc]].
    destruct (Py.truthy n); simpl; [|apply IH; [done..|by rewrite Hc]].
    destruct (String.eqb _ _); simpl.
    + apply IH; simpl; [done| |done].
      rewrite lookup_insert_ne; [done|congruence].
    + apply IH; simpl; done.
Qed.

(** C10: a block [$info=<name>] ... [$end] of a .dat file stores, under
    [name], its lines between the header and [$end] without the first of
    them, each stripped and all joined by newlines; [get_dat_info] returns
    that text unless a later block declares the same name. *)
Theorem dat_block_content_skips_first_line
    (before body after : list string) (header end_ name : string) :
  Py.strip header = "$info=" +:+ name →
  name ≠ EmptyString →
  Py.strip end_ = "$end" →
  Forall is_content body →
  headers_readable before → headers_readable after →
  never_declares name after →
  get_dat_info (before ++ header :: body ++ end_ :: after) name
  = Ok (Some (Py.join Py.nl (tail (Py.strip <$> body)))).
Proof.
  intros Hh Hne He Hbody Hbefore Hafter Hnever.
  unfold get_dat_info, _parse_dat_raw.
  rewrite run_app.
  destruct (run_readable before initial Hbefore) as [st0 ->]. simpl.
  assert (Hfind : Py.split1 "=" ("$info=" +:+ name) = ["$info"; name]).
  { unfold Py.split1. rewrite !app_cons, app_empty_l.
    simpl. unfold Py.startswith. by rewrite prefix_empty. }
  unfold step at 1. rewrite Hh.
  replace (Py.startswith ("$info=" +:+ name) "$info") with true
    by (by rewrite !app_cons, app_empty_l).
  rewrite Hfind. simpl.
  rewrite run_app, (run_content body _ name); simpl; [|done| |done].
  2: { by destruct name. }
  unfold step at 1. rewrite He. simpl.
  replace (Py.truthy name) with true by (by destruct name). simpl.
  edestruct (run_keeps_entry name) as (st' & -> & Hst'); [done..| | |].
  - simpl. apply lookup_insert_eq.
  - done.
  - simpl. by rewrite Hst'.
Qed.

Lemma dat_block_content_skips_first_line_witness :
  get_dat_info Samples.dat_lines "pacman"
  = Ok (Some ("line 1" +:+ Py.nl +:+ "line 2")).
Proof.
  apply (dat_block_content_skips_first_line
           ["# header"] ["$mame"; " line 1  "; "line 2"]
           ["junk"; "$info=dkong"; "$mame"; "other"; "$end"]
           "$info=pacman" "$end" "pacman").
  - reflexivity.
  - discriminate.
  - reflexivity.
  - repeat constructor; discriminate.
  - repeat constructor; vm_compute; intros r [=].
  - repeat constructor; vm_compute; intros r [=]; subst; by eexists.
  - repeat constructor; vm_compute; intros [=].
Defined.

End DatFacts.

(** ** The category folder queries *)

Section CatsFacts.

Import Cats.

Lemma get_cats_matching (self : CategoryFolder) (cat_name basename : string) :
  get_cats self cat_name basename
  = list_to_set (matching_sections self cat_name basename).
Proof.
  unfold get_cats, matching_sections.
  by destruct (cats self !! cat_name) as [[|kv cat]|].
Qed.

(** Without a match, or for an unknown category, both queries are empty. *)
Lemma get_cat_no_match set_iter (self : CategoryFolder)
    (cat_name basename : string) :
  matching_sections self cat_name basename = [] →
  get_cats self cat_name basename = ∅
  ∧ get_cat set_iter self cat_name basename = (None, false).
Proof.
  intros H. unfold get_cat. rewrite get_cats_matching, H. simpl.
  by rewrite bool_decide_eq_true_2.
Qed.

Lemma get_cat_unknown_category set_iter (self : CategoryFolder)
    (cat_name basename : string) :
  cats self !! cat_name = None →
  get_cats self cat_name basename = ∅
  ∧ get_cat set_iter self cat_name basename = (None, false).
Proof.
  intros H. apply get_cat_no_match. unfold matching_sections.
  by rewrite H.
Qed.

(** Whatever the iteration order, the single-valued query answers with one
    of the matching sections. *)
Lemma get_cat_is_a_match set_iter (self : CategoryFolder)
    (cat_name basename section : string) (warned : bool) :
  iteration_order set_iter →
  get_cat set_iter self cat_name basename = (Some section, warned) →
  section ∈ matching_sections self cat_name basename.
Proof.
  intros Hiter. unfold get_cat. rewrite get_cats_matching.
  case_bool_decide; [done|]. intros [= Hhead _].
  apply head_Some_elem_of in Hhead. rewrite (Hiter _) in Hhead.
  by apply elem_of_elements, elem_of_list_to_set in Hhead.
Qed.

(** With a single match the answer is that match, without a warning. *)
Lemma get_cat_single_match set_iter (self : CategoryFolder)
    (cat_name basename section : string) :
  iteration_order set_iter →
  matching_sections self cat_name basename = [section] →
  get_cat set_iter self cat_name basename = (Some section, false).
Proof.
  intros Hiter H. unfold get_cat. rewrite get_cats_matching, H.
  change (list_to_set [section]) with ({[ section ]} ∪ (∅ : gset string)).
  rewrite union_empty_r_L, size_singleton.
  rewrite bool_decide_eq_false_2 by apply non_empty_singleton_L.
  specialize (Hiter {[ section ]}). rewrite elements_singleton in Hiter.
  by apply Permutation_singleton_r in Hiter as ->.
Qed.

(** C6, at an input that breaks it: [pacman] is listed under [Maze] and then
    under [Arcade]. The query takes the first element a set of the two
    section names yields, and both orders are iteration orders: under one
    the answer is [Maze], the first in file order, under the other it is
    [Arcade]. The warning is logged either way. *)
Theorem get_cat_answer_follows_set_order :
  matching_sections Samples.folder "catlist" "pacman" = ["Maze"; "Arcade"]
  ∧ (∃ set_iter, iteration_order set_iter
       ∧ get_cat set_iter Samples.folder "catlist" "pacman"
         = (Some "Maze", true))
  ∧ (∃ set_iter, iteration_order set_iter
       ∧ get_cat set_iter Samples.folder "catlist" "pacman"
         = (Some "Arcade", true)).
Proof.
  split; [by vm_compute|]. split.
  - exists elements. split; [by intros s|]. by vm_compute.
  - exists (λ s, reverse (elements s)). split; [|by vm_compute].
    intros s. apply reverse_Permutation.
Qed.

End CatsFacts.

(** ** The Machine composite view *)

Section MachineFacts.

Import TimerDb MachineView.

(** Induction along the parent link of a view. *)
Lemma Machine_parent_ind (P : Machine → Prop) :
  (∀ m, (∀ p, parent m = Some p → P p) → P m) → ∀ m, P m.
Proof.
  intros step. fix IH 1. intros [e s c [p|] b]; apply step; simpl.
  - intros p' [= <-]. apply IH.
  - intros p' [=].
Qed.

Lemma bios_basename_unfold (self : Machine) :
  bios_basename self =
  if truthy (Elements.bios_basename (element self))
     && bool_decide (Elements.bios_basename (element self)
                     = Elements.parent_basename (element self))
  then
    match parent self with
    | Some p => bios_basename p
    | None => Raise AssertionError
    end
  else Ok (Elements.bios_basename (element self)).
Proof. by destruct self. Qed.

Lemma linked_unfold (m : Machine) :
  linked m =
  match parent m with
  | Some p =>
      truthy (Elements.parent_basename (element m)) = true ∧ linked p
  | None => truthy (Elements.parent_basename (element m)) = false
  end.
Proof. by destruct m. Qed.

Lemma view_if_named_Some (get : string → result Machine)
    (basename : option string) (p : Machine) :
  view_if_named get basename = Ok (Some p) →
  truthy basename = true ∧ ∃ b, basename = Some b ∧ get b = Ok p.
Proof.
  unfold view_if_named, truthy. destruct basename as [b|]; [|done].
  destruct (Py.truthy b); [|done].
  destruct (get b) as [p'|] eqn:Hget; [|done]. intros [= <-]. eauto.
Qed.

Lemma view_if_named_None (get : string → result Machine)
    (basename : option string) :
  view_if_named get basename = Ok None → truthy basename = false.
Proof.
  unfold view_if_named, truthy. destruct basename as [b|]; [|done].
  destruct (Py.truthy b); [|done]. by destruct (get b).
Qed.

Lemma view_if_named_truthy (get : string → result Machine) (b : string) :
  Py.truthy b = true → view_if_named get (Some b) = Some <$> get b.
Proof. unfold view_if_named. by intros ->. Qed.

Lemma bind_Ok {A B} (a : A) (f : A → result B) : Ok a ≫= f = f a.
Proof. reflexivity. Qed.

Lemma get_machine_unfold (fuel : nat) (w : World) (s : MAMESettings)
    (b : string + Elements.MachineElement)
    (cf : option Cats.CategoryFolder) :
  get_machine (S fuel) w s b cf =
  let cf' := resolve_category_folder w s cf in
  let get basename := get_machine fuel w s (inl basename) cf' in
  element ← _get_machine_element w s b;
  parent ← view_if_named get (Elements.parent_basename element);
  bios ← view_if_named get (Elements.bios_basename element);
  Ok (mkMachine element s cf' parent bios).
Proof. reflexivity. Qed.

Lemma get_machine_async_unfold (fuel : nat) (w : World) (s : MAMESettings)
    (b : string + Elements.MachineElement)
    (cf : option Cats.CategoryFolder) :
  get_machine_async (S fuel) w s b cf =
  let cf' := resolve_category_folder w s cf in
  let get basename := get_machine_async fuel w s (inl basename) cf' in
  element ← _get_machine_element w s b;
  parent ← view_if_named get (Elements.parent_basename element);
  bios_basename ←
    match parent with
    | Some p => bios_basename p
    | None => Ok (Elements.bios_basename element)
    end;
  bios ← view_if_named get bios_basename;
  Ok (mkMachine element s cf' parent bios).
Proof. reflexivity. Qed.

Lemma view_if_named_mono (get get' : string → result Machine)
    (basename : option string) (r : option Machine) :
  (∀ b m, get b = Ok m → get' b = Ok m) →
  view_if_named get basename = Ok r → view_if_named get' basename = Ok r.
Proof.
  intros H. unfold view_if_named. destruct basename as [b|]; [|done].
  destruct (Py.truthy b); [|done].
  destruct (get b) as [m|] eqn:E; [|done]. intros [= <-].
  by rewrite (H _ _ E).
Qed.

(** A view built within [n] frames is built the same within more. *)
Lemma get_machine_more_fuel (n n' : nat) (w : World) (s : MAMESettings)
    (b : string + Elements.MachineElement)
    (cf : option Cats.CategoryFolder) (m : Machine) :
  get_machine n w s b cf = Ok m → (n ≤ n')%nat →
  get_machine n' w s b cf = Ok m.
Proof.
  revert n' b cf m. induction n as [|n IH]; intros n' b cf m; [done|].
  intros H Hle. destruct n' as [|n']; [lia|].
  rewrite get_machine_unfold in *. cbv zeta in *.
  destruct (_get_machine_element w s b) as [e|]; [|done].
  rewrite bind_Ok in *.
  destruct (view_if_named _ (Elements.parent_basename e))
    as [p|] eqn:Hp; [|done].
  erewrite (view_if_named_mono _ _ _ _ _ Hp).
  rewrite bind_Ok in *.
  destruct (view_if_named _ (Elements.bios_basename e))
    as [bi|] eqn:Hb; [|done].
  erewrite (view_if_named_mono _ _ _ _ _ Hb). done.
  Unshelve. all: intros b' m' Hb'; apply IH; [done|lia].
Qed.

Lemma get_machine_async_more_fuel (n n' : nat) (w : World) (s : MAMESettings)
    (b : string + Elements.MachineElement)
    (cf : option Cats.CategoryFolder) (m : Machine) :
  get_machine_async n w s b cf = Ok m → (n ≤ n')%nat →
  get_machine_async n' w s b cf = Ok m.
Proof.
  revert n' b cf m. induction n as [|n IH]; intros n' b cf m; [done|].
  intros H Hle. destruct n' as [|n']; [lia|].
  rewrite get_machine_async_unfold in *. cbv zeta in *.
  destruct (_get_machine_element w s b) as [e|]; [|done].
  rewrite bind_Ok in *.
  destruct (view_if_named _ (Elements.parent_basename e))
    as [p|] eqn:Hp; [|done].
  erewrite (view_if_named_mono _ _ _ _ _ Hp).
  rewrite bind_Ok in *.
  destruct (match p with Some _ => _ | None => _ end) as [bb|]; [|done].
  rewrite bind_Ok in *.
  destruct (view_if_named _ bb) as [bi|] eqn:Hb; [|done].
  erewrite (view_if_named_mono _ _ _ _ _ Hb). done.
  Unshelve. all: intros b' m' Hb'; apply IH; [done|lia].
Qed.

Lemma get_machine_linked (fuel : nat) (w : World) (s : MAMESettings)
    (b : string + Elements.MachineElement)
    (cf : option Cats.CategoryFolder)
    (m : Machine) :
  get_machine fuel w s b cf = Ok m → linked m.
Proof.
  revert b cf m. induction fuel as [|fuel IH]; intros b cf m; [done|].
  simpl. destruct (_get_machine_element w s b) as [e|]; [|done]. simpl.
  destruct (view_if_named _ (Elements.parent_basename e))
    as [[p|]|] eqn:Hp;
    [| |done]; simpl;
    (destruct (view_if_named _ (Elements.bios_basename e)); [|done]);
    intros [= <-]; simpl.
  - apply view_if_named_Some in Hp as (Ht & pb & _ & Hp). eauto.
  - by apply view_if_named_None in Hp.
Qed.

Lemma get_machine_async_linked (fuel : nat) (w : World) (s : MAMESettings)
    (b : string + Elements.MachineElement)
    (cf : option Cats.CategoryFolder)
    (m : Machine) :
  get_machine_async fuel w s b cf = Ok m → linked m.
Proof.
  revert b cf m. induction fuel as [|fuel IH]; intros b cf m; [done|].
  rewrite get_machine_async_unfold. cbv zeta.
  destruct (_get_machine_element w s b) as [e|]; [|done]. rewrite bind_Ok.
  destruct (view_if_named _ (Elements.parent_basename e))
    as [p|] eqn:Hp; [|done].
  rewrite bind_Ok.
  destruct (match p with Some _ => _ | None => _ end) as [bb|]; [|done].
  rewrite bind_Ok. destruct (view_if_named _ bb); [|done].
  intros [= <-]. rewrite linked_unfold. simpl. destruct p as [p|].
  - apply view_if_named_Some in Hp as (Ht & pb & _ & Hp). eauto.
  - by apply view_if_named_None in Hp.
Qed.

Lemma linked_bios_basename_returns (m : Machine) :
  linked m → returns (bios_basename m).
Proof.
  induction m as [m IH] using Machine_parent_ind.
  rewrite linked_unfold, bios_basename_unfold.
  destruct (parent m) as [p|].
  - intros [_ Hp]. destruct (_ && _); [by apply IH|by eexists].
  - intros Hf.
    destruct (truthy (Elements.bios_basename (element m))) eqn:Hb;
      [|by eexists].
    case_bool_decide as Heq; [|by eexists]. congruence.
Qed.

(** C2: when a clone declares its parent as its BIOS, the effective
    [bios_basename] of the view is the effective [bios_basename] of its
    parent view; when the declared BIOS differs from the declared parent, or
    no parent is declared, it is the declared BIOS. *)
Theorem bios_basename_follows_parent (self : Machine) :
  (∀ p, parent self = Some p →
        truthy (Elements.parent_basename (element self)) = true →
        Elements.bios_basename (element self)
        = Elements.parent_basename (element self) →
        bios_basename self = bios_basename p)
  ∧ (Elements.bios_basename (element self)
     ≠ Elements.parent_basename (element self)
     ∨ truthy (Elements.parent_basename (element self)) = false →
     bios_basename self = Ok (Elements.bios_basename (element self))).
Proof.
  rewrite bios_basename_unfold. split.
  - intros p -> Ht ->. rewrite Ht. simpl.
    by rewrite bool_decide_eq_true_2.
  - intros [Hne|Hf].
    + rewrite bool_decide_eq_false_2 by done. by rewrite andb_false_r.
    + case_bool_decide as Heq; [|by rewrite andb_false_r].
      rewrite Heq, Hf. done.
Qed.

Lemma bios_basename_follows_parent_witness :
  ∃ clone game,
    Samples.sample_view 3 "mslug2t" = Ok clone ∧ parent clone = Some game
    ∧ bios_basename clone = bios_basename game
    ∧ bios_basename clone = Ok (Some "neogeo")
    ∧ bios_basename game = Ok (Elements.bios_basename (element game)).
Proof.
  eexists _, _. split; [by vm_compute|]. split; [reflexivity|].
  split; [|split; [by vm_compute|]].
  - eapply (proj1 (bios_basename_follows_parent _)); reflexivity.
  - apply (proj2 (bios_basename_follows_parent _)). left. discriminate.
Defined.

(** C1, at an input that breaks it: for the clone [mslug2t], which names its
    parent [mslug2] as [romof], the blocking constructor resolves [bios] from
    the declared value and presents the parent as the BIOS, while the
    suspend-capable constructor resolves it from the parent view's
    [bios_basename] and presents [neogeo]. Both views agree that their
    [bios_basename] is [neogeo]. Three frames build the views, and more
    frames build the same ones. *)
Theorem get_machine_surfaces_disagree_on_bios (fuel : nat) :
  bios_name <$> Samples.sample_view (3 + fuel) "mslug2t"
  = Ok (Some "Metal Slug 2")
  ∧ bios_name <$> Samples.sample_view_async (3 + fuel) "mslug2t"
    = Ok (Some "Neo-Geo MV-6F")
  ∧ Samples.sample_view (3 + fuel) "mslug2t" ≫= bios_basename
    = Ok (Some "neogeo")
  ∧ Samples.sample_view_async (3 + fuel) "mslug2t" ≫= bios_basename
    = Ok (Some "neogeo")
  ∧ Samples.sample_view (3 + fuel) "mslug2t"
    ≠ Samples.sample_view_async (3 + fuel) "mslug2t".
Proof.
  unfold Samples.sample_view, Samples.sample_view_async.
  destruct (get_machine 3 Samples.world Samples.settings_xml
              (inl "mslug2t") None) as [m|] eqn:E;
    [|by vm_compute in E].
  destruct (get_machine_async 3 Samples.world Samples.settings_xml
              (inl "mslug2t") None) as [m'|] eqn:E';
    [|by vm_compute in E'].
  rewrite (get_machine_more_fuel _ (3 + fuel) _ _ _ _ _ E) by lia.
  rewrite (get_machine_async_more_fuel _ (3 + fuel) _ _ _ _ _ E') by lia.
  vm_compute in E, E'. injection E as <-. injection E' as <-.
  repeat split; by vm_compute.
Qed.

End MachineFacts.

(** ** Failures of the construction *)

Section ConstructionFailures.

Import MachineView.

(** C7 as stated fails: [orphan] is in the listing, its parent [ghost] is
    not, and the construction of the view of [orphan] raises [KeyError] of
    [ghost] instead of returning a view without parent. *)
Lemma missing_parent_is_not_degraded :
  _get_machine_element Samples.world Samples.settings_xml (inl "orphan")
    = Ok Samples.orphan
  ∧ absent Samples.world Samples.settings_xml "ghost"
  ∧ get_machine 3 Samples.world Samples.settings_xml (inl "orphan") None
    = Raise (KeyError "ghost")
  ∧ ¬ ∃ m,
        get_machine 3 Samples.world Samples.settings_xml (inl "orphan") None
        = Ok m ∧ parent m = None.
Proof.
  repeat split; try by vm_compute.
  intros (m & H & _). by vm_compute in H.
Qed.

(** C7, amended: when the declared parent of a machine is absent from the
    entity source, the construction does not degrade the parent reference:
    it raises [KeyError] of the parent's basename, a basename other than
    the requested one. *)
Theorem missing_parent_raises_key_error (fuel : nat) (w : World)
    (s : MAMESettings) (b : string + Elements.MachineElement)
    (cf : option Cats.CategoryFolder) (e : Elements.MachineElement)
    (p : string) :
  _get_machine_element w s b = Ok e →
  Elements.parent_basename e = Some p →
  Py.truthy p = true →
  absent w s p →
  get_machine (S (S fuel)) w s b cf = Raise (KeyError p).
Proof.
  intros He Hp Ht Habsent.
  rewrite get_machine_unfold. cbv zeta.
  rewrite He, bind_Ok, Hp, view_if_named_truthy by done.
  rewrite get_machine_unfold. cbv zeta.
  unfold absent in Habsent. by rewrite Habsent.
Qed.

Lemma missing_parent_raises_key_error_witness :
  get_machine 2 Samples.world Samples.settings_xml (inl "orphan") None
  = Raise (KeyError "ghost").
Proof.
  apply (missing_parent_raises_key_error 0 Samples.world
           Samples.settings_xml (inl "orphan") None
           Samples.orphan "ghost"
           ltac:(reflexivity) ltac:(reflexivity) ltac:(reflexivity)
           ltac:(reflexivity)).
Defined.

End ConstructionFailures.

(** ** Play time *)

Section PlayTime.

Import TimerDb MachineView.

(** Where no play time is on record, the three accessors answer with the
    zero duration and the count 0. *)
Lemma play_time_defaults_to_zero (w : World) (self : Machine) :
  no_play_time_row w self →
  total_time_played w self = Ok timedelta_zero
  ∧ total_time_emulated w self = Ok timedelta_zero
  ∧ play_count w self = Ok 0%Z.
Proof.
  intros H.
  assert (Hrow : _timer_db_row w self = Ok None).
  { unfold no_play_time_row in H. unfold _timer_db_row.
    destruct (timer_db_path (settings self)) as [path|]; [|done].
    destruct H as (db & Hdb & Hrow).
    unfold try_load_timer_db, load_timer_db. rewrite Hdb. simpl.
    by rewrite Hrow. }
  unfold total_time_played, total_time_emulated, play_count.
  by rewrite Hrow.
Qed.

(** C9, at the inputs that break it: the store is configured and no file
    exists at its path. [sqlite3] raises [OperationalError] there, the
    handler of [try_load_timer_db] catches [FileNotFoundError] only, and so
    the three accessors raise where the claim has them answer with zero,
    although the basename is in no store. *)
Theorem play_time_raises_without_store_file (w : World) (self : Machine)
    (path : Path) :
  timer_db_path (settings self) = Some path →
  timer_db w path = None →
  try_load_timer_db w path = Raise OperationalError
  ∧ total_time_played w self = Raise OperationalError
  ∧ total_time_emulated w self = Raise OperationalError
  ∧ play_count w self = Raise OperationalError.
Proof.
  intros Hpath Hdb.
  assert (Hload : try_load_timer_db w path = Raise OperationalError).
  { unfold try_load_timer_db, load_timer_db. by rewrite Hdb. }
  assert (Hrow : _timer_db_row w self = Raise OperationalError).
  { unfold _timer_db_row. by rewrite Hpath, Hload. }
  unfold total_time_played, total_time_emulated, play_count.
  by rewrite Hrow.
Qed.

Lemma play_time_raises_without_store_file_witness :
  timer_db_path (settings Samples.unplayed)
  = Some "/home/user/.mame/timer/timer.db"
  ∧ timer_db Samples.world_without_store "/home/user/.mame/timer/timer.db"
    = None
  ∧ total_time_played Samples.world_without_store Samples.unplayed
    = Raise OperationalError
  ∧ total_time_emulated Samples.world_without_store Samples.unplayed
    = Raise OperationalError
  ∧ play_count Samples.world_without_store Samples.unplayed
    = Raise OperationalError.
Proof.
  assert (Hpath : timer_db_path (settings Samples.unplayed)
                  = Some "/home/user/.mame/timer/timer.db") by reflexivity.
  assert (Hdb : timer_db Samples.world_without_store
                  "/home/user/.mame/timer/timer.db" = None) by reflexivity.
  split; [exact Hpath|]. split; [exact Hdb|].
  exact (proj2 (play_time_raises_without_store_file _ _ _ Hpath Hdb)).
Defined.

(** A machine the store has a row for reports that row, and one it has no
    row for reports zero. *)
Lemma play_time_of_played_machine :
  let pacman :=
    mkMachine
      {| Elements.basename := "pacman"; Elements.name := "Pac-Man";
         Elements.parent_basename := None; Elements.bios_basename := None |}
      Samples.settings_xml None None None in
  total_time_played Samples.world pacman = Ok 3600000000%Z
  ∧ play_count Samples.world pacman = Ok 4%Z
  ∧ play_count Samples.world Samples.unplayed = Ok 0%Z.
Proof. by vm_compute. Qed.

End PlayTime.

(** ** The history section splitter *)

Section HistoryFacts.

Import History.

Lemma app_assoc_string (a b c : string) : (a +:+ b) +:+ c = a +:+ b +:+ c.
Proof.
  induction a as [|x a IH]; [done|]. by rewrite !app_cons, IH.
Qed.

Lemma match_group_unfold (s : string) :
  match_group s =
  match s with
  | EmptyString => None
  | String c s' =>
      if Ascii.eqb c Py.newline then None
      else
        match match_group s' with
        | Some (g, r) => Some (String c g, r)
        | None =>
            if Py.startswith s' (" -" +:+ Py.nl)
            then Some (String c EmptyString, Py.drop 3 s')
            else None
        end
  end.
Proof. by destruct s. Qed.

Lemma search_unfold (s : string) :
  search s =
  match match_line_pattern s with
  | Some (g, r) => Some (EmptyString, g, r)
  | None =>
      match s with
      | EmptyString => None
      | String c s' =>
          match search s' with
          | Some (b, g, r) => Some (String c b, g, r)
          | None => None
          end
      end
  end.
Proof. by destruct s. Qed.

(** A match of the group is a non-empty header followed by [" -\\n"]. *)
Lemma match_group_spec (s g r : string) :
  match_group s = Some (g, r) →
  s = g +:+ " -" +:+ Py.nl +:+ r ∧ g ≠ EmptyString.
Proof.
  revert g r. induction s as [|c s IH]; intros g r;
    rewrite match_group_unfold; [done|].
  destruct (Ascii.eqb c Py.newline); [done|].
  destruct (match_group s) as [[g' r']|].
  - intros [= <- <-]. destruct (IH g' r' eq_refl) as [-> _].
    by rewrite app_cons.
  - destruct (Py.startswith s (" -" +:+ Py.nl)) eqn:E; [|done].
    intros [= <- <-]. apply startswith_drop in E.
    rewrite app_cons, app_empty_l. split; [|done].
    f_equal. rewrite E at 1. by rewrite app_assoc_string.
Qed.

(** A match of the pattern is the marker of a non-empty header. *)
Lemma match_line_pattern_spec (s g r : string) :
  match_line_pattern s = Some (g, r) →
  s = marker g +:+ r ∧ g ≠ EmptyString.
Proof.
  unfold match_line_pattern.
  destruct (Py.startswith s (Py.nl +:+ "- ")) eqn:E; [|done].
  intros [Hs Hg]%match_group_spec. split; [|done].
  apply startswith_drop in E. rewrite E at 1.
  change (String.length (Py.nl +:+ "- ")) with 3. rewrite Hs.
  unfold marker. by rewrite !app_assoc_string.
Qed.

Lemma search_spec (s b g r : string) :
  search s = Some (b, g, r) →
  s = b +:+ marker g +:+ r ∧ g ≠ EmptyString.
Proof.
  revert b g r. induction s as [|c s IH]; intros b g r; rewrite search_unfold.
  - destruct (match_line_pattern EmptyString) as [[g' r']|] eqn:E; [|done].
    intros [= <- <- <-]. by apply match_line_pattern_spec in E.
  - destruct (match_line_pattern (String c s)) as [[g' r']|] eqn:E.
    + intros [= <- <- <-]. by apply match_line_pattern_spec in E.
    + destruct (search s) as [[[b' g'] r']|]; [|done].
      intros [= <- <- <-]. destruct (IH b' g' r' eq_refl) as [-> Hg].
      by rewrite app_cons.
Qed.

Lemma search_shorter (s b g r : string) :
  search s = Some (b, g, r) → String.length r < String.length s.
Proof.
  intros [-> _]%search_spec. unfold marker.
  rewrite !length_app_string. simpl. lia.
Qed.

(** The split has an odd number of elements, one more body than headers,
    its headers are not empty, and it puts back together to the text. *)
Lemma split_fuel_spec (n : nat) (s : string) :
  (String.length s ≤ n)%nat →
  unsplit (split_fuel n s) = s
  ∧ length (split_fuel n s) = 2 * length (headers (split_fuel n s)) + 1
  ∧ length (bodies (split_fuel n s)) = S (length (headers (split_fuel n s)))
  ∧ Forall (λ h, h ≠ EmptyString) (headers (split_fuel n s)).
Proof.
  revert s. induction n as [|n IH]; intros s Hn.
  - simpl. destruct (search s) as [[[b g] r]|] eqn:E; [|by repeat split].
    apply search_shorter in E. lia.
  - simpl. destruct (search s) as [[[b g] r]|] eqn:E; [|by repeat split].
    pose proof (search_shorter _ _ _ _ E) as Hlen.
    apply search_spec in E as [-> Hg].
    destruct (IH r) as (Hu & Hl & Hb & Hh); [lia|].
    change (headers (b :: g :: split_fuel n r))
      with (g :: headers (split_fuel n r)).
    change (bodies (b :: g :: split_fuel n r))
      with (b :: bodies (split_fuel n r)).
    change (unsplit (b :: g :: split_fuel n r))
      with (b +:+ marker g +:+ unsplit (split_fuel n r)).
    rewrite Hu. simpl. repeat split; [lia|lia|by constructor].
Qed.

Lemma re_split_fuel_enough (n m : nat) (s : string) :
  (String.length s ≤ n)%nat → (String.length s ≤ m)%nat →
  split_fuel n s = split_fuel m s.
Proof.
  revert m s. induction n as [|n IH]; intros m s Hn Hm.
  - destruct m; simpl; destruct (search s) as [[[b g] r]|] eqn:E; try done.
    apply search_shorter in E. lia.
  - destruct m; simpl; destruct (search s) as [[[b g] r]|] eqn:E; try done.
    + apply search_shorter in E. lia.
    + do 2 f_equal. apply search_shorter in E. apply IH; lia.
Qed.

(** [re_split] never runs out of rounds: it obeys the equation of a split
    without a bound, which goes on behind every match. *)
Lemma re_split_unfold (s : string) :
  re_split s =
  match search s with
  | None => [s]
  | Some (b, g, r) => b :: g :: re_split r
  end.
Proof.
  unfold re_split.
  destruct (String.length s) as [|n] eqn:Hlen; simpl;
    destruct (search s) as [[[b g] r]|] eqn:E; try done.
  - apply search_shorter in E. lia.
  - do 2 f_equal. apply search_shorter in E.
    apply re_split_fuel_enough; lia.
Qed.

Lemma list_pair_ind {A} (P : list A → Prop) :
  P [] → (∀ x, P [x]) → (∀ x y l, P l → P (x :: y :: l)) →
  ∀ l, P l.
Proof.
  intros Hnil Hone Hstep l.
  enough (P l ∧ ∀ x, P (x :: l)) by tauto.
  induction l as [|y l [IH1 IH2]]; [by split|]. split; [apply IH2|].
  intros x. by apply Hstep.
Qed.

Lemma assignments_step (section b h : string) (rest : list string) :
  assignments section (b :: h :: rest)
  = (section, Py.strip b) :: assignments h rest.
Proof. reflexivity. Qed.

Lemma loop_assignments (groups : list string) (i : nat) (section : string)
    (sections : list (string * string)) :
  Nat.odd i = false →
  loop i section sections groups
  = foldl assign sections (assignments section groups).
Proof.
  revert i section sections.
  induction groups as [| b | b h rest IH] using list_pair_ind;
    intros i section sections Hi.
  - done.
  - simpl. by rewrite Hi.
  - rewrite assignments_step. simpl loop. rewrite Hi.
    rewrite Nat.odd_succ, <- Nat.negb_odd, Hi. simpl negb. cbv iota.
    by rewrite IH.
Qed.

Lemma dict_set_fresh (k v : string) (dict : list (string * string)) :
  k ∉ dict.*1 → dict_set k v dict = (dict ++ [(k, v)])%list.
Proof.
  induction dict as [|[k' v'] dict IH]; [done|]. simpl.
  intros [Hne Hk]%not_elem_of_cons.
  rewrite (proj2 (String.eqb_neq k' k)) by done. by rewrite IH.
Qed.

Lemma foldl_assign_fresh (kvs dict : list (string * string)) :
  NoDup (dict.*1 ++ kvs.*1)%list → foldl assign dict kvs = (dict ++ kvs)%list.
Proof.
  revert dict. induction kvs as [|[k v] kvs IH]; intros dict Hnd; simpl.
  - by rewrite app_nil_r.
  - unfold assign at 2. simpl. rewrite dict_set_fresh.
    + rewrite IH; [by rewrite <- app_assoc|].
      rewrite fmap_app. simpl. by rewrite <- app_assoc.
    + apply NoDup_app in Hnd as (_ & Hnd & _). intros Hk.
      apply (Hnd k Hk). simpl. by left.
Qed.

Lemma assignments_keys (section : string) (groups : list string) :
  length (bodies groups) = S (length (headers groups)) →
  (assignments section groups).*1 = section :: headers groups.
Proof.
  intros H. unfold assignments. apply fst_zip.
  rewrite length_fmap, H. simpl. lia.
Qed.

(** C5 as stated fails: the text has two delimiters and both carry the
    header [X], so the mapping has two entries, not three, and the body [b]
    between the delimiters is in none of them. *)
Lemma repeated_header_loses_a_section :
  length (delimiters Samples.repeated_header) = 2
  ∧ parse_info_sections Samples.repeated_header
    = [(EmptyString, "a"); ("X", "c")]
  ∧ length (parse_info_sections Samples.repeated_header)
    ≠ length (delimiters Samples.repeated_header) + 1.
Proof. repeat split; by vm_compute. Qed.

End HistoryFacts.

(** * Further properties *)

(** ** The catlist category parser: failures and ranges *)

(** Turns the boolean string tests of the context into equations. *)
Ltac eqb_to_eq :=
  repeat match goal with
  | H : String.eqb _ _ = true |- _ => apply String.eqb_eq in H
  | H : String.eqb _ _ = false |- _ => apply String.eqb_neq in H
  end.

Section CatlistRanges.

Import Catlist.

Lemma bios_category_components (cat : string) :
  category (init cat) = "Arcade: System / BIOS" →
  _components (init cat) = ["System"; "BIOS"].
Proof.
  unfold init. destruct (Py.partition " * " cat) as [[c h] e]. simpl.
  by intros ->.
Qed.

Lemma genre_types_Some (c : string) (t : MachineType) :
  genre_types c = Some t →
  (t = Gambling ∧ (c = "Slot Machine" ∨ c = "Casino"))
  ∨ (t = Redemption ∧ c = "Redemption Game")
  ∨ (t = MedalGame ∧ c = "Medal Game")
  ∨ (t = CoinPusher ∧ c = "Coin Pusher")
  ∨ (t = PrintClub ∧ c = "Print Club").
Proof.
  unfold genre_types.
  destruct (String.eqb c "Slot Machine") eqn:E1;
    [eqb_to_eq; naive_solver|].
  destruct (String.eqb c "Casino") eqn:E2; [eqb_to_eq; naive_solver|].
  destruct (String.eqb c "Redemption Game") eqn:E3;
    [eqb_to_eq; naive_solver|].
  destruct (String.eqb c "Medal Game") eqn:E4; [eqb_to_eq; naive_solver|].
  destruct (String.eqb c "Coin Pusher") eqn:E5; [eqb_to_eq; naive_solver|].
  destruct (String.eqb c "Print Club") eqn:E6; [eqb_to_eq; naive_solver|].
  done.
Qed.

(** [machine_type] once the components are known and the category is not
    the BIOS marker. *)
Lemma machine_type_of_components (self : CatlistCategory) (c0 : string)
    (cs : list string) :
  _components self = c0 :: cs →
  String.eqb (category self) "Arcade: System / BIOS" = false →
  machine_type self =
  match genre_types c0 with
  | Some t => Ok t
  | None =>
      if String.eqb c0 "Electromechanical" then
        match cs with
        | [] => Raise IndexError
        | c1 :: _ =>
            if String.eqb c1 "Pinball" then Ok Pinball else Ok Mechanical
        end
      else if is_arcade self then Ok Arcade
      else if String.eqb c0 "Handheld"
              && Py.mem "Plug n' Play TV Game" (c0 :: cs)
      then Ok PlugAndPlay
      else if String.eqb (category self) "Handheld / Electronic Game"
      then Ok LCDHandheld
      else Ok Other
  end.
Proof.
  intros Hc Hb. unfold machine_type, _is_plug_and_play. rewrite Hb, Hc.
  simpl. destruct (genre_types c0); [done|].
  destruct (String.eqb c0 "Electromechanical"); [by destruct cs|].
  by destruct (is_arcade self).
Qed.

Lemma index_guarded {A} (l : list A) (i : nat) :
  Nat.ltb i (length l) = true → returns (Py.index l i).
Proof.
  intros H%Nat.ltb_lt. unfold Py.index.
  destruct (lookup_lt_is_Some_2 l i H) as [x ->]. by eexists.
Qed.

(** The branches of [genre] below the set test never fail. *)
Lemma genre_without_second_component (self : CatlistCategory) :
  _components self ≠ [] →
  returns
    (if is_arcade self then Some <$> Py.index (_components self) 0
     else
       pp ← _is_plug_and_play self;
       if (pp : bool) && Nat.ltb 2 (length (_components self))
       then Some <$> Py.index (_components self) 2
       else Ok None).
Proof.
  intros Hne. unfold _is_plug_and_play.
  destruct (index_head _ Hne) as [c0 Hc0]. rewrite Hc0. simpl.
  destruct (is_arcade self); [by eexists|].
  destruct (Nat.ltb 2 (length (_components self))) eqn:Hlen.
  - destruct (index_guarded _ _ Hlen) as [c2 ->].
    destruct (_ && _); by eexists.
  - rewrite andb_false_r. by eexists.
Qed.

(** The branches of [subgenre] never fail. *)
Lemma subgenre_branches_return (self : CatlistCategory) (t : MachineType) :
  returns
    (if takes_second_component t then
       if Nat.ltb 2 (length (_components self))
       then Some <$> Py.index (_components self) 2
       else Ok None
     else if is_arcade self && Nat.ltb 1 (length (_components self))
     then Some <$> Py.index (_components self) 1
     else Ok None).
Proof.
  destruct (takes_second_component t).
  - destruct (Nat.ltb 2 (length (_components self))) eqn:Hlen;
      [|by eexists].
    destruct (index_guarded _ _ Hlen) as [c2 ->]. by eexists.
  - destruct (Nat.ltb 1 (length (_components self))) eqn:Hlen.
    + destruct (index_guarded _ _ Hlen) as [c1 ->].
      destruct (is_arcade self); by eexists.
    + rewrite andb_false_r. by eexists.
Qed.

Lemma returns_not_raises {A} (m : result A) : returns m → ¬ raises m.
Proof. intros [a ->] [e He]. done. Qed.

(** X1: [genre] fails on exactly three shapes of input, the categories whose
    only component is [Electromechanical], [Redemption Game] or [Medal
    Game]; [subgenre] fails on the first of them only. *)
Theorem genre_and_subgenre_raise_iff (cat : string) :
  (raises (genre (init cat))
   ↔ _components (init cat) = ["Electromechanical"]
     ∨ _components (init cat) = ["Redemption Game"]
     ∨ _components (init cat) = ["Medal Game"])
  ∧ (raises (subgenre (init cat))
     ↔ _components (init cat) = ["Electromechanical"]).
Proof.
  pose proof (components_nonempty cat) as Hne.
  pose proof (bios_category_components cat) as Hbios.
  pose proof (genre_without_second_component (init cat) Hne) as Hrest.
  pose proof (subgenre_branches_return (init cat)) as Hsub.
  pose proof (machine_type_raises_iff cat) as Hmt.
  unfold genre, subgenre.
  destruct (_components (init cat)) as [|c0 cs] eqn:Hc; [done|].
  destruct (String.eqb (category (init cat)) "Arcade: System / BIOS")
    eqn:Hb.
  { assert (Hm : machine_type (init cat) = Ok BIOS)
      by (unfold machine_type; by rewrite Hb).
    apply String.eqb_eq in Hb. specialize (Hbios Hb). simplify_eq.
    rewrite Hm. simpl.
    split; (split; [|intros H; by destruct_or?]).
    - by intros ?%returns_not_raises.
    - intros H. by apply returns_not_raises in H; [|apply (Hsub BIOS)]. }
  rewrite (machine_type_of_components _ c0 cs Hc Hb) in *.
  destruct (genre_types c0) as [t|] eqn:Hg.
  - simpl. specialize (Hsub t).
    split; [|split; [by intros ?%returns_not_raises|]].
    + destruct (takes_second_component t) eqn:Ht.
      * apply genre_types_Some in Hg.
        destruct cs as [|c1 cs].
        -- split; [intros _|intros _; by eexists].
           destruct_or?; destruct_and?; simplify_eq; auto.
        -- split; [by intros [e He]|].
           intros H; destruct_or?; simplify_eq.
      * split; [by intros ?%returns_not_raises|].
        intros H. destruct_or?; simplify_eq; vm_compute in Hg;
          by simplify_eq.
    + intros [= -> ->]. by vm_compute in Hg.
  - destruct (String.eqb c0 "Electromechanical") eqn:He.
    + apply String.eqb_eq in He as ->. destruct cs as [|c1 cs].
      * simpl. split; split; try (intros _; by eexists); auto.
      * destruct (String.eqb c1 "Pinball"); simpl.
        -- split; (split; [|intros H; by destruct_or?]).
           ++ by intros ?%returns_not_raises.
           ++ intros H.
              by apply returns_not_raises in H; [|apply (Hsub Pinball)].
        -- split; (split; [|intros H; by destruct_or?]).
           ++ by intros [e E].
           ++ intros H.
              by apply returns_not_raises in H;
                [|apply (Hsub Mechanical)].
    + apply String.eqb_neq in He.
      assert (Hno : ∀ t, takes_second_component t = false →
        (raises (Ok t ≫= λ t : MachineType,
           if takes_second_component t
           then Some <$> Py.index (c0 :: cs) 1
           else if is_arcade (init cat)
           then Some <$> Py.index (c0 :: cs) 0
           else
             pp ← _is_plug_and_play (init cat);
             if (pp : bool) && Nat.ltb 2 (length (c0 :: cs))
             then Some <$> Py.index (c0 :: cs) 2
             else Ok None)
         ↔ c0 :: cs = ["Electromechanical"]
           ∨ c0 :: cs = ["Redemption Game"]
           ∨ c0 :: cs = ["Medal Game"])
        ∧ (raises (Ok t ≫= λ t : MachineType,
             if takes_second_component t then
               if Nat.ltb 2 (length (c0 :: cs))
               then Some <$> Py.index (c0 :: cs) 2
               else Ok None
             else if is_arcade (init cat) && Nat.ltb 1 (length (c0 :: cs))
             then Some <$> Py.index (c0 :: cs) 1
             else Ok None)
           ↔ c0 :: cs = ["Electromechanical"])).
      { intros t Ht. specialize (Hsub t). simpl. rewrite Ht in *.
        split; split.
        - by intros ?%returns_not_raises.
        - intros H. destruct_or?; simplify_eq; by vm_compute in Hg.
        - by intros ?%returns_not_raises.
        - intros H. simplify_eq. }
      destruct (is_arcade (init cat)) eqn:Ha; [by apply Hno|].
      destruct (String.eqb c0 "Handheld" && _); [by apply Hno|].
      destruct (String.eqb _ "Handheld / Electronic Game"); by apply Hno.
Qed.

End CatlistRanges.

(** ** Python primitives: separators *)

Section PyMore.

Import Py.

Lemma app_empty_r (s : string) : s +:+ EmptyString = s.
Proof. induction s as [|c s IH]; [done|]. by rewrite app_cons, IH. Qed.

Lemma startswith_app (p s : string) : startswith (p +:+ s) p = true.
Proof.
  unfold startswith. induction p as [|c p IH]; [apply prefix_empty|].
  rewrite app_cons. simpl. by destruct (ascii_dec c c).
Qed.

Lemma startswith_app_l (a x p : string) :
  startswith a p = true → startswith (a +:+ x) p = true.
Proof.
  unfold startswith. revert a. induction p as [|c p IH]; intros a H.
  - apply prefix_empty.
  - destruct a as [|d a]; [done|]. rewrite app_cons. simpl in *.
    destruct (ascii_dec c d); [by apply IH|done].
Qed.

Lemma drop_app_length (p s : string) : drop (String.length p) (p +:+ s) = s.
Proof. induction p as [|c p IH]; [by destruct s|]. by rewrite app_cons. Qed.

(** The text before the first occurrence of a separator holds none. *)
Lemma find_before_free (sep s a r : string) :
  sep ≠ EmptyString → find sep s = Some (a, r) → find sep a = None.
Proof.
  intros Hsep. revert a r.
  induction s as [|c s IH]; intros a r; rewrite find_unfold.
  - destruct (startswith EmptyString sep) eqn:E; [|done].
    intros [= <- <-]. rewrite find_unfold.
    replace (startswith EmptyString sep) with false; [done|].
    by destruct sep.
  - destruct (startswith (String c s) sep) eqn:E.
    + intros [= <- <-]. rewrite find_unfold.
      replace (startswith EmptyString sep) with false; [done|].
      by destruct sep.
    + destruct (find sep s) as [[a' r']|] eqn:F; [|done].
      intros [= <- <-]. rewrite find_unfold, (IH a' r' eq_refl).
      destruct (startswith (String c a') sep) eqn:E'; [|done].
      apply find_spec in F as ->.
      apply (startswith_app_l _ (sep +:+ r')) in E'.
      rewrite app_cons in E'. congruence.
Qed.

Lemma join_cons (sep a : string) (l : list string) :
  l ≠ [] → join sep (a :: l) = a +:+ sep +:+ join sep l.
Proof. by destruct l. Qed.

Lemma join_split_fuel (n : nat) (sep s : string) :
  sep ≠ EmptyString → (String.length s ≤ n)%nat →
  join sep (split_fuel n sep s) = s.
Proof.
  intros Hsep. revert s. induction n as [|n IH]; intros s Hn; simpl.
  - destruct (find sep s) as [[a r]|] eqn:E; [|done].
    apply find_shorter in E; [lia|done].
  - destruct (find sep s) as [[a r]|] eqn:E; [|done].
    rewrite join_cons by apply split_fuel_nonempty.
    pose proof (find_shorter _ _ _ _ Hsep E).
    rewrite IH by lia. by apply find_spec in E.
Qed.

(** Joining the pieces of a split with the separator gives the text back. *)
Lemma join_split (sep s : string) :
  sep ≠ EmptyString → join sep (split sep s) = s.
Proof. intros Hsep. by apply join_split_fuel. Qed.

Lemma split_fuel_pieces_free (n : nat) (sep s : string) :
  sep ≠ EmptyString → (String.length s ≤ n)%nat →
  Forall (λ c, find sep c = None) (split_fuel n sep s).
Proof.
  intros Hsep. revert s. induction n as [|n IH]; intros s Hn; simpl.
  - destruct (find sep s) as [[a r]|] eqn:E; [|by repeat constructor].
    apply find_shorter in E; [lia|done].
  - destruct (find sep s) as [[a r]|] eqn:E; [|by repeat constructor].
    pose proof (find_shorter _ _ _ _ Hsep E).
    constructor; [by eapply find_before_free|apply IH; lia].
Qed.

(** No piece of a split holds the separator. *)
Lemma split_pieces_free (sep s : string) :
  sep ≠ EmptyString → Forall (λ c, find sep c = None) (split sep s).
Proof. intros Hsep. by apply split_fuel_pieces_free. Qed.

End PyMore.

(** ** The catlist category parser: shape of the parsed object *)

Section CatlistShape.

Import Catlist.

(** X2: Nothing of the category string is lost by
    [CatlistCategory.__init__]: the three parts of the partition put the
    string back together, the components joined by [" / "] behind the prefix
    [Arcade: ], when there is one, put the category back together, and the
    separators survive neither in the category nor in a component. *)
Theorem catlist_init_is_lossless (cat : string) :
  let self := init cat in
  category self +:+ _has_extra self +:+ extra self = cat
  ∧ (if is_arcade self then "Arcade: " else EmptyString)
    +:+ Py.join " / " (_components self) = category self
  ∧ Py.contains " * " (category self) = false
  ∧ Forall (λ c, Py.contains " / " c = false) (_components self).
Proof.
  unfold init, Py.partition, is_arcade, Py.removeprefix, Py.contains.
  destruct (Py.find " * " cat) as [[a r]|] eqn:E; simpl.
  - split; [by apply find_spec in E|].
    apply find_before_free in E; [|done]. rewrite E.
    split; [|split; [done|]].
    + destruct (Py.startswith a "Arcade: ") eqn:Ha.
      * rewrite join_split by done. by apply startswith_drop in Ha.
      * by rewrite join_split.
    + eapply Forall_impl; [by apply split_pieces_free|].
      by intros c ->.
  - rewrite E. split; [by rewrite !app_empty_r|].
    split; [|split; [done|]].
    + destruct (Py.startswith cat "Arcade: ") eqn:Ha.
      * rewrite join_split by done. by apply startswith_drop in Ha.
      * by rewrite join_split.
    + eapply Forall_impl; [by apply split_pieces_free|].
      by intros c ->.
Qed.

(** X3: [machine_type] never answers [ConsoleCartridge] or [Handheld], and
    for a category with the prefix [Arcade: ] it never answers [Other],
    [PlugAndPlay] or [LCDHandheld]. *)
Theorem catlist_machine_type_range (self : CatlistCategory) :
  machine_type self ≠ Ok ConsoleCartridge
  ∧ machine_type self ≠ Ok Handheld
  ∧ (is_arcade self = true →
     machine_type self ≠ Ok Other
     ∧ machine_type self ≠ Ok PlugAndPlay
     ∧ machine_type self ≠ Ok LCDHandheld).
Proof.
  unfold machine_type, _is_plug_and_play.
  destruct (String.eqb (category self) "Arcade: System / BIOS");
    [by repeat split|].
  destruct (_components self) as [|c0 cs]; [by repeat split|]. simpl.
  destruct (genre_types c0) as [t|] eqn:Hg.
  { apply genre_types_Some in Hg.
    destruct Hg as [[-> _]|[[-> _]|[[-> _]|[[-> _]|[-> _]]]]];
      by repeat split. }
  destruct (String.eqb c0 "Electromechanical").
  { destruct cs as [|c1 cs]; [by repeat split|]. simpl.
    destruct (String.eqb c1 "Pinball"); by repeat split. }
  destruct (is_arcade self); [by repeat split|]. simpl.
  destruct (_ && _); [by repeat split|].
  destruct (String.eqb _ "Handheld / Electronic Game"); by repeat split.
Qed.

(** X4: A category with the prefix [Arcade: ] never has a null genre: when
    [genre] returns, it returns one of the components. *)
Theorem arcade_genre_is_a_component (cat : string) (g : option string) :
  is_arcade (init cat) = true →
  genre (init cat) = Ok g →
  ∃ c, g = Some c ∧ c ∈ _components (init cat).
Proof.
  intros Ha. unfold genre. rewrite Ha.
  destruct (machine_type (init cat)) as [t|]; [|done]. simpl.
  unfold Py.index.
  destruct (takes_second_component t).
  - destruct (_components (init cat) !! 1) as [c|] eqn:E; [|done].
    intros [= <-]. exists c. split; [done|].
    by eapply list_elem_of_lookup_2.
  - destruct (_components (init cat) !! 0) as [c|] eqn:E; [|done].
    intros [= <-]. exists c. split; [done|].
    by eapply list_elem_of_lookup_2.
Qed.

Lemma catlist_machine_type_range_witness :
  is_arcade (init "Arcade: Shooter / Rail") = true
  ∧ machine_type (init "Arcade: Shooter / Rail") ≠ Ok Other.
Proof.
  split; [reflexivity|].
  apply (proj2 (proj2 (catlist_machine_type_range
                         (init "Arcade: Shooter / Rail")))).
  reflexivity.
Defined.

Lemma arcade_genre_is_a_component_witness :
  ∃ c, Some "Shooter" = Some c
       ∧ c ∈ _components (init "Arcade: Shooter / Rail / Turn-based * Mature").
Proof.
  apply (arcade_genre_is_a_component
           "Arcade: Shooter / Rail / Turn-based * Mature");
    by vm_compute.
Defined.

End CatlistShape.

(** ** The MAMEInfo entry parser: what the sections hold *)

Section MAMEInfoSections.

Import MAMEInfo MAMEInfoLines.

Lemma is_header_false (line : string) :
  is_header line = false →
  Py.mem line normal_sections || Py.mem line list_sections_names = false
  ∧ Py.startswith line "Recommended Games" = false
  ∧ Py.startswith line "LEVELS:" = false
  ∧ Py.startswith line "ARCADE RELEASE:" = false.
Proof.
  unfold is_header. intros H.
  repeat (apply orb_false_elim in H as [H ?]).
  repeat split; try done. by rewrite H.
Qed.

(** The loop over lines that are no headers only appends to the lines of
    the open section. *)
Lemma scan_plain_lines (plain : list string) (st : state) :
  Forall (λ line, is_header line = false) plain →
  foldl step st plain =
  {| sections := sections st;
     list_sections := list_sections st;
     recommended_games := recommended_games st;
     current_section := current_section st;
     current_lines :=
       current_lines st
       ++ (cleaned <$> filter (λ line, is_discarded line = false) plain);
     current_is_list := current_is_list st |}.
Proof.
  intros H. revert st. induction H as [|line plain Hline _ IH]; intros st.
  - simpl. rewrite app_nil_r. by destruct st.
  - simpl. rewrite IH. clear IH.
    apply is_header_false in Hline as (H1 & H2 & H3 & H4).
    unfold step. rewrite H1, H2, H3, H4. fold (is_discarded line).
    rewrite filter_cons.
    destruct (is_discarded line) eqn:Hd.
    + by rewrite decide_False by done.
    + rewrite decide_True by done. simpl. by rewrite <- app_assoc.
Qed.

Lemma finish_lines (st : state) : current_lines (finish st) = [].
Proof. unfold finish. by repeat case_match. Qed.

Lemma finish_current_section (st : state) :
  current_section (finish st) = current_section st.
Proof. unfold finish. by repeat case_match. Qed.

Lemma finish_current_is_list (st : state) :
  current_is_list (finish st) = current_is_list st.
Proof. unfold finish. by repeat case_match. Qed.

(** [finish] writes to one bucket, under the open section or its platform. *)
Lemma finish_sections_other (st : state) (k : string) :
  current_section st ≠ k →
  sections (finish st) !! k = sections st !! k.
Proof.
  intros Hk. unfold finish. repeat case_match; simpl; try done.
  by rewrite lookup_insert_ne.
Qed.

(** The free-text section that is open is written by [finish]. *)
Lemma finish_free_text (st : state) (k : string) :
  current_section st = k →
  Py.startswith k "Recommended Games" = false →
  current_is_list st = false →
  sections (finish st) !! k
  = Some (Py.join Py.nl
            (filter (λ liney, Py.truthy liney = true) (current_lines st))).
Proof.
  intros <- H1 H2. unfold finish. rewrite H1, H2. simpl.
  by rewrite lookup_insert_eq.
Qed.

(** The name a header line opens a section under. *)
Lemma opened_section_not_summary (line : string) :
  Py.mem line normal_sections || Py.mem line list_sections_names = true
  ∨ Py.startswith line "Recommended Games" = true →
  Py.init line ≠ "summary".
Proof.
  intros [H|H].
  - apply orb_true_iff in H as [H|H]; apply bool_decide_eq_true in H;
      vm_compute in H; set_unfold; destruct_or?; by subst.
  - apply startswith_drop in H. rewrite H. rewrite !app_cons. simpl.
    by case_match.
Qed.

(** Once a header was read, the summary stays what it is. *)
Lemma step_keeps_summary (st : state) (line v : string) :
  sections st !! "summary" = Some v → current_section st ≠ "summary" →
  sections (step st line) !! "summary" = Some v
  ∧ current_section (step st line) ≠ "summary".
Proof.
  intros Hv Hc.
  pose proof (finish_sections_other st "summary" Hc) as Hf.
  pose proof (opened_section_not_summary line) as Hopen.
  unfold step, scalar_section.
  destruct (Py.mem line normal_sections || Py.mem line list_sections_names);
    [simpl; split; [congruence|auto]|].
  destruct (Py.startswith line "Recommended Games");
    [simpl; split; [congruence|auto]|].
  destruct (Py.startswith line "LEVELS:");
    [simpl; split; [by rewrite lookup_insert_ne, Hf|done]|].
  destruct (Py.startswith line "ARCADE RELEASE:");
    [simpl; split; [by rewrite lookup_insert_ne, Hf|done]|].
  by destruct (_ || _).
Qed.

Lemma foldl_keeps_summary (rest : list string) (st : state) (v : string) :
  sections st !! "summary" = Some v → current_section st ≠ "summary" →
  sections (foldl step st rest) !! "summary" = Some v.
Proof.
  revert st. induction rest as [|line rest IH]; intros st Hv Hc; [done|].
  simpl. destruct (step_keeps_summary st line v Hv Hc). by apply IH.
Qed.

(** X5: The first header of an entry stores, as the summary, the lines
    before it: cleaned, the empty and the discarded ones left out, joined by
    newlines. No later line changes it. *)
Theorem summary_is_the_text_before_the_first_header
    (contents : string) (plain rest : list string) (header : string) :
  Py.splitlines contents = (plain ++ header :: rest)%list →
  Forall (λ line, is_header line = false) plain →
  is_header header = true →
  entry_sections (init contents) !! "summary"
  = Some (Py.join Py.nl (kept plain)).
Proof.
  intros Hlines Hplain Hheader. unfold init, scan. simpl.
  rewrite Hlines, foldl_app. simpl.
  rewrite (scan_plain_lines plain) by done.
  simpl. set (st := Build_state _ _ _ _ _ _).
  assert (Hfin : sections (finish st) !! "summary"
                 = Some (Py.join Py.nl (kept plain))).
  { by apply (finish_free_text st). }
  pose proof (opened_section_not_summary header) as Hopen.
  apply foldl_keeps_summary.
  - unfold is_header in Hheader. unfold step, scalar_section.
    destruct (Py.mem header normal_sections
              || Py.mem header list_sections_names); [done|].
    destruct (Py.startswith header "Recommended Games"); [done|].
    destruct (Py.startswith header "LEVELS:");
      [simpl; by rewrite lookup_insert_ne|].
    destruct (Py.startswith header "ARCADE RELEASE:");
      [simpl; by rewrite lookup_insert_ne|done].
  - unfold is_header in Hheader. unfold step, scalar_section.
    destruct (Py.mem header normal_sections
              || Py.mem header list_sections_names); [simpl; auto|].
    destruct (Py.startswith header "Recommended Games"); [simpl; auto|].
    destruct (Py.startswith header "LEVELS:"); [done|].
    by destruct (Py.startswith header "ARCADE RELEASE:").
Qed.

(** A line with a given prefix that none of the fixed headers has is not
    one of them. *)
Ltac not_a_fixed_header :=
  apply orb_false_intro; apply bool_decide_eq_false;
  rewrite ?app_cons, ?app_empty_l; vm_compute; set_unfold;
  intros; destruct_or?; simplify_eq.

Lemma levels_line_step (st : state) (line : string) :
  Py.startswith line "LEVELS:" = true →
  step st line = scalar_section "Levels" "LEVELS:" line st.
Proof.
  intros H. unfold step. rewrite H.
  apply startswith_drop in H. revert H.
  generalize (Py.drop (String.length "LEVELS:") line). intros x ->.
  replace (Py.mem _ normal_sections || Py.mem _ list_sections_names)
    with false by (symmetry; not_a_fixed_header).
  by rewrite !app_cons.
Qed.

(** What a header line leaves in the free-text sections: what [finish]
    wrote, and the scalar of the line when it is a scalar header. *)
Lemma header_step_sections (st : state) (header k : string) :
  is_header header = true →
  k ≠ "Release date" →
  Py.startswith header "LEVELS:" = false →
  sections (step st header) !! k = sections (finish st) !! k.
Proof.
  intros Hh Hk Hl. unfold is_header in Hh. unfold step, scalar_section.
  rewrite Hl in *.
  destruct (Py.mem header normal_sections
            || Py.mem header list_sections_names); [done|].
  destruct (Py.startswith header "Recommended Games"); [done|].
  destruct (Py.startswith header "ARCADE RELEASE:"); [|done].
  simpl. by rewrite lookup_insert_ne.
Qed.

Lemma init_snoc (s : string) (c : ascii) :
  Py.init (s +:+ String c EmptyString) = s.
Proof.
  induction s as [|d s IH]; [done|]. rewrite app_cons. simpl.
  rewrite IH. by destruct s.
Qed.

Lemma removeprefix_app (p s : string) : Py.removeprefix p (p +:+ s) = s.
Proof.
  unfold Py.removeprefix. by rewrite startswith_app, drop_app_length.
Qed.

Lemma contains_app (sub a b : string) :
  Py.contains sub (a +:+ sub +:+ b) = true.
Proof.
  unfold Py.contains. induction a as [|c a IH].
  - rewrite app_empty_l, find_unfold. by rewrite startswith_app.
  - rewrite app_cons, find_unfold.
    destruct (Py.startswith _ sub); [done|].
    by destruct (Py.find sub (a +:+ sub +:+ b)) as [[??]|].
Qed.

Lemma recommended_line_step (st : state) (line : string) :
  Py.startswith line "Recommended Games" = true →
  step st line =
  {| sections := sections (finish st);
     list_sections := list_sections (finish st);
     recommended_games := recommended_games (finish st);
     current_section := Py.init line;
     current_lines := current_lines (finish st);
     current_is_list := current_is_list (finish st) |}.
Proof.
  intros H. unfold step. rewrite H.
  apply startswith_drop in H. revert H.
  generalize (Py.drop (String.length "Recommended Games") line).
  intros x ->.
  by replace (Py.mem _ normal_sections || Py.mem _ list_sections_names)
    with false by (symmetry; not_a_fixed_header).
Qed.

(** What [finish] writes for a recommended games section. *)
Lemma finish_recommended (st : state) (key : string) :
  Py.startswith (current_section st) "Recommended Games" = true →
  (if Py.contains "(" (current_section st)
   then Py.init (Py.removeprefix "Recommended Games (" (current_section st))
   else "Games") = key →
  recommended_games (finish st) !! key
  = Some (filter (λ liney, Py.truthy liney = true) (current_lines st)).
Proof.
  intros H1 H2. unfold finish. rewrite H1, H2. simpl.
  by rewrite lookup_insert_eq.
Qed.

Lemma header_step_recommended (st : state) (header : string) :
  is_header header = true →
  recommended_games (step st header) = recommended_games (finish st).
Proof.
  intros Hh. unfold is_header in Hh. unfold step, scalar_section.
  destruct (Py.mem header normal_sections
            || Py.mem header list_sections_names); [done|].
  destruct (Py.startswith header "Recommended Games"); [done|].
  destruct (Py.startswith header "LEVELS:"); [done|].
  by destruct (Py.startswith header "ARCADE RELEASE:").
Qed.

Lemma summary_is_the_text_before_the_first_header_witness :
  entry_sections (init Samples.mameinfo_text) !! "summary"
  = Some "0.37b5 [Someone]".
Proof.
  apply (summary_is_the_text_before_the_first_header Samples.mameinfo_text
           ["0.37b5 [Someone]"] ["- Fixed sound"; "BIOS:"; "* foo"] "WIP:").
  - reflexivity.
  - by repeat constructor.
  - reflexivity.
Defined.

End MAMEInfoSections.

(** ** History entries *)

Section HistoryEntryFacts.

Import History HistoryEntries.

Lemma match_group_header (h r : string) :
  plain_header h →
  match_group (h +:+ " -" +:+ Py.nl +:+ r) = Some (h, r).
Proof.
  intros [Hne Hnl]. induction h as [|c h IH]; [done|].
  rewrite app_cons, match_group_unfold. simpl in Hnl.
  apply andb_true_iff in Hnl as [Hc Hnl]. apply negb_true_iff in Hc.
  rewrite Hc. destruct h as [|d h].
  - rewrite !app_cons, !app_empty_l. simpl. rewrite !app_empty_l.
    unfold Py.startswith. by rewrite prefix_empty.
  - by rewrite IH.
Qed.

Lemma match_line_pattern_marker (h r : string) :
  plain_header h → match_line_pattern (marker h +:+ r) = Some (h, r).
Proof.
  intros Hh. unfold match_line_pattern, marker.
  rewrite !app_assoc_string.
  change (Py.nl +:+ "- " +:+ h +:+ " -" +:+ Py.nl +:+ r)
    with ((Py.nl +:+ "- ") +:+ h +:+ " -" +:+ Py.nl +:+ r).
  rewrite startswith_app.
  change 3 with (String.length (Py.nl +:+ "- ")).
  rewrite drop_app_length. by apply match_group_header.
Qed.

Lemma startswith_cons (b a : ascii) (s p : string) :
  Py.startswith (String b s) (String a p)
  = bool_decide (a = b) && Py.startswith s p.
Proof.
  unfold Py.startswith. cbn [String.prefix].
  destruct (ascii_dec a b); by case_bool_decide.
Qed.

Lemma startswith_empty (s : string) : Py.startswith s EmptyString = true.
Proof. apply prefix_empty. Qed.

(** A text that is empty or starts with a newline does not start with
    another character. *)
Lemma startswith_other (rest p : string) (a : ascii) :
  rest = EmptyString ∨ Py.startswith rest Py.nl = true →
  a ≠ Py.newline →
  Py.startswith rest (String a p) = false.
Proof.
  intros [->|Hr] Ha; [done|]. destruct rest as [|e rest]; [done|].
  unfold Py.nl in Hr. rewrite startswith_cons in *.
  apply andb_true_iff in Hr as [Hr _]. apply bool_decide_eq_true in Hr.
  subst e. by rewrite bool_decide_eq_false_2.
Qed.

(** No marker starts inside a plain body, whatever follows the body. *)
Lemma no_match_in_plain_body (c : ascii) (b rest : string) :
  Py.startswith (String c b) (Py.nl +:+ "- ") = false →
  rest = EmptyString ∨ Py.startswith rest Py.nl = true →
  match_line_pattern (String c b +:+ rest) = None.
Proof.
  intros Hb Hrest. unfold match_line_pattern.
  replace (Py.startswith (String c b +:+ rest) (Py.nl +:+ "- ")) with false;
    [done|].
  symmetry. revert Hb.
  change (Py.nl +:+ "- ")
    with (String Py.newline (String "-" (String " " EmptyString))).
  rewrite app_cons, !startswith_cons.
  case_bool_decide; [|done]. rewrite !andb_true_l.
  destruct b as [|d b].
  { intros _. rewrite app_empty_l. by apply startswith_other. }
  rewrite app_cons, !startswith_cons.
  case_bool_decide; [|done]. rewrite !andb_true_l.
  destruct b as [|f b].
  { intros _. rewrite app_empty_l. by apply startswith_other. }
  by rewrite app_cons, !startswith_cons, !startswith_empty.
Qed.

Lemma search_plain_body (b rest : string) :
  plain_body b →
  rest = EmptyString ∨ Py.startswith rest Py.nl = true →
  search (b +:+ rest) =
  match search rest with
  | Some (b', g, r) => Some (b +:+ b', g, r)
  | None => None
  end.
Proof.
  unfold plain_body, Py.contains. intros Hb Hrest.
  induction b as [|c b IH].
  - rewrite app_empty_l. by destruct (search rest) as [[[??]?]|].
  - rewrite find_unfold in Hb.
    destruct (Py.startswith (String c b) (Py.nl +:+ "- ")) eqn:E; [done|].
    destruct (Py.find (Py.nl +:+ "- ") b) as [[??]|] eqn:F; [done|].
    rewrite search_unfold, no_match_in_plain_body by done.
    rewrite app_cons, IH by done.
    by destruct (search rest) as [[[??]?]|].
Qed.

Lemma search_marker (h r : string) :
  plain_header h → search (marker h +:+ r) = Some (EmptyString, h, r).
Proof.
  intros Hh. by rewrite search_unfold, match_line_pattern_marker.
Qed.

Lemma marker_starts_with_newline (h r : string) :
  Py.startswith (marker h +:+ r) Py.nl = true.
Proof. unfold marker. rewrite !app_assoc_string. apply startswith_app. Qed.

Lemma search_empty : search EmptyString = None.
Proof. reflexivity. Qed.

(** Splitting what [unsplit] put together gives the groups back. *)
Lemma re_split_unsplit (groups : list string) :
  well_formed groups → re_split (unsplit groups) = groups.
Proof.
  induction groups as [| b | b h rest IH] using list_pair_ind; [done| |].
  - intros Hb. simpl in *. rewrite re_split_unfold.
    rewrite <- (app_empty_r b) at 1.
    rewrite search_plain_body by auto. by rewrite search_empty.
  - intros (Hb & Hh & Hrest).
    change (unsplit (b :: h :: rest))
      with (b +:+ marker h +:+ unsplit rest).
    rewrite re_split_unfold.
    rewrite search_plain_body
      by (try done; right; apply marker_starts_with_newline).
    rewrite search_marker by done. rewrite app_empty_r.
    by rewrite IH.
Qed.

(** X8: The split cuts a history text at every delimiter: a text put
    together from bodies that hold no marker start and from one-line headers
    splits into exactly these bodies and headers. *)
Theorem history_split_finds_every_delimiter (groups : list string) :
  well_formed groups →
  re_split (unsplit groups) = groups
  ∧ delimiters (unsplit groups) = headers groups.
Proof.
  intros H. unfold delimiters. by rewrite re_split_unsplit.
Qed.

Lemma history_split_finds_every_delimiter_witness :
  well_formed sample_groups
  ∧ re_split (unsplit sample_groups) = sample_groups
  ∧ delimiters (unsplit sample_groups) = ["TRIVIA"; "SERIES"].
Proof.
  assert (H : well_formed sample_groups).
  { repeat split; by vm_compute. }
  split; [exact H|].
  exact (history_split_finds_every_delimiter sample_groups H).
Defined.

Lemma get_dict_set (k v k' : string) (dict : list (string * string)) :
  get (dict_set k v dict) k'
  = if String.eqb k k' then Some v else get dict k'.
Proof.
  induction dict as [|[k0 v0] dict IH]; [done|]. simpl.
  destruct (String.eqb k0 k) eqn:E; simpl.
  - apply String.eqb_eq in E as ->. by destruct (String.eqb k k').
  - rewrite IH. destruct (String.eqb k0 k') eqn:E'; [|done].
    apply String.eqb_eq in E' as ->. by rewrite String.eqb_sym, E.
Qed.

(** A lookup in the dict the assignments build finds the value of the last
    assignment to the key. *)
Lemma get_foldl_assign (kvs dict : list (string * string)) (k : string) :
  get (foldl assign dict kvs) k
  = match last (filter (λ kv, kv.1 = k) kvs) with
    | Some kv => Some kv.2
    | None => get dict k
    end.
Proof.
  induction kvs as [|[k' v] kvs IH] using rev_ind; [done|].
  rewrite foldl_app, filter_app. simpl. unfold assign at 1. simpl.
  rewrite get_dict_set, IH.
  destruct (String.eqb k' k) eqn:E.
  - apply String.eqb_eq in E as ->.
    rewrite filter_cons_True, filter_nil by done. by rewrite last_snoc.
  - apply String.eqb_neq in E.
    rewrite filter_cons_False, filter_nil by done. by rewrite app_nil_r.
Qed.

(** X9: Every getter of a history entry reads the body behind the last
    delimiter that carries its header: of the bodies of a repeated header
    only the last one can be read, and a header that no delimiter carries
    reads as [None]. *)
Theorem section_getter_reads_the_last_body (text k : string) :
  get (sections (init text)) k
  = snd <$> last (filter (λ kv, kv.1 = k)
                    (assignments EmptyString (re_split text))).
Proof.
  unfold init, parse_info_sections. simpl.
  rewrite loop_assignments by done. rewrite get_foldl_assign.
  by destruct (last _).
Qed.

(** The assignments to the empty key: the first one only, as no header is
    empty. *)
Lemma filter_lead (groups : list string) (section : string) :
  section ≠ EmptyString →
  Forall (λ h, h ≠ EmptyString) (headers groups) →
  filter (λ kv, kv.1 = EmptyString) (assignments section groups) = [].
Proof.
  revert section.
  induction groups as [| b | b h rest IH] using list_pair_ind;
    intros section Hs Hh.
  - done.
  - unfold assignments. simpl. by rewrite filter_cons_False.
  - rewrite assignments_step. rewrite filter_cons_False by done.
    change (headers (b :: h :: rest)) with (h :: headers rest) in Hh.
    apply Forall_cons in Hh as [Hh Hrest]. by apply IH.
Qed.

(** X10: The branch of [_start] for an entry without a lead-in is never
    taken: the split has a first element, the text before the first
    delimiter, and the entry keeps it, stripped, under the empty key, so
    that an entry always has a description. *)
Theorem history_entry_always_has_a_lead_in (text : string) :
  ∃ b rest,
    re_split text = b :: rest
    ∧ text = unsplit (b :: rest)
    ∧ get (sections (init text)) EmptyString = Some (Py.strip b)
    ∧ description (init text) ≠ None.
Proof.
  destruct (split_fuel_spec (String.length text) text) as (Hu & Hl & _ & Hh);
    [done|].
  fold (re_split text) in Hu, Hl, Hh.
  assert (Hget : ∀ b rest, re_split text = b :: rest →
            get (sections (init text)) EmptyString = Some (Py.strip b)).
  { intros b rest E. unfold init, parse_info_sections. simpl.
    rewrite loop_assignments by done. rewrite get_foldl_assign.
    rewrite E in *. destruct rest as [|h rest].
    - done.
    - rewrite assignments_step. rewrite filter_cons_True by done.
      change (headers (b :: h :: rest)) with (h :: headers rest) in Hh.
      apply Forall_cons in Hh as [Hh Hrest].
      by rewrite filter_lead. }
  destruct (re_split text) as [|b rest] eqn:E; [simpl in Hl; lia|].
  exists b, rest. repeat split; [done|by eapply Hget|].
  unfold description, _start. rewrite (Hget b rest) by done.
  by destruct (_start_line_pattern _) as [[[??]?]|].
Qed.

Lemma match_age_unfold (c : ascii) (s : string) :
  match_age (String c s) =
  if Ascii.eqb c Py.newline then None
  else
    match match_age s with
    | Some (a, r) => Some (String c a, r)
    | None =>
        if Py.startswith s " years ago:"
        then Some (String c EmptyString, Py.drop 11 s)
        else None
    end.
Proof. reflexivity. Qed.

Lemma _start_line_pattern_unfold (c : ascii) (s : string) :
  _start_line_pattern (String c s) =
  if Ascii.eqb c Py.newline then None
  else
    match _start_line_pattern s with
    | Some (t, a, r) => Some (String c t, a, r)
    | None =>
        if Py.startswith s " published " then
          match match_age (Py.drop 11 s) with
          | Some (a, r) => Some (String c EmptyString, a, r)
          | None => None
          end
        else None
    end.
Proof. reflexivity. Qed.

Lemma match_age_spec (s a r : string) :
  match_age s = Some (a, r) →
  s = a +:+ " years ago:" +:+ r ∧ a ≠ EmptyString ∧ no_newline a = true.
Proof.
  revert a r. induction s as [|c s IH]; intros a r; [done|].
  rewrite match_age_unfold.
  destruct (Ascii.eqb c Py.newline) eqn:Ec; [done|].
  destruct (match_age s) as [[a' r']|].
  - intros [= <- <-]. destruct (IH a' r' eq_refl) as (-> & _ & Hnl).
    rewrite app_cons. simpl. by rewrite Ec.
  - destruct (Py.startswith s " years ago:") eqn:E; [|done].
    intros [= <- <-]. apply startswith_drop in E.
    rewrite app_cons, app_empty_l. simpl. rewrite Ec.
    repeat split; [|done]. by rewrite E at 1.
Qed.

Lemma _start_line_pattern_spec (s t a r : string) :
  _start_line_pattern s = Some (t, a, r) →
  s = t +:+ " published " +:+ a +:+ " years ago:" +:+ r
  ∧ t ≠ EmptyString ∧ no_newline t = true
  ∧ a ≠ EmptyString ∧ no_newline a = true.
Proof.
  revert t a r. induction s as [|c s IH]; intros t a r; [done|].
  rewrite _start_line_pattern_unfold.
  destruct (Ascii.eqb c Py.newline) eqn:Ec; [done|].
  destruct (_start_line_pattern s) as [[[t' a'] r']|].
  - intros [= <- <- <-].
    destruct (IH t' a' r' eq_refl) as (-> & _ & Hnl & Ha & Hnla).
    rewrite app_cons. simpl. by rewrite Ec.
  - destruct (Py.startswith s " published ") eqn:E; [|done].
    destruct (match_age (Py.drop 11 s)) as [[a' r']|] eqn:Ea; [|done].
    intros [= <- <- <-]. apply startswith_drop in E.
    apply match_age_spec in Ea as (Ea & Hne & Hnl).
    rewrite app_cons, app_empty_l. simpl. rewrite Ec.
    repeat split; try done. rewrite E at 1. by rewrite <- Ea.
Qed.

(** X11: When an entry has a type, its lead-in starts with the type, the
    word [published], the age and [years ago:], in this order and on one
    line; the description is what follows, without the character next to the
    colon, whatever it is, and stripped. *)
Theorem entry_type_and_age_are_cut_from_the_lead_in
    (self : HistoryEntry) (type : string) :
  entry_type self = Some type →
  ∃ lead age rest,
    get (sections self) EmptyString = Some lead
    ∧ lead = type +:+ " published " +:+ age +:+ " years ago:" +:+ rest
    ∧ (_start self).1.2 = Some age
    ∧ description self = Some (Py.strip (Py.drop 1 rest))
    ∧ type ≠ EmptyString ∧ no_newline type = true
    ∧ age ≠ EmptyString ∧ no_newline age = true.
Proof.
  unfold entry_type, description, _start.
  destruct (get (sections self) EmptyString) as [lead|]; [|done].
  destruct (_start_line_pattern lead) as [[[t a] r]|] eqn:E; [|done].
  intros [= <-]. exists lead, a, r.
  apply _start_line_pattern_spec in E as (? & ? & ? & ? & ?).
  by repeat split.
Qed.

Lemma entry_type_and_age_are_cut_from_the_lead_in_witness :
  entry_type (init (unsplit sample_groups)) = Some "Arcade Video game"
  ∧ ∃ lead age rest,
      get (sections (init (unsplit sample_groups))) EmptyString = Some lead
      ∧ lead = "Arcade Video game" +:+ " published " +:+ age
               +:+ " years ago:" +:+ rest
      ∧ (_start (init (unsplit sample_groups))).1.2 = Some age
      ∧ description (init (unsplit sample_groups))
        = Some (Py.strip (Py.drop 1 rest))
      ∧ "Arcade Video game" ≠ EmptyString
      ∧ no_newline "Arcade Video game" = true
      ∧ age ≠ EmptyString ∧ no_newline age = true.
Proof.
  assert (H : entry_type (init (unsplit sample_groups))
              = Some "Arcade Video game") by by vm_compute.
  split; [exact H|].
  exact (entry_type_and_age_are_cut_from_the_lead_in _ _ H).
Defined.

Lemma get_app (l1 l2 : list (string * string)) (k : string) :
  get (l1 ++ l2)%list k
  = match get l1 k with Some v => Some v | None => get l2 k end.
Proof.
  induction l1 as [|[k' v] l1 IH]; [done|]. simpl.
  by destruct (String.eqb k' k).
Qed.

Lemma get_constant (l : list string) (t k : string) :
  get ((λ system, (system, t)) <$> l) k
  = if bool_decide (k ∈ l) then Some t else None.
Proof.
  induction l as [|x l IH]; [done|]. rewrite fmap_cons. cbn [get].
  rewrite IH. destruct (String.eqb x k) eqn:E.
  - apply String.eqb_eq in E as ->. rewrite bool_decide_eq_true_2; [done|].
    by left.
  - apply String.eqb_neq in E.
    rewrite (bool_decide_ext (k ∈ x :: l) (k ∈ l)); [done|].
    rewrite elem_of_cons. split; [by intros [->|?]|by right].
Qed.

Lemma first_history_unfold (entry : HistoryEntryElement)
    (rest : list HistoryEntryElement) (basename : string) :
  first_history (entry :: rest) basename =
  match text entry with
  | Some t =>
      if Py.truthy t && bool_decide (basename ∈ systems entry)
      then Some t
      else first_history rest basename
  | None => first_history rest basename
  end.
Proof. reflexivity. Qed.

Lemma get_system_histories (set_iter : gset string → list string)
    (xml : list HistoryEntryElement) (basename : string) :
  Cats.iteration_order set_iter →
  get (iter_system_histories set_iter xml) basename
  = first_history xml basename.
Proof.
  intros Hiter. induction xml as [|entry xml IH]; [done|].
  rewrite first_history_unfold. unfold iter_system_histories in *.
  rewrite bind_cons, get_app, IH.
  destruct (text entry) as [t|]; [|done].
  destruct (Py.truthy t); [|done]. rewrite get_constant, andb_true_l.
  rewrite (bool_decide_ext (basename ∈ set_iter (systems entry))
             (basename ∈ systems entry)).
  - by destruct (bool_decide _).
  - by rewrite (Hiter (systems entry)), elem_of_elements.
Qed.

(** X12: The history of a system does not depend on the order in which the
    sets of system names are iterated: it is the entry of the first element,
    in the order of the file, that has a text and names the system. *)
Theorem get_history_is_the_first_entry_of_the_file
    (set_iter : gset string → list string)
    (xml : list HistoryEntryElement) (basename : string) :
  Cats.iteration_order set_iter →
  get_history (db_init set_iter xml) basename
  = init <$> first_history xml basename.
Proof.
  intros Hiter. unfold get_history, db_init. simpl.
  by rewrite get_system_histories.
Qed.

Lemma get_history_is_the_first_entry_of_the_file_witness :
  Cats.iteration_order (λ s, reverse (elements s))
  ∧ get_history (db_init (λ s, reverse (elements s)) sample_xml) "puckman"
    = Some (init "Arcade published 45 years ago: Eat the dots.").
Proof.
  assert (H : Cats.iteration_order (λ s, reverse (elements s))).
  { intros s. apply reverse_Permutation. }
  split; [exact H|].
  by rewrite (get_history_is_the_first_entry_of_the_file _ sample_xml _ H).
Defined.



End HistoryEntryFacts.

(** ** Category files *)

Section CatLinesFacts.

Import Cats CatLines.

Lemma holds_nil (section basename : string) : ¬ holds [] section basename.
Proof. intros (names & H & _). by apply elem_of_nil in H. Qed.

Lemma holds_cons (k : string) (names : gset string) (d : CatMapping)
    (section basename : string) :
  holds ((k, names) :: d) section basename
  ↔ (k = section ∧ basename ∈ names) ∨ holds d section basename.
Proof.
  unfold holds. split.
  - intros (names' & [[= <- <-]|H]%elem_of_cons & Hb); [by left|].
    right. by exists names'.
  - intros [[<- Hb]|(names' & H & Hb)].
    + exists names. split; [by left|done].
    + exists names'. split; [by right|done].
Qed.

Lemma add_to_section_holds (s l : string) (d : CatMapping)
    (section basename : string) :
  holds (add_to_section s l d) section basename
  ↔ (s = section ∧ l = basename) ∨ holds d section basename.
Proof.
  induction d as [|[k names] d IH]; simpl.
  - rewrite holds_cons, elem_of_singleton. intuition congruence.
  - destruct (String.eqb k s) eqn:E.
    + apply String.eqb_eq in E as ->.
      rewrite !holds_cons, elem_of_union, elem_of_singleton.
      intuition congruence.
    + apply String.eqb_neq in E. rewrite !holds_cons, IH. tauto.
Qed.

Lemma header_is_no_comment (line : string) :
  Py.startswith line "[" = true → Py.startswith line ";" = false.
Proof.
  destruct line as [|c line]; [done|].
  rewrite (startswith_cons c "["), (startswith_cons c ";").
  by intros [<-%bool_decide_eq_true _]%andb_true_iff.
Qed.

Lemma step_current (d : CatMapping) (cur : option string) (raw : string) :
  (step (d, cur) raw).2
  = if is_header raw then Some (section_name raw) else cur.
Proof.
  unfold step, is_header, section_name.
  destruct (Py.startswith (Py.strip raw) "[") eqn:E.
  - by rewrite header_is_no_comment.
  - destruct (Py.startswith (Py.strip raw) ";"); [done|].
    destruct cur as [s|]; [|done]. by destruct (Py.truthy s).
Qed.

Lemma truthy_iff (s : string) : Py.truthy s = true ↔ s ≠ EmptyString.
Proof. by destruct s. Qed.

Lemma step_holds (d : CatMapping) (cur : option string) (raw : string)
    (section basename : string) :
  holds (step (d, cur) raw).1 section basename
  ↔ holds d section basename
    ∨ (is_entry raw = true ∧ cur = Some section ∧ section ≠ EmptyString
       ∧ Py.strip raw = basename).
Proof.
  unfold step, is_entry.
  destruct (Py.startswith (Py.strip raw) ";"); simpl;
    [intuition congruence|].
  destruct (Py.startswith (Py.strip raw) "["); simpl;
    [intuition congruence|].
  destruct cur as [s|]; simpl; [|intuition congruence].
  destruct (Py.truthy s) eqn:E; simpl.
  - apply truthy_iff in E. rewrite add_to_section_holds.
    intuition congruence.
  - assert (s = EmptyString) as -> by by destruct s. intuition congruence.
Qed.

Lemma foldl_no_header (lines : list string)
    (st : CatMapping * option string) :
  Forall (λ raw, is_header raw = false) lines →
  (foldl step st lines).2 = st.2.
Proof.
  revert st. induction lines as [|raw lines IH]; intros [d cur] H; [done|].
  apply Forall_cons in H as [Hraw H]. cbn [foldl].
  rewrite IH by done. by rewrite step_current, Hraw.
Qed.

Lemma foldl_holds_mono (lines : list string)
    (st : CatMapping * option string) (section basename : string) :
  holds st.1 section basename →
  holds (foldl step st lines).1 section basename.
Proof.
  revert st. induction lines as [|raw lines IH]; intros [d cur] H; [done|].
  cbn [foldl]. apply IH. apply step_holds. by left.
Qed.

(** The section that is open after some lines is the one of their last
    header. *)
Lemma foldl_current (lines : list string) (section : string) :
  (foldl step ([], None) lines).2 = Some section →
  ∃ before header between,
    lines = (before ++ header :: between)%list
    ∧ is_header header = true
    ∧ section_name header = section
    ∧ Forall (λ raw, is_header raw = false) between.
Proof.
  induction lines as [|raw lines IH] using rev_ind; [done|].
  rewrite foldl_app. cbn [foldl].
  destruct (foldl step ([], None) lines) as [d cur].
  rewrite step_current. destruct (is_header raw) eqn:E.
  - intros [= <-]. by exists lines, raw, [].
  - intros H. destruct (IH H) as (before & header & between & -> & ? & ? & ?).
    exists before, header, (between ++ [raw])%list.
    rewrite <- app_assoc. repeat split; try done.
    apply Forall_app. split; [done|]. by constructor.
Qed.

Lemma parse_holds_listed (lines : list string) (section basename : string) :
  holds (parse_mame_cat_ini lines) section basename
  ↔ listed lines section basename.
Proof.
  unfold parse_mame_cat_ini. split.
  - induction lines as [|raw lines IH] using rev_ind.
    { intros H. by apply holds_nil in H. }
    rewrite foldl_app. cbn [foldl].
    pose proof (foldl_current lines section) as Hcur.
    destruct (foldl step ([], None) lines) as [d cur].
    intros [H|(Hentry & -> & Hs & Hb)]%step_holds.
    + destruct (IH H)
        as (before & header & between & entry & after & -> & Hrest).
      exists before, header, between, entry, (after ++ [raw])%list.
      split; [|done]. by rewrite <- !app_assoc, <- !app_comm_cons,
        <- !app_assoc, <- !app_comm_cons.
    + destruct (Hcur eq_refl) as (before & header & between & -> & ? & ? & ?).
      exists before, header, between, raw, [].
      split; [|done]. by rewrite <- !app_assoc, <- !app_comm_cons.
  - intros (before & header & between & entry & after & -> & Hh & Hs & Hne
            & Hbetween & He & Hb).
    rewrite foldl_app. cbn [foldl]. rewrite foldl_app. cbn [foldl].
    apply foldl_holds_mono.
    pose proof (foldl_no_header between
                  (step (foldl step ([], None) before) header) Hbetween)
      as Hcur.
    destruct (foldl step ([], None) before) as [d0 cur0].
    rewrite step_current, Hh, Hs in Hcur.
    destruct (foldl step (step (d0, cur0) header) between) as [d cur].
    simpl in Hcur. subst cur. apply step_holds. by right.
Qed.

(** The sections of a parsed file are pairwise distinct, none of them has
    the empty name and none of them is empty. *)
Lemma add_to_section_keys (s l : string) (d : CatMapping) :
  (add_to_section s l d).*1
  = if bool_decide (s ∈ d.*1) then d.*1 else (d.*1 ++ [s])%list.
Proof.
  induction d as [|[k names] d IH]; [done|]. cbn [add_to_section].
  destruct (String.eqb k s) eqn:E.
  - apply String.eqb_eq in E as ->. rewrite !fmap_cons. simpl.
    rewrite bool_decide_eq_true_2; [done|]. by left.
  - apply String.eqb_neq in E. rewrite !fmap_cons, IH. cbn [fst].
    rewrite (bool_decide_ext (s ∈ k :: d.*1) (s ∈ d.*1)).
    + by destruct (bool_decide _).
    + rewrite elem_of_cons. split; [by intros [->|?]|by right].
Qed.

Lemma add_to_section_nonempty (s l : string) (d : CatMapping) :
  s ≠ EmptyString →
  Forall (λ kv, kv.1 ≠ EmptyString ∧ kv.2 ≠ ∅) d →
  Forall (λ kv, kv.1 ≠ EmptyString ∧ kv.2 ≠ ∅) (add_to_section s l d).
Proof.
  intros Hs. induction d as [|[k names] d IH]; intros H; simpl.
  - constructor; [|done]. simpl. split; [done|].
    apply non_empty_singleton_L.
  - apply Forall_cons in H as [[Hk Hn] H]. destruct (String.eqb k s).
    + constructor; [|done]. simpl. split; [done|].
      intros Hempty. apply (not_elem_of_empty (C:=gset string) l).
      rewrite <- Hempty. apply elem_of_union_l. by apply elem_of_singleton.
    + constructor; [done|]. by apply IH.
Qed.

Lemma step_well_shaped (st : CatMapping * option string) (raw : string) :
  well_shaped st.1 → well_shaped (step st raw).1.
Proof.
  destruct st as [d cur]. unfold step. simpl.
  destruct (Py.startswith (Py.strip raw) ";"); [done|].
  destruct (Py.startswith (Py.strip raw) "["); [done|].
  destruct cur as [s|]; [|done].
  destruct (Py.truthy s) eqn:E; [|done]. apply truthy_iff in E.
  intros [Hnd Hall]. simpl. split.
  - rewrite add_to_section_keys. case_bool_decide; [done|].
    apply NoDup_app. repeat split; [done| |apply NoDup_singleton].
    intros x Hx ->%list_elem_of_singleton. done.
  - by apply add_to_section_nonempty.
Qed.

Lemma parse_well_shaped (lines : list string) :
  well_shaped (parse_mame_cat_ini lines).
Proof.
  unfold parse_mame_cat_ini.
  induction lines as [|raw lines IH] using rev_ind.
  - split; [constructor|done].
  - rewrite foldl_app. cbn [foldl]. by apply step_well_shaped.
Qed.

(** X13: A category file maps a section to a basename exactly when a header
    of that name, which is not empty, is followed by a line that reads the
    basename and is neither a comment nor a header, with no other header in
    between. The name of a section is its header without the first and the
    last character, whatever the last one is, and a blank line inside a
    section lists the empty basename. *)
Theorem get_cats_finds_what_the_file_lists (self : CategoryFolder)
    (cat_name : string) (lines : list string) (section basename : string) :
  cats self !! cat_name = Some (parse_mame_cat_ini lines) →
  section ∈ get_cats self cat_name basename
  ↔ listed lines section basename.
Proof.
  intros Hcat. rewrite get_cats_matching. unfold matching_sections.
  rewrite Hcat, elem_of_list_to_set, <- parse_holds_listed.
  rewrite list_elem_of_fmap. unfold holds. split.
  - intros ([k names] & -> & [Hb H]%list_elem_of_filter). by exists names.
  - intros (names & H & Hb). exists (section, names). split; [done|].
    by apply list_elem_of_filter.
Qed.

Lemma get_cats_finds_what_the_file_lists_witness :
  cats sample_folder !! "genre" = Some (parse_mame_cat_ini sample_lines)
  ∧ ("Maze" ∈ get_cats sample_folder "genre" EmptyString
     ↔ listed sample_lines "Maze" EmptyString)
  ∧ ("Arcad" ∈ get_cats sample_folder "genre" "dkong"
     ↔ listed sample_lines "Arcad" "dkong").
Proof.
  assert (H : cats sample_folder !! "genre"
              = Some (parse_mame_cat_ini sample_lines)) by done.
  split; [exact H|]. split.
  - exact (get_cats_finds_what_the_file_lists _ _ _ "Maze" EmptyString H).
  - exact (get_cats_finds_what_the_file_lists _ _ _ "Arcad" "dkong" H).
Defined.

(** X14: In the mapping read from a category file no section comes twice,
    none has the empty name and none is without a basename. *)
Theorem parsed_sections_are_distinct_and_inhabited (lines : list string) :
  NoDup (parse_mame_cat_ini lines).*1
  ∧ Forall (λ kv, kv.1 ≠ EmptyString ∧ kv.2 ≠ ∅) (parse_mame_cat_ini lines).
Proof. apply parse_well_shaped. Qed.

Lemma list_to_set_empty_inv (l : list string) :
  list_to_set (C:=gset string) l = ∅ → l = [].
Proof.
  destruct l as [|x l]; [done|]. intros H. exfalso.
  apply (not_elem_of_empty (C:=gset string) x). rewrite <- H.
  apply elem_of_list_to_set. by left.
Qed.

(** X15: The single-valued query answers [None], without a warning, exactly
    when no section lists the basename. Otherwise its answer is one of the
    sections that list it, whatever the iteration order, and the warning is
    logged exactly when another section lists it as well. *)
Theorem get_cat_warns_iff_another_section_matches
    (set_iter : gset string → list string) (self : CategoryFolder)
    (cat_name basename : string) :
  iteration_order set_iter →
  match get_cat set_iter self cat_name basename with
  | (None, warned) =>
      warned = false ∧ matching_sections self cat_name basename = []
  | (Some section, warned) =>
      section ∈ matching_sections self cat_name basename
      ∧ (warned = true
         ↔ ∃ other, other ∈ matching_sections self cat_name basename
                    ∧ other ≠ section)
  end.
Proof.
  intros Hiter. unfold get_cat. rewrite get_cats_matching.
  set (l := matching_sections self cat_name basename).
  case_bool_decide as Hempty.
  { split; [done|]. by apply list_to_set_empty_inv. }
  assert (Hin : ∀ x, x ∈ set_iter (list_to_set l) ↔ x ∈ l).
  { intros x. by rewrite (Hiter _), elem_of_elements, elem_of_list_to_set. }
  destruct (set_iter (list_to_set l)) as [|s rest] eqn:E.
  { exfalso. apply Hempty. specialize (Hiter (list_to_set l)).
    rewrite E in Hiter. symmetry in Hiter.
    apply Permutation_nil_r in Hiter.
    by apply elements_empty_inv, leibniz_equiv in Hiter. }
  assert (Hs : s ∈ l) by (apply Hin; by left).
  simpl. split; [done|]. rewrite bool_decide_eq_true. split.
  - intros Hsize.
    assert (Hsub : ({[ s ]} : gset string) ⊆ list_to_set l).
    { apply singleton_subseteq_l. by apply elem_of_list_to_set. }
    pose proof (size_difference (list_to_set l) {[ s ]} Hsub) as Hd.
    rewrite size_singleton in Hd.
    destruct (size_pos_elem_of ((list_to_set l : gset string) ∖ {[ s ]}))
      as [x Hx]; [lia|].
    apply elem_of_difference in Hx as [Hx Hne].
    exists x. split; [by apply elem_of_list_to_set in Hx|].
    by rewrite elem_of_singleton in Hne.
  - intros (other & Hother & Hne).
    assert (Hsub : ({[ s; other ]} : gset string) ⊆ list_to_set l).
    { apply union_least; apply singleton_subseteq_l;
        by apply elem_of_list_to_set. }
    apply subseteq_size in Hsub. rewrite size_union in Hsub.
    + by rewrite !size_singleton in Hsub.
    + apply disjoint_singleton_l. by rewrite elem_of_singleton.
Qed.

Lemma get_cat_warns_iff_another_section_matches_witness :
  iteration_order elements
  ∧ ∃ section,
      get_cat elements Samples.folder "catlist" "pacman"
      = (Some section, true)
      ∧ section ∈ matching_sections Samples.folder "catlist" "pacman"
      ∧ ∃ other, other ∈ matching_sections Samples.folder "catlist" "pacman"
                 ∧ other ≠ section.
Proof.
  assert (H : iteration_order elements) by by intros s.
  split; [exact H|].
  pose proof (get_cat_warns_iff_another_section_matches
                elements Samples.folder "catlist" "pacman" H) as Hcat.
  destruct (get_cat elements Samples.folder "catlist" "pacman")
    as [[section|] warned] eqn:E; [|by vm_compute in E].
  assert (warned = true) as -> by (by vm_compute in E; simplify_eq).
  exists section. destruct Hcat as [Hin Hwarn].
  split; [done|]. split; [done|]. by apply Hwarn.
Defined.

End CatLinesFacts.

(** ** Dat files *)

Section DatBlockFacts.

Import Dat DatBlocks.

Lemma split1_index1 (line : string) :
  Py.index (Py.split1 "=" line) 1
  = match Py.find "=" line with
    | Some (_, r) => Ok r
    | None => Raise IndexError
    end.
Proof. unfold Py.split1. by destruct (Py.find "=" line) as [[??]|]. Qed.

Lemma step_lacks_equals (st : state) (raw : string) :
  lacks_equals raw = true → step st raw = Raise IndexError.
Proof.
  unfold lacks_equals, step, Py.contains.
  intros [-> Hfind%negb_true_iff]%andb_true_iff.
  rewrite split1_index1. by destruct (Py.find "=" (Py.strip raw)).
Qed.

Lemma step_has_equals (st : state) (raw : string) :
  lacks_equals raw = false → returns (step st raw).
Proof.
  unfold lacks_equals, step, Py.contains. intros H.
  destruct (Py.startswith (Py.strip raw) "$info").
  - rewrite split1_index1.
    destruct (Py.find "=" (Py.strip raw)) as [[??]|]; [|done].
    by eexists.
  - destruct (current_name st) as [n|]; [|by eexists].
    destruct (Py.truthy n); [|by eexists].
    destruct (String.eqb _ _); by eexists.
Qed.

Lemma run_raises (lines : list string) (st : state) :
  Exists (λ raw, lacks_equals raw = true) lines →
  run st lines = Raise IndexError.
Proof.
  revert st. induction lines as [|raw lines IH]; intros st H.
  { by apply Exists_nil in H. }
  simpl. destruct (lacks_equals raw) eqn:E.
  - by rewrite step_lacks_equals.
  - destruct (step_has_equals st raw E) as [st' ->]. simpl.
    apply IH. by apply Exists_cons in H as [H|H]; [congruence|].
Qed.

Lemma run_returns (lines : list string) (st : state) :
  Forall (λ raw, lacks_equals raw = false) lines →
  returns (run st lines).
Proof.
  revert st. induction lines as [|raw lines IH]; intros st H.
  { by eexists. }
  apply Forall_cons in H as [Hraw H]. simpl.
  destruct (step_has_equals st raw Hraw) as [st' ->]. simpl. by apply IH.
Qed.

(** X16: The parser fails exactly when some header line has no [=], wherever
    it stands, and then with [IndexError]; every lookup in such a file fails
    too, also for the names that are declared before that line. *)
Theorem dat_parser_raises_iff_a_header_lacks_equals (lines : list string) :
  (_parse_dat_raw lines = Raise IndexError
   ↔ Exists (λ raw, lacks_equals raw = true) lines)
  ∧ (returns (_parse_dat_raw lines)
     ↔ Forall (λ raw, lacks_equals raw = false) lines)
  ∧ (Exists (λ raw, lacks_equals raw = true) lines →
     ∀ basename, get_dat_info lines basename = Raise IndexError).
Proof.
  assert (Hdec : Forall (λ raw, lacks_equals raw = false) lines
                 ∨ Exists (λ raw, lacks_equals raw = true) lines).
  { induction lines as [|raw lines [IH|IH]]; [by left| |].
    - destruct (lacks_equals raw) eqn:E.
      + right. by left.
      + left. by constructor.
    - right. by right. }
  unfold get_dat_info, _parse_dat_raw. split; [|split].
  - split; [|intros H; by rewrite run_raises].
    destruct Hdec as [H|H]; [|done].
    by destruct (run_returns lines initial H) as [st ->].
  - split; [|intros H; destruct (run_returns lines initial H) as [st ->];
              by eexists].
    destruct Hdec as [H|H]; [done|].
    rewrite run_raises by done. by intros [? ?].
  - intros H basename. by rewrite run_raises.
Qed.

Lemma block_more (lines : list string) (raw name v : string) :
  block lines name v → block (lines ++ [raw]) name v.
Proof.
  intros (before & header & body & end_ & after & -> & H).
  exists before, header, body, end_, (after ++ [raw])%list.
  split; [|done].
  by rewrite <- !app_assoc, <- !app_comm_cons, <- !app_assoc,
    <- !app_comm_cons.
Qed.

Lemma run_snoc (st : state) (lines : list string) (raw : string) :
  run st (lines ++ [raw]) = st' ← run st lines; step st' raw.
Proof.
  rewrite run_app. destruct (run st lines) as [st'|]; [|done]. simpl.
  by destruct (step st' raw).
Qed.

Lemma step_invariant (lines : list string) (st st' : state) (raw : string) :
  invariant lines st → step st raw = Ok st' →
  invariant (lines ++ [raw]) st'.
Proof.
  intros [Hd Hcur]. unfold step.
  destruct (Py.startswith (Py.strip raw) "$info") eqn:Hinfo.
  { destruct (Py.index _ 1) as [n|] eqn:Hn; [|done]. intros [= <-].
    split; simpl.
    - intros name v Hv. destruct (Hd name v Hv). split; [done|].
      by apply block_more.
    - intros name [= <-] _. exists lines, raw, []. repeat split; [|done].
      unfold header_name. by rewrite Hinfo, Hn. }
  assert (Hsame : invariant (lines ++ [raw]) st
                  ∨ ∃ n, current_name st = Some n ∧ n ≠ EmptyString).
  { destruct (current_name st) as [n|] eqn:Hc.
    - destruct n; [|right; by eexists]. left. split.
      + intros name v Hv. destruct (Hd name v Hv). split; [done|].
        by apply block_more.
      + intros name Hname. rewrite Hc in Hname. by injection Hname as <-.
    - left. split; [|intros name Hname; congruence].
      intros name v Hv. destruct (Hd name v Hv). split; [done|].
      by apply block_more. }
  destruct (current_name st) as [n|] eqn:Hc; [|by intros [= <-];
    destruct Hsame as [?|(? & ? & ?)]].
  destruct (Py.truthy n) eqn:Ht; [|by intros [= <-];
    destruct Hsame as [?|(? & [= <-] & ?)]; [|by destruct n]].
  apply truthy_iff in Ht. clear Hsame.
  destruct (Hcur n eq_refl Ht)
    as (before & header & body & -> & Hh & Hbody & Hinfo').
  destruct (String.eqb (Py.strip raw) "$end") eqn:Hend; intros [= <-].
  - apply String.eqb_eq in Hend. split; simpl; [|done].
    intros name v. destruct (decide (n = name)) as [<-|Hne].
    + rewrite lookup_insert_eq. intros [= <-]. split; [done|].
      exists before, header, body, raw, [].
      rewrite <- app_assoc, <- app_comm_cons. by rewrite Hinfo'.
    + rewrite lookup_insert_ne by done. intros Hv.
      destruct (Hd name v Hv). split; [done|]. by apply block_more.
  - apply String.eqb_neq in Hend. split; simpl.
    + intros name v Hv. destruct (Hd name v Hv). split; [done|].
      by apply block_more.
    + intros name [= <-] _. exists before, header, (body ++ [raw])%list.
      rewrite <- app_assoc, <- app_comm_cons. repeat split; [done| |].
      * apply Forall_app. split; [done|]. by repeat constructor.
      * by rewrite Hinfo', fmap_app.
Qed.

Lemma run_invariant (lines : list string) (st : state) :
  run initial lines = Ok st → invariant lines st.
Proof.
  revert st. induction lines as [|raw lines IH] using rev_ind; intros st.
  - intros [= <-]. split; [|done]. intros name v Hv.
    change (d initial) with (∅ : gmap string string) in Hv.
    by rewrite lookup_empty in Hv.
  - rewrite run_snoc. destruct (run initial lines) as [st0|]; [|done].
    simpl. by apply step_invariant, IH.
Qed.

(** X17: Every text a lookup returns is the text of a closed block of the
    file: the name is not empty, a header declares it, only content lines
    stand between the header and [$end], and the text is these lines,
    stripped, without the first of them, joined by newlines. A block that is
    not closed, or one whose name is empty, is never returned. *)
Theorem dat_info_is_the_text_of_a_closed_block
    (lines : list string) (name v : string) :
  get_dat_info lines name = Ok (Some v) →
  name ≠ EmptyString
  ∧ ∃ before header body end_ after,
      lines = (before ++ header :: body ++ end_ :: after)%list
      ∧ header_name header = Some (Ok name)
      ∧ Forall is_content body
      ∧ Py.strip end_ = "$end"
      ∧ v = Py.join Py.nl (tail (Py.strip <$> body)).
Proof.
  unfold get_dat_info, _parse_dat_raw.
  destruct (run initial lines) as [st|] eqn:E; [|done]. simpl.
  intros [= Hv]. by apply (run_invariant lines st E).
Qed.

Lemma dat_info_is_the_text_of_a_closed_block_witness :
  get_dat_info Samples.dat_lines "pacman"
  = Ok (Some ("line 1" +:+ Py.nl +:+ "line 2"))
  ∧ ∃ before header body end_ after,
      Samples.dat_lines = (before ++ header :: body ++ end_ :: after)%list
      ∧ header_name header = Some (Ok "pacman")
      ∧ Forall is_content body
      ∧ Py.strip end_ = "$end"
      ∧ "line 1" +:+ Py.nl +:+ "line 2"
        = Py.join Py.nl (tail (Py.strip <$> body)).
Proof.
  assert (H : get_dat_info Samples.dat_lines "pacman"
              = Ok (Some ("line 1" +:+ Py.nl +:+ "line 2")))
    by by vm_compute.
  split; [exact H|].
  exact (proj2 (dat_info_is_the_text_of_a_closed_block _ _ _ H)).
Defined.

(** X18: The summary of a messinfo entry is the text of the entry up to its
    first line that starts with [DRIVER:], the first line of the text apart;
    it holds no such line itself, and an entry without text has no summary. *)
Theorem messinfo_summary_stops_before_the_driver_line
    (dat_folder : option (list string)) (basename summary : string) :
  get_messinfo_summary dat_folder basename = Ok (Some summary) →
  ∃ lines text,
    dat_folder = Some lines
    ∧ get_dat_info lines basename = Ok (Some text)
    ∧ text ≠ EmptyString
    ∧ Py.contains (Py.nl +:+ "DRIVER:") summary = false
    ∧ (text = summary
       ∨ ∃ rest, text = summary +:+ (Py.nl +:+ "DRIVER:") +:+ rest).
Proof.
  unfold get_messinfo_summary. destruct dat_folder as [lines|]; [|done].
  destruct (get_dat_info lines basename) as [[text|]|] eqn:G; simpl;
    [|done..].
  destruct (Py.truthy text) eqn:Ht; [|done]. apply truthy_iff in Ht.
  assert (Hsep : Py.nl +:+ "DRIVER:" ≠ EmptyString) by by vm_compute.
  unfold Py.split1, Py.contains.
  destruct (Py.find (Py.nl +:+ "DRIVER:") text) as [[a r]|] eqn:E; simpl.
  - intros [= <-]. exists lines, text. split_and!; [done..| |].
    + by rewrite (find_before_free _ _ _ _ Hsep E).
    + right. exists r. by apply find_spec.
  - intros [= <-]. exists lines, text. split_and!; [done..| |].
    + by rewrite E.
    + by left.
Qed.

Lemma messinfo_summary_stops_before_the_driver_line_witness :
  get_messinfo_summary (Some messinfo_lines) "coleco"
  = Ok (Some ("ColecoVision" +:+ Py.nl +:+ "A console."))
  ∧ ∃ lines text,
      Some messinfo_lines = Some lines
      ∧ get_dat_info lines "coleco" = Ok (Some text)
      ∧ text ≠ EmptyString
      ∧ Py.contains (Py.nl +:+ "DRIVER:")
          ("ColecoVision" +:+ Py.nl +:+ "A console.") = false
      ∧ (text = "ColecoVision" +:+ Py.nl +:+ "A console."
         ∨ ∃ rest, text = ("ColecoVision" +:+ Py.nl +:+ "A console.")
                          +:+ (Py.nl +:+ "DRIVER:") +:+ rest).
Proof.
  assert (H : get_messinfo_summary (Some messinfo_lines) "coleco"
              = Ok (Some ("ColecoVision" +:+ Py.nl +:+ "A console.")))
    by by vm_compute.
  split; [exact H|].
  exact (messinfo_summary_stops_before_the_driver_line _ _ _ H).
Defined.

End DatBlockFacts.

Section DatBlockWitnesses.

Import Dat DatBlocks.

Lemma dat_parser_raises_iff_a_header_lacks_equals_witness :
  Exists (λ raw, lacks_equals raw = true)
    ["$info=pacman"; "$mame"; "text"; "$end"; "$info"]
  ∧ get_dat_info ["$info=pacman"; "$mame"; "text"; "$end"; "$info"] "pacman"
    = Raise IndexError.
Proof.
  assert (H : Exists (λ raw, lacks_equals raw = true)
                ["$info=pacman"; "$mame"; "text"; "$end"; "$info"]).
  { do 4 apply Exists_cons_tl. by apply Exists_cons_hd. }
  split; [exact H|].
  exact (proj2 (proj2 (dat_parser_raises_iff_a_header_lacks_equals _))
           H "pacman").
Defined.

End DatBlockWitnesses.

(** ** Type and platform of a machine *)

Section MachineKindFacts.

Import Catlist MachineView MachineKind.

Lemma prefix_loop_Some (name p : string) (t : MachineType)
    (items : list (string * MachineType)) :
  prefix_loop name items = Some (p, t) →
  (p, t) ∈ items ∧ Py.startswith name (p +:+ ": ") = true.
Proof.
  induction items as [|[p' t'] items IH]; [done|]. simpl.
  destruct (Py.startswith name (p' +:+ ": ")) eqn:E.
  - intros [= <- <-]. split; [by left|done].
  - intros [Hin Hp]%IH. split; [by right|done].
Qed.

(** The test of [_platform_suffix] never fails: the text is split at the
    very [" ("] that the test before it has found. *)
Lemma suffix_loop_returns (name : string)
    (items : list (string * MachineType)) :
  ∃ r, suffix_loop name items = Ok r
       ∧ ∀ p t, r = Some (p, t) → (p, t) ∈ items.
Proof.
  induction items as [|[p' t'] items (r & IH & Hin)].
  { exists None. by split. }
  simpl. unfold Py.contains at 1, Py.split1.
  destruct (Py.find " (" name) as [[a tail]|].
  - simpl. destruct (Py.contains p' tail).
    + exists (Some (p', t')). split; [done|].
      intros p t [= <- <-]. by left.
    + exists r. split; [done|]. intros p t Hr. right. by apply Hin.
  - exists r. split; [done|]. intros p t Hr. right. by apply Hin.
Qed.

Lemma empty_category_components :
  _components (Catlist.init EmptyString) ≠ ["Electromechanical"].
Proof. by vm_compute. Qed.

Lemma catlist_Some (set_iter : gset string → list string) (self : Machine)
    (c : CatlistCategory) :
  catlist set_iter self = Some c
  ↔ ∃ full, catlist_full set_iter self = Some full
            ∧ full ≠ EmptyString ∧ c = Catlist.init full.
Proof.
  unfold catlist. destruct (catlist_full set_iter self) as [full|].
  - destruct (Py.truthy full) eqn:E.
    + apply truthy_iff in E. split.
      * intros [= <-]. by exists full.
      * by intros (? & [= <-] & _ & ->).
    + assert (full = EmptyString) as -> by by destruct full. split; [done|].
      by intros (? & [= <-] & ? & _).
  - split; [done|]. by intros (? & ? & _).
Qed.

(** X19: [machine_type] of a machine fails on one kind of machine only: one
    whose name carries no platform prefix and no platform suffix, that is
    not a BIOS, and whose category (its own or, for a clone without one, the
    one of its parent) has [Electromechanical] as its only component. A
    platform prefix or suffix and the BIOS flag are read before the
    category. *)
Theorem machine_type_fails_only_on_an_unshielded_category
    (set_iter : gset string → list string) (self : Machine)
    (flags : MachineFlags) :
  raises (MachineKind.machine_type set_iter self flags)
  ↔ _platform_prefix self = None
    ∧ _platform_suffix self = Ok None
    ∧ is_bios flags = false
    ∧ ∃ full, catlist_full set_iter self = Some full
              ∧ _components (Catlist.init full) = ["Electromechanical"].
Proof.
  unfold MachineKind.machine_type, _is_arcade, _platform_suffix.
  destruct (suffix_loop_returns (name self) platform_suffixes)
    as (suffix & -> & _).
  destruct (_platform_prefix self) as [[p t]|].
  { split; [by intros [e He]|by intros [? _]]. }
  simpl. destruct suffix as [[p t]|].
  { split; [by intros [e He]|by intros (_ & ? & _)]. }
  destruct (is_bios flags).
  { split; [by intros [e He]|by intros (_ & _ & ? & _)]. }
  destruct (catlist set_iter self) as [c|] eqn:Hc.
  - apply catlist_Some in Hc as (full & Hfull & Hne & ->).
    rewrite machine_type_raises_iff. split.
    + intros H. repeat split. by exists full.
    + intros (_ & _ & _ & full' & Hfull' & H). congruence.
  - simpl. split.
    { intros [e He]. by repeat case_match. }
    intros (_ & _ & _ & full & Hfull & H). exfalso.
    assert (Hnone : ∀ c, catlist set_iter self ≠ Some c) by congruence.
    destruct (decide (full = EmptyString)) as [->|Hne].
    + by apply empty_category_components.
    + apply (Hnone (Catlist.init full)). apply catlist_Some. by exists full.
Qed.

Lemma machine_type_fails_only_on_an_unshielded_category_witness :
  raises (MachineKind.machine_type elements pinbot no_flags)
  ∧ MachineKind.machine_type elements gnw_ball no_flags = Ok LCDHandheld.
Proof.
  split; [|by vm_compute].
  apply (machine_type_fails_only_on_an_unshielded_category
           elements pinbot no_flags).
  split_and!; [by vm_compute..|].
  exists "Electromechanical". by vm_compute.
Defined.

(** X20: [platform] fails exactly when [machine_type] does. When it returns,
    the two agree: the platform is the prefix or suffix whose type
    [machine_type] returns, or it is named after the type that
    [machine_type] returns. *)
Theorem platform_follows_machine_type
    (set_iter : gset string → list string) (self : Machine)
    (flags : MachineFlags) :
  (raises (platform set_iter self flags)
   ↔ raises (MachineKind.machine_type set_iter self flags))
  ∧ ∀ p, platform set_iter self flags = Ok p →
      ∃ t, MachineKind.machine_type set_iter self flags = Ok t
           ∧ ((p, t) ∈ platform_prefixes
              ∨ (p, t) ∈ platform_suffixes
              ∨ (t = PlugAndPlay ∧ p = "Plug & Play")
              ∨ (t = MedalGame ∧ p = "Medal Game")
              ∨ (t ≠ PlugAndPlay ∧ t ≠ MedalGame ∧ p = type_name t)).
Proof.
  unfold platform.
  destruct (MachineKind.machine_type set_iter self flags) as [t|e] eqn:Ht;
    revert Ht; unfold MachineKind.machine_type, _platform_prefix,
      _platform_suffix;
    destruct (suffix_loop_returns (name self) platform_suffixes)
      as (suffix & -> & Hsuffix);
    destruct (prefix_loop (name self) platform_prefixes) as [[p' t']|] eqn:Hp.
  - intros [= <-]. split; [by split; intros [? ?]|].
    intros p [= <-]. exists t'. split; [done|]. left.
    by apply prefix_loop_Some in Hp as [? _].
  - simpl. destruct suffix as [[p' t']|].
    + intros [= <-]. split; [by split; intros [? ?]|].
      intros p [= <-]. exists t'. split; [done|]. right; left.
      by apply Hsuffix.
    + intros _. simpl. split.
      { split; intros [? H]; [|done]. by repeat case_bool_decide. }
      intros p. exists t. split; [done|].
      do 2 right. repeat case_bool_decide; simplify_eq; auto.
  - done.
  - simpl. destruct suffix as [[p' t']|]; [done|]. intros _. simpl.
    split; [split; intros _; by eexists|done].
Qed.

Lemma platform_follows_machine_type_witness :
  platform elements gnw_ball no_flags = Ok "Game & Watch"
  ∧ ∃ t, MachineKind.machine_type elements gnw_ball no_flags = Ok t
         ∧ (("Game & Watch", t) ∈ platform_prefixes
            ∨ ("Game & Watch", t) ∈ platform_suffixes
            ∨ (t = PlugAndPlay ∧ "Game & Watch" = "Plug & Play")
            ∨ (t = MedalGame ∧ "Game & Watch" = "Medal Game")
            ∨ (t ≠ PlugAndPlay ∧ t ≠ MedalGame
               ∧ "Game & Watch" = type_name t)).
Proof.
  assert (H : platform elements gnw_ball no_flags = Ok "Game & Watch")
    by by vm_compute.
  split; [exact H|].
  exact (proj2 (platform_follows_machine_type elements gnw_ball no_flags)
           _ H).
Defined.

End MachineKindFacts.

(** ** The play time store and the software views *)

Section TimerLoadFacts.

Import TimerDb TimerRow.

Lemma load_snoc (rows : list Row) (row : Row) :
  load_timer_db (rows ++ [row]) = step (load_timer_db rows) row.
Proof. unfold load_timer_db. by rewrite foldl_app. Qed.

Lemma last_filter_snoc {A} (P : A → Prop) `{∀ x, Decision (P x)}
    (l : list A) (x : A) :
  last (filter P (l ++ [x])%list)
  = if decide (P x) then Some x else last (filter P l).
Proof.
  rewrite filter_app. destruct (decide (P x)).
  - rewrite filter_cons_True, filter_nil by done. by rewrite last_snoc.
  - rewrite filter_cons_False, filter_nil by done. by rewrite app_nil_r.
Qed.

Lemma load_lookup (rows : list Row) (d k : string) :
  systems (load_timer_db rows) !! d
  = data <$> last (filter (is_system_row d) rows)
  ∧ TimerDb.software (load_timer_db rows) !! (d, k)
    = data <$> last (filter (is_software_row d k) rows).
Proof.
  induction rows as [|row rows [IHs IHw]] using rev_ind; [done|].
  rewrite load_snoc, !last_filter_snoc. unfold step.
  destruct (MachineView.truthy (software row)) eqn:Hsw; simpl.
  - split.
    + rewrite decide_False; [done|]. intros [? _]. congruence.
    + destruct (decide (is_software_row d k row)) as [(_ & <- & <-)|Hne].
      * by rewrite lookup_insert_eq.
      * rewrite lookup_insert_ne; [done|]. intros [= ? ?]. by apply Hne.
  - split.
    + destruct (decide (is_system_row d row)) as [[_ <-]|Hne].
      * by rewrite lookup_insert_eq.
      * rewrite lookup_insert_ne; [done|]. intros ?. by apply Hne.
    + rewrite decide_False; [done|]. intros [? _]. congruence.
Qed.

(** X21: The store keeps, for every system, the last row of the table that
    names the system and no software, and for every key of a software the
    last row whose driver and software give that key: the driver and, when
    the row names a software list, the list, a colon and the software. *)
Theorem timer_db_keeps_the_last_row_of_each_key
    (rows : list Row) (d k : string) :
  systems (load_timer_db rows) !! d
  = data <$> last (filter (is_system_row d) rows)
  ∧ TimerDb.software (load_timer_db rows) !! (d, k)
    = data <$> last (filter (is_software_row d k) rows).
Proof. apply load_lookup. Qed.

End TimerLoadFacts.

Section SoftwareViewFacts.

Import TimerDb TimerRow MachineView SoftwareView.

Lemma key_without_colon (row : Row) (b : string) :
  MachineView.truthy (software row) = true →
  software_key row = b →
  Py.contains ":" b = false →
  MachineView.truthy (softlist row) = false ∧ software row = Some b.
Proof.
  unfold software_key. intros Hsw Hkey Hb.
  destruct (software row) as [sw|]; [|done]. simpl in Hkey.
  destruct (softlist row) as [sl|]; simpl; [|by subst].
  destruct (Py.truthy sl); [|by subst]. subst b.
  by rewrite (contains_app ":" sl sw) in Hb.
Qed.

Lemma software_row_of_loaded_store (w : World) (self : Software)
    (rows : list Row) (path : Path) :
  timer_db_path (settings self) = Some path →
  timer_db w path = Some (TimerRow.load_timer_db rows) →
  _timer_db_row w self
  = Ok (data <$> last (filter (is_software_row
                                 (list_basename (software_list self))
                                 (basename self)) rows)).
Proof.
  intros Hpath Hdb. unfold _timer_db_row, try_load_timer_db.
  unfold MachineView.load_timer_db. rewrite Hpath, Hdb. simpl.
  by rewrite (proj2 (load_lookup rows _ _)).
Qed.

(** X22: The play time of a software is looked up under the basename of its
    list and its own basename, while the store files a row under its driver
    and, when the row names a software list, [list:software]. A software
    whose basename holds no colon is therefore only found in a row without a
    software list whose driver is the basename of the list; when every
    software row of the table names its list, the software has no play time
    at all. *)
Theorem software_play_time_misses_rows_with_a_list
    (w : World) (self : Software) (rows : list Row) (path : Path) :
  timer_db_path (settings self) = Some path →
  timer_db w path = Some (TimerRow.load_timer_db rows) →
  Py.contains ":" (basename self) = false →
  (∀ r, _timer_db_row w self = Ok (Some r) →
     ∃ row, row ∈ rows
            ∧ driver row = list_basename (software_list self)
            ∧ MachineView.truthy (softlist row) = false
            ∧ software row = Some (basename self)
            ∧ data row = r)
  ∧ (Forall (λ row, MachineView.truthy (software row) = true →
                    MachineView.truthy (softlist row) = true) rows →
     _timer_db_row w self = Ok None
     ∧ SoftwareView.play_count w self = Ok 0%Z
     ∧ SoftwareView.total_time_played w self = Ok timedelta_zero
     ∧ SoftwareView.total_time_emulated w self = Ok timedelta_zero).
Proof.
  intros Hpath Hdb Hcolon.
  pose proof (software_row_of_loaded_store w self rows path Hpath Hdb)
    as Hrow.
  assert (Hfound : ∀ r, _timer_db_row w self = Ok (Some r) →
            ∃ row, row ∈ rows
                   ∧ driver row = list_basename (software_list self)
                   ∧ MachineView.truthy (softlist row) = false
                   ∧ software row = Some (basename self)
                   ∧ data row = r).
  { intros r. rewrite Hrow.
    destruct (last _) as [row|] eqn:Hlast; [|done]. intros [= <-].
    apply last_Some_elem_of, list_elem_of_filter in Hlast
      as [(Hsw & Hd & Hk) Hin].
    destruct (key_without_colon row _ Hsw Hk Hcolon).
    by exists row. }
  split; [done|]. intros Hall.
  assert (Hnone : _timer_db_row w self = Ok None).
  { rewrite Hrow.
    destruct (last _) as [row|] eqn:Hlast; [|done]. exfalso.
    apply last_Some_elem_of, list_elem_of_filter in Hlast
      as [(Hsw & Hd & Hk) Hin].
    destruct (key_without_colon row _ Hsw Hk Hcolon) as [Hsl _].
    rewrite Forall_forall in Hall. rewrite (Hall row Hin Hsw) in Hsl.
    done. }
  unfold SoftwareView.play_count, SoftwareView.total_time_played,
    SoftwareView.total_time_emulated. by rewrite Hnone.
Qed.

Lemma software_play_time_misses_rows_with_a_list_witness :
  timer_db_path (settings smb) = Some "/home/user/.mame/timer/timer.db"
  ∧ _timer_db_row sample_world smb = Ok None
  ∧ SoftwareView.play_count sample_world smb = Ok 0%Z.
Proof.
  assert (Hpath : timer_db_path (settings smb)
                  = Some "/home/user/.mame/timer/timer.db") by reflexivity.
  split; [exact Hpath|].
  destruct (software_play_time_misses_rows_with_a_list
              sample_world smb sample_rows _ Hpath eq_refl eq_refl)
    as [_ Hzero].
  destruct Hzero as (Hnone & Hcount & _).
  - repeat constructor; by intros.
  - by split.
Defined.

(** X23: The basename of a software list is cut at its first underscore:
    with an underscore the list has a type, and grouping, underscore and
    type put the basename back together; without one it has no type and the
    grouping is the basename. The grouping never holds an underscore. *)
Theorem software_list_type_is_cut_at_the_first_underscore
    (basename : string) :
  match type (list_init basename) with
  | Some software_type =>
      basename = grouping (list_init basename) +:+ "_" +:+ software_type
  | None => grouping (list_init basename) = basename
  end
  ∧ Py.contains "_" (grouping (list_init basename)) = false
  ∧ list_basename (list_init basename) = basename.
Proof.
  unfold list_init, Py.partition, Py.contains.
  destruct (Py.find "_" basename) as [[a r]|] eqn:E; simpl.
  - split; [by apply find_spec|]. split; [|done].
    by rewrite (find_before_free "_" basename a r).
  - split; [done|]. by rewrite E.
Qed.

End SoftwareViewFacts.

(** ** Grouped infos and favourites *)

Section InfosFacts.

Import Infos.

Context {V : Type}.

Lemma dict_get_append_to (k k' : string) (v : V)
    (d : list (string * list V)) :
  dict_get (append_to k v d) k'
  = if String.eqb k k'
    then Some (default [] (dict_get d k) ++ [v])%list
    else dict_get d k'.
Proof.
  induction d as [|[k0 vs] d IH]; simpl.
  - by destruct (String.eqb k k').
  - destruct (String.eqb k0 k) eqn:E; simpl.
    + apply String.eqb_eq in E as ->. by destruct (String.eqb k k').
    + rewrite IH. destruct (String.eqb k0 k') eqn:E'; [|done].
      apply String.eqb_eq in E' as ->. by rewrite String.eqb_sym, E.
Qed.

Lemma append_to_keys (k : string) (v : V) (d : list (string * list V)) :
  (append_to k v d).*1
  = if bool_decide (k ∈ d.*1) then d.*1 else (d.*1 ++ [k])%list.
Proof.
  induction d as [|[k0 vs] d IH]; [done|]. cbn [append_to].
  destruct (String.eqb k0 k) eqn:E.
  - apply String.eqb_eq in E as ->. rewrite !fmap_cons. simpl.
    rewrite bool_decide_eq_true_2; [done|]. by left.
  - apply String.eqb_neq in E. rewrite !fmap_cons, IH. cbn [fst].
    rewrite (bool_decide_ext (k ∈ k0 :: d.*1) (k ∈ d.*1)).
    + by destruct (bool_decide _).
    + rewrite elem_of_cons. split; [by intros [->|?]|by right].
Qed.

Lemma multidict_snoc (tuples : list (string * V)) (kv : string * V) :
  multidict (tuples ++ [kv]) = append_to kv.1 kv.2 (multidict tuples).
Proof. unfold multidict. by rewrite foldl_app. Qed.

Lemma values_of_snoc (k : string) (tuples : list (string * V))
    (kv : string * V) :
  values_of k (tuples ++ [kv])
  = (values_of k tuples ++ if decide (kv.1 = k) then [kv.2] else [])%list.
Proof.
  unfold values_of. rewrite filter_app, fmap_app. f_equal.
  destruct (decide (kv.1 = k)).
  - by rewrite filter_cons_True, filter_nil.
  - by rewrite filter_cons_False, filter_nil.
Qed.

Lemma multidict_lookup (tuples : list (string * V)) (k : string) :
  dict_get (multidict tuples) k
  = match values_of k tuples with
    | [] => None
    | vs => Some vs
    end.
Proof.
  induction tuples as [|[k' v] tuples IH] using rev_ind; [done|].
  rewrite multidict_snoc, values_of_snoc, dict_get_append_to. simpl.
  destruct (String.eqb k' k) eqn:E.
  - apply String.eqb_eq in E as ->. rewrite decide_True by done.
    rewrite IH. by destruct (values_of k tuples).
  - apply String.eqb_neq in E. rewrite decide_False by done.
    by rewrite app_nil_r.
Qed.

Lemma multidict_keys (tuples : list (string * V)) :
  NoDup (multidict tuples).*1
  ∧ ∀ k, k ∈ (multidict tuples).*1 ↔ k ∈ tuples.*1.
Proof.
  induction tuples as [|[k' v] tuples [IHn IHk]] using rev_ind.
  { split; [constructor|done]. }
  rewrite multidict_snoc, append_to_keys, fmap_app. simpl.
  case_bool_decide as Hin; split; try done.
  - intros k. rewrite elem_of_app, list_elem_of_singleton, IHk.
    split; [by left|]. intros [?| ->]; [done|]. by apply IHk.
  - apply NoDup_app. split_and!; [done| |apply NoDup_singleton].
    by intros x Hx ->%list_elem_of_singleton.
  - intros k. by rewrite !elem_of_app, IHk.
Qed.

(** X24: [multidict] groups the values by key: a key of the result is a key
    of some tuple, it comes once, and its list holds the values of the
    tuples with that key, all of them and in their order; the list is never
    empty. *)
Theorem multidict_groups_the_values_by_key
    (tuples : list (string * V)) (k : string) :
  NoDup (multidict tuples).*1
  ∧ (k ∈ (multidict tuples).*1 ↔ k ∈ tuples.*1)
  ∧ dict_get (multidict tuples) k
    = match values_of k tuples with
      | [] => None
      | vs => Some vs
      end.
Proof.
  destruct (multidict_keys tuples) as [Hn Hk].
  split; [done|]. split; [apply Hk|apply multidict_lookup].
Qed.

End InfosFacts.

Section InfoFacts.

Import Infos.

Lemma values_of_infos (infos : list InfoElement) (n : string) :
  values_of n ((λ info, (name info, value info)) <$> infos)
  = value <$> filter (λ info, name info = n) infos.
Proof.
  unfold values_of. induction infos as [|info infos IH]; [done|].
  rewrite fmap_cons. destruct (decide (name info = n)).
  - rewrite !filter_cons_True by done. rewrite !fmap_cons. simpl.
    by rewrite IH.
  - by rewrite !filter_cons_False.
Qed.

(** X25: [get_info] answers with the first of the values that [info_as_dict]
    holds for the name. It answers [None] both for a name that no info
    carries and for a name whose first info has no value. *)
Theorem get_info_is_the_first_value_of_info_as_dict
    (infos : list InfoElement) (n : string) :
  get_info infos n
  = match dict_get (info_as_dict infos) n with
    | Some (v :: _) => v
    | _ => None
    end
  ∧ dict_get (info_as_dict infos) n
    = match value <$> filter (λ info, name info = n) infos with
      | [] => None
      | vs => Some vs
      end.
Proof.
  unfold info_as_dict. rewrite multidict_lookup, values_of_infos.
  split; [|done].
  induction infos as [|info infos IH]; [done|]. simpl.
  destruct (String.eqb (name info) n) eqn:E.
  - apply String.eqb_eq in E. by rewrite filter_cons_True.
  - apply String.eqb_neq in E. by rewrite filter_cons_False.
Qed.

End InfoFacts.

Section FavouritesFacts.

Import Favourites.

Lemma slice_from_elem_of {A} (step skip : nat) (l : list A) (x : A) :
  x ∈ slice_from skip (S step) l
  ↔ ∃ k, l !! (skip + S step * k) = Some x.
Proof.
  revert skip. induction l as [|y l IH]; intros skip.
  - simpl. split; [by intros ?%elem_of_nil|].
    intros [k Hk]. by rewrite lookup_nil in Hk.
  - destruct skip as [|skip]; cbn [slice_from].
    + replace (S step - 1) with step by lia.
      rewrite elem_of_cons, IH. split.
      * intros [->|[k Hk]].
        -- exists 0. by rewrite Nat.mul_0_r.
        -- exists (S k).
           by replace (0 + S step * S k) with (S (step + S step * k))
             by lia.
      * intros [[|k] Hk].
        -- left. rewrite Nat.mul_0_r in Hk. by injection Hk.
        -- right. exists k.
           by replace (0 + S step * S k) with (S (step + S step * k)) in Hk
             by lia.
    + rewrite IH. split; intros [k Hk]; exists k.
      * by rewrite Nat.add_succ_l.
      * by rewrite Nat.add_succ_l in Hk.
Qed.

(** X26: The favourites are the lines of [favorites.ini] at the indices 3,
    19, 35 and so on, one of every sixteen lines from the fourth on; a file
    of fewer than four lines has no favourite. *)
Theorem favourites_are_every_sixteenth_line (text basename : string) :
  (basename ∈ get_favourites text
   ↔ ∃ k, Py.splitlines text !! (3 + 16 * k) = Some basename)
  ∧ (length (Py.splitlines text) < 4 → get_favourites text = ∅).
Proof.
  unfold get_favourites. split.
  - by rewrite elem_of_list_to_set, slice_from_elem_of.
  - intros Hlen. apply set_eq. intros x.
    rewrite elem_of_list_to_set, slice_from_elem_of. split.
    + intros [k Hk]. apply lookup_lt_Some in Hk. lia.
    + by intros ?%not_elem_of_empty.
Qed.

Lemma favourites_are_every_sixteenth_line_witness :
  length (Py.splitlines ("[ROOT_FOLDER]" +:+ Py.nl +:+ "pacman")) < 4
  ∧ get_favourites ("[ROOT_FOLDER]" +:+ Py.nl +:+ "pacman") = ∅.
Proof.
  assert (H : length (Py.splitlines
                        ("[ROOT_FOLDER]" +:+ Py.nl +:+ "pacman")) < 4)
    by (vm_compute; lia).
  split; [exact H|].
  exact (proj2 (favourites_are_every_sixteenth_line _ EmptyString) H).
Defined.

End FavouritesFacts.

(** ** The software finders *)

Section FinderFacts.

Import Finder.

Lemma find_elem_of (part_matches : Part.PartElement → bool)
    (software_lists : list SoftwareList) (m : SoftwareMatchResult) :
  m ∈ find part_matches software_lists
  ↔ software_list m ∈ software_lists
    ∧ software m ∈ software_of (software_list m)
    ∧ part m ∈ parts (software m)
    ∧ part_matches (part m) = true.
Proof.
  unfold find. rewrite list_elem_of_bind. split.
  - intros (l & (s & (p & Hm & Hp)%list_elem_of_bind & Hs)%list_elem_of_bind
            & Hl).
    destruct (part_matches p) eqn:E; [|by apply elem_of_nil in Hm].
    apply list_elem_of_singleton in Hm as ->. by simpl.
  - intros (Hl & Hs & Hp & Hm). exists (software_list m). split; [|done].
    apply list_elem_of_bind. exists (software m). split; [|done].
    apply list_elem_of_bind. exists (part m). split; [|done].
    rewrite Hm. apply list_elem_of_singleton. by destruct m.
Qed.

Lemma narrow_elem_of (part_matches : Part.PartElement → bool)
    (results : list SoftwareMatchResult) (m : SoftwareMatchResult) :
  m ∈ narrow_down_results part_matches results
  ↔ m ∈ results ∧ part_matches (part m) = true.
Proof.
  unfold narrow_down_results.
  rewrite !list_elem_of_In, List.filter_In. tauto.
Qed.

Lemma first_parent_spec (matches : list SoftwareMatchResult)
    (d : SoftwareMatchResult) :
  (first_parent matches d = d
   ∧ Forall (λ m, MachineView.truthy (parent_basename (software m)) = true)
       matches)
  ∨ (first_parent matches d ∈ matches
     ∧ MachineView.truthy
         (parent_basename (software (first_parent matches d))) = false).
Proof.
  induction matches as [|m matches IH]; [by left|]. simpl.
  destruct (MachineView.truthy (parent_basename (software m))) eqn:E.
  - destruct IH as [[-> Hall]|[Hin Hp]].
    + left. split; [done|]. by constructor.
    + right. split; [by right|done].
  - right. split; [by left|done].
Qed.

Lemma forallb_eqb {A} (f : A → string) (x : string) (l : list A) :
  forallb (λ m, String.eqb (f m) x) l = true → Forall (λ m, f m = x) l.
Proof.
  induction l as [|m l IH]; [done|]. simpl.
  intros [Hm Hl]%andb_true_iff. constructor; [|by apply IH].
  by apply String.eqb_eq.
Qed.

Lemma combine_nil : _combine_matches [] = Raise IndexError.
Proof. reflexivity. Qed.

Lemma combine_cons (first : SoftwareMatchResult)
    (rest : list SoftwareMatchResult) :
  _combine_matches (first :: rest) = Ok (first :: rest)
  ∨ ∃ m, _combine_matches (first :: rest) = Ok [m]
         ∧ one_of_a_family (first :: rest) m.
Proof.
  unfold _combine_matches.
  destruct (Nat.eqb (length (first :: rest)) 1) eqn:Hlen; [by left|].
  apply Nat.eqb_neq in Hlen.
  destruct (forallb _ rest) eqn:Hlist; simpl; [|by left].
  destruct (forallb (λ m, String.eqb (Part.name _) _) rest) eqn:Hpart;
    simpl; [|by left].
  destruct (forallb (λ m, String.eqb (family_name _) _) rest) eqn:Hfam;
    [|by left].
  right. exists (first_parent (first :: rest) first). split; [done|].
  apply forallb_eqb in Hlist, Hpart, Hfam.
  assert (Hall : Forall (λ m', list_basename (software_list m')
                               = list_basename (software_list first)
                               ∧ Part.name (part m') = Part.name (part first)
                               ∧ family_name m' = family_name first)
                   (first :: rest)).
  { constructor; [done|]. rewrite Forall_forall in *. naive_solver. }
  assert (Hin : first_parent (first :: rest) first ∈ first :: rest).
  { destruct (first_parent_spec (first :: rest) first) as [[-> _]|[? _]];
      [by left|done]. }
  split; [done|]. split; [simpl in *; lia|]. split.
  - rewrite Forall_forall in Hall.
    destruct (Hall _ Hin) as (-> & -> & ->). by apply Forall_forall.
  - intros Hp.
    destruct (first_parent_spec (first :: rest) first) as [[_ ?]|[_ Hf]];
      [done|congruence].
Qed.

Lemma combine_matches_nil_iff (matches : list SoftwareMatchResult) :
  (_combine_matches matches = Raise IndexError ↔ matches = [])
  ∧ (raises (_combine_matches matches) → matches = []).
Proof.
  destruct matches as [|first rest]; [by rewrite combine_nil|].
  destruct (combine_cons first rest) as [H|(m & H & Hm)]; rewrite H;
    (split; [done|by intros [? ?]]).
Qed.

(** X27: [_combine_matches] fails on no match at all, with [IndexError], and
    only then. Otherwise it returns the matches as they are, or a single one
    of at least two matches that all share the software list, the name of
    the part and the family; that one has a parent only when all of them
    have one. *)
Theorem combine_matches_keeps_all_or_one_of_a_family
    (matches : list SoftwareMatchResult) :
  (_combine_matches matches = Raise IndexError ↔ matches = [])
  ∧ (raises (_combine_matches matches) → matches = [])
  ∧ ∀ r, _combine_matches matches = Ok r →
      r = matches ∨ ∃ m, r = [m] ∧ one_of_a_family matches m.
Proof.
  destruct matches as [|first rest].
  { rewrite combine_nil. split; [done|]. split; [done|]. by intros r. }
  destruct (combine_cons first rest) as [H|(m & H & Hm)]; rewrite H.
  - split; [done|]. split; [by intros [? ?]|].
    intros r [= <-]. by left.
  - split; [done|]. split; [by intros [? ?]|].
    intros r [= <-]. right. by exists m.
Qed.

Lemma combine_matches_keeps_all_or_one_of_a_family_witness :
  _combine_matches [clone_match; sample_match] = Ok [sample_match]
  ∧ one_of_a_family [clone_match; sample_match] sample_match.
Proof.
  assert (H : _combine_matches [clone_match; sample_match]
              = Ok [sample_match]) by by vm_compute.
  split; [exact H|].
  destruct (proj2 (proj2 (combine_matches_keeps_all_or_one_of_a_family _))
              _ H) as [Heq|(m & Heq & Hfam)].
  - discriminate Heq.
  - by injection Heq as <-.
Defined.

Lemma combine_returns_nonempty (matches r : list SoftwareMatchResult) :
  _combine_matches matches = Ok r →
  r ≠ [] ∧ Forall (λ m, m ∈ matches) r
  ∧ (length r ≠ 1 → r = matches ∧ (2 ≤ length matches)%nat).
Proof.
  destruct matches as [|first rest]; [done|].
  destruct (combine_cons first rest) as [H|(m & H & Hm & _)]; rewrite H;
    intros [= <-].
  - split; [done|]. split; [by apply Forall_forall|].
    intros Hlen. split; [done|]. destruct rest; simpl in *; [done|lia].
  - split; [done|]. split; [constructor; [done|constructor]|done].
Qed.

(** What [find_software_for_hashes] does after it has the CRC32 matches. *)
Lemma find_software_for_hashes_unfold (software_lists : list SoftwareList)
    (hashes : Hashes.LazyLoadedHashes) :
  find_software_for_hashes software_lists hashes =
  match find_all (crc32_part_matches hashes) software_lists with
  | [] => Ok []
  | matches =>
      matches ← _combine_matches matches;
      if Nat.eqb (length (matches : list SoftwareMatchResult)) 1
      then Ok matches
      else
        _combine_matches
          (narrow_down_results (sha1_part_matches hashes) matches)
  end.
Proof.
  unfold find_software_for_hashes.
  destruct software_lists as [|l software_lists]; [reflexivity|].
  cbv zeta. by destruct (find_all _ (l :: software_lists)).
Qed.

(** X28: [find_software_for_hashes] fails exactly when at least two parts
    match size and CRC32, [_combine_matches] keeps them all, and none of
    them matches the SHA-1: the matches that are left are none, and
    [_combine_matches] fails on them with [IndexError]. *)
Theorem find_software_for_hashes_raises_iff
    (software_lists : list SoftwareList) (hashes : Hashes.LazyLoadedHashes) :
  let matches := find_all (crc32_part_matches hashes) software_lists in
  (raises (find_software_for_hashes software_lists hashes)
   ↔ _combine_matches matches = Ok matches
     ∧ (2 ≤ length matches)%nat
     ∧ Forall (λ m, sha1_part_matches hashes (part m) = false) matches)
  ∧ (raises (find_software_for_hashes software_lists hashes) →
     find_software_for_hashes software_lists hashes = Raise IndexError).
Proof.
  intros matches. rewrite find_software_for_hashes_unfold. fold matches.
  assert (Hnarrow : ∀ l,
            narrow_down_results (sha1_part_matches hashes) l = []
            ↔ Forall (λ m, sha1_part_matches hashes (part m) = false) l).
  { intros l. unfold narrow_down_results.
    induction l as [|m l IH]; [done|]. simpl.
    destruct (sha1_part_matches hashes (part m)) eqn:E.
    - split; [done|]. intros [? _]%Forall_cons. congruence.
    - rewrite IH. split; [by constructor|by intros [_ ?]%Forall_cons]. }
  destruct matches as [|first rest] eqn:Hm.
  { split; [|by intros [? ?]]. split; [by intros [? ?]|].
    intros (_ & ? & _). simpl in *. lia. }
  rewrite <- Hm.
  destruct (_combine_matches matches) as [r|e] eqn:Hc.
  2: { rewrite Hm in Hc.
       by destruct (combine_cons first rest) as [H|(m & H & _)];
         rewrite H in Hc. }
  clear Hm. simpl.
  destruct (combine_returns_nonempty _ _ Hc) as (Hne & Hin & Hlen).
  destruct (Nat.eqb (length r) 1) eqn:E.
  - apply Nat.eqb_eq in E. split; [|by intros [? ?]].
    split; [by intros [? ?]|]. intros ([= ->] & ? & _). lia.
  - apply Nat.eqb_neq in E. destruct (Hlen E) as [-> Hlen2].
    pose proof (combine_matches_nil_iff
                  (narrow_down_results (sha1_part_matches hashes) matches))
      as [Hnil Hraises].
    split.
    + split.
      * intros Hr%Hraises. split; [done|]. split; [done|].
        by apply Hnarrow.
      * intros (_ & _ & Hall%Hnarrow). rewrite Hall. by eexists.
    + intros Hr%Hraises. by rewrite Hr.
Qed.

Lemma find_software_for_hashes_raises_iff_witness :
  (2 ≤ length (find_all (crc32_part_matches sample_hashes) sample_lists))%nat
  ∧ find_software_for_hashes sample_lists sample_hashes = Raise IndexError.
Proof.
  destruct (find_software_for_hashes_raises_iff sample_lists sample_hashes)
    as [[_ Hraises] Hindex].
  assert (H : (2 ≤ length (find_all (crc32_part_matches sample_hashes)
                             sample_lists))%nat) by (vm_compute; lia).
  split; [exact H|]. apply Hindex, Hraises.
  split; [by vm_compute|]. split; [exact H|].
  by repeat constructor.
Defined.

Lemma crc32_match_has_no_disk (hashes : Hashes.LazyLoadedHashes)
    (part : Part.PartElement) :
  crc32_part_matches hashes part = true → Part.disk_areas part = [].
Proof. unfold crc32_part_matches. by destruct (Part.disk_areas part). Qed.

(** X29: Every result of [find_software_for_hashes] is a part of a software
    of one of the lists that matches size and CRC32, and so a part without a
    disk area: the search never returns a disk, whatever the suffix and the
    SHA-1 of the file. When it returns more than one result, each of them
    matches the SHA-1 as well. It returns no result only when no part
    matches size and CRC32. *)
Theorem found_software_matches_size_and_crc32
    (software_lists : list SoftwareList) (hashes : Hashes.LazyLoadedHashes)
    (results : list SoftwareMatchResult) :
  find_software_for_hashes software_lists hashes = Ok results →
  Forall (λ m, software_list m ∈ software_lists
               ∧ software m ∈ software_of (software_list m)
               ∧ part m ∈ parts (software m)
               ∧ crc32_part_matches hashes (part m) = true
               ∧ Part.disk_areas (part m) = []) results
  ∧ ((2 ≤ length results)%nat →
     Forall (λ m, sha1_part_matches hashes (part m) = true) results)
  ∧ (results = []
     ↔ find_all (crc32_part_matches hashes) software_lists = []).
Proof.
  rewrite find_software_for_hashes_unfold.
  assert (Hcrc : ∀ m,
            m ∈ find_all (crc32_part_matches hashes) software_lists →
            software_list m ∈ software_lists
            ∧ software m ∈ software_of (software_list m)
            ∧ part m ∈ parts (software m)
            ∧ crc32_part_matches hashes (part m) = true
            ∧ Part.disk_areas (part m) = []).
  { intros m (? & ? & ? & Hm)%find_elem_of. split_and!; try done.
    by eapply crc32_match_has_no_disk. }
  destruct (find_all _ software_lists) as [|first rest] eqn:Hm.
  { intros [= <-]. by split_and!. }
  rewrite <- Hm in *.
  assert (Hne : find_all (crc32_part_matches hashes) software_lists ≠ [])
    by by rewrite Hm.
  clear Hm.
  destruct (_combine_matches _) as [r|e] eqn:Hc; [|done]. simpl.
  destruct (combine_returns_nonempty _ _ Hc) as (Hr & Hin & Hlen).
  destruct (Nat.eqb (length r) 1) eqn:E.
  - apply Nat.eqb_eq in E. intros [= <-]. split_and!.
    + eapply Forall_impl; [exact Hin|]. intros m. apply Hcrc.
    + lia.
    + done.
  - apply Nat.eqb_neq in E. destruct (Hlen E) as [-> _].
    intros (Hres & Hsub & _)%combine_returns_nonempty.
    assert (Hboth : Forall (λ m,
              m ∈ find_all (crc32_part_matches hashes) software_lists
              ∧ sha1_part_matches hashes (part m) = true) results).
    { eapply Forall_impl; [exact Hsub|]. intros m. apply narrow_elem_of. }
    split_and!.
    + eapply Forall_impl; [exact Hboth|]. intros m [? _]. by apply Hcrc.
    + intros _. eapply Forall_impl; [exact Hboth|]. by intros m [_ ?].
    + done.
Qed.

Lemma found_software_matches_size_and_crc32_witness :
  find_software_for_hashes [nes_list] sample_hashes = Ok [sample_match]
  ∧ Forall (λ m, software_list m ∈ [nes_list]
                 ∧ software m ∈ software_of (software_list m)
                 ∧ part m ∈ parts (software m)
                 ∧ crc32_part_matches sample_hashes (part m) = true
                 ∧ Part.disk_areas (part m) = []) [sample_match].
Proof.
  assert (H : find_software_for_hashes [nes_list] sample_hashes
              = Ok [sample_match]) by by vm_compute.
  split; [exact H|].
  exact (proj1 (found_software_matches_size_and_crc32 _ _ _ H)).
Defined.

End FinderFacts.

(** ** The delimiters of a history text *)

Section HistoryCutFacts.

Import History HistoryEntries HistoryCut.

Lemma match_group_plain (s g r : string) :
  match_group s = Some (g, r) → no_newline g = true.
Proof.
  revert g r. induction s as [|c s IH]; intros g r;
    rewrite match_group_unfold; [done|].
  destruct (Ascii.eqb c Py.newline) eqn:Ec; [done|].
  destruct (match_group s) as [[g' r']|].
  - intros [= <- <-]. simpl. by rewrite Ec, (IH g' r').
  - destruct (Py.startswith s (" -" +:+ Py.nl)); [|done].
    intros [= <- <-]. simpl. by rewrite Ec.
Qed.

(** A match of the pattern at the start of [s] is an occurrence there. *)
Lemma match_line_pattern_occurs (s g r : string) :
  match_line_pattern s = Some (g, r) → occurs_at s EmptyString g r.
Proof.
  intros H. destruct (match_line_pattern_spec _ _ _ H) as [Hs Hg].
  split; [by rewrite app_empty_l|]. split; [done|].
  unfold match_line_pattern in H.
  destruct (Py.startswith s (Py.nl +:+ "- ")); [|done].
  by eapply match_group_plain.
Qed.

Lemma occurs_at_cons (c : ascii) (s before header after : string) :
  occurs_at s before header after →
  occurs_at (String c s) (String c before) header after.
Proof. intros [-> H]. split; [by rewrite app_cons|done]. Qed.

(** What [search] finds is an occurrence, and no occurrence starts before
    it. *)
Lemma search_occurs (s b g r : string) :
  search s = Some (b, g, r) → occurs_at s b g r.
Proof.
  revert b g r. induction s as [|c s IH]; intros b g r; rewrite search_unfold.
  - destruct (match_line_pattern EmptyString) as [[g' r']|] eqn:E; [|done].
    intros [= <- <- <-]. by apply match_line_pattern_occurs.
  - destruct (match_line_pattern (String c s)) as [[g' r']|] eqn:E.
    + intros [= <- <- <-]. by apply match_line_pattern_occurs.
    + destruct (search s) as [[[b' g'] r']|]; [|done].
      intros [= <- <- <-]. by apply occurs_at_cons, IH.
Qed.

Lemma occurs_at_start (s header after : string) :
  occurs_at s EmptyString header after →
  match_line_pattern s = Some (header, after).
Proof.
  intros [-> H]. rewrite app_empty_l. by apply match_line_pattern_marker.
Qed.

Lemma search_leftmost (s b g r before header after : string) :
  search s = Some (b, g, r) →
  occurs_at s before header after →
  (String.length b ≤ String.length before)%nat.
Proof.
  revert b before. induction s as [|c s IH]; intros b before;
    rewrite search_unfold.
  - destruct (match_line_pattern EmptyString) as [[g' r']|]; [|done].
    intros [= <- <- <-] _. simpl. lia.
  - destruct (match_line_pattern (String c s)) as [[g' r']|] eqn:E.
    { intros [= <- <- <-] _. simpl. lia. }
    destruct (search s) as [[[b' g'] r']|] eqn:Hs; [|done].
    intros [= <- <- <-] Hocc. destruct before as [|d before].
    + apply occurs_at_start in Hocc. congruence.
    + destruct Hocc as [Heq Hh]. rewrite app_cons in Heq.
      injection Heq as -> ->. simpl.
      apply le_n_S. apply (IH b' before). { done. } by split.
Qed.

Lemma search_none (s before header after : string) :
  search s = None → ¬ occurs_at s before header after.
Proof.
  revert before. induction s as [|c s IH]; intros before;
    rewrite search_unfold.
  - destruct (match_line_pattern EmptyString) as [[g' r']|] eqn:E; [done|].
    intros _ Hocc. destruct before as [|d before].
    + apply occurs_at_start in Hocc. congruence.
    + destruct Hocc as [Heq _]. by rewrite app_cons in Heq.
  - destruct (match_line_pattern (String c s)) as [[g' r']|] eqn:E; [done|].
    destruct (search s) as [[[b' g'] r']|] eqn:Hs; [done|].
    intros _ Hocc. destruct before as [|d before].
    + apply occurs_at_start in Hocc. congruence.
    + destruct Hocc as [Heq Hh]. rewrite app_cons in Heq.
      injection Heq as -> ->. by apply (IH before).
Qed.

(** At the leftmost occurrence, [search] finds that occurrence. *)
Lemma search_at_leftmost (b h rest : string) :
  plain_header h →
  (∀ before header after,
     occurs_at (b +:+ marker h +:+ rest) before header after →
     (String.length b ≤ String.length before)%nat) →
  search (b +:+ marker h +:+ rest) = Some (b, h, rest).
Proof.
  intros Hh. induction b as [|c b IH]; intros Hleft.
  - rewrite app_empty_l. by apply search_marker.
  - rewrite app_cons, search_unfold.
    destruct (match_line_pattern _) as [[g' r']|] eqn:E.
    { apply match_line_pattern_occurs in E. rewrite <- app_cons in E.
      apply Hleft in E. simpl in E. lia. }
    rewrite IH; [done|]. intros before header after Hocc.
    apply (occurs_at_cons c) in Hocc. rewrite <- app_cons in Hocc.
    apply Hleft in Hocc. simpl in Hocc. lia.
Qed.

(** The split is the cut: it cuts at the delimiters a scan from the left
    meets, and at nothing else. *)
Lemma cut_re_split (text : string) (groups : list string) :
  cut text groups → re_split text = groups.
Proof.
  induction 1 as [b Hnone|b h rest groups Hh Hleft _ IH].
  - rewrite re_split_unfold.
    destruct (search b) as [[[b' g] r]|] eqn:E; [|done].
    apply search_occurs in E. by apply Hnone in E.
  - rewrite re_split_unfold, search_at_leftmost by done. by rewrite IH.
Qed.

Lemma split_fuel_cut (n : nat) (s : string) :
  (String.length s ≤ n)%nat → cut s (split_fuel n s).
Proof.
  revert s. induction n as [|n IH]; intros s Hn; simpl;
    destruct (search s) as [[[b g] r]|] eqn:E.
  - apply search_shorter in E. lia.
  - apply cut_last. intros before header after. by apply search_none.
  - pose proof (search_shorter _ _ _ _ E) as Hlen.
    pose proof (search_occurs _ _ _ _ E) as [Hs Hg].
    rewrite Hs at 1. apply cut_step; [done| |apply IH; lia].
    rewrite <- Hs. intros before header after.
    by apply (search_leftmost s b g r).
  - apply cut_last. intros before header after. by apply search_none.
Qed.

Lemma cut_shape (text : string) (groups : list string) :
  cut text groups →
  unsplit groups = text
  ∧ length groups = 2 * length (headers groups) + 1
  ∧ length (bodies groups) = S (length (headers groups))
  ∧ Forall (λ h, h ≠ EmptyString) (headers groups).
Proof.
  induction 1 as [b Hnone|b h rest groups [Hne Hnl] Hleft _ IH].
  - by repeat split.
  - destruct IH as (Hu & Hl & Hb & Hhs).
    change (headers (b :: h :: groups)) with (h :: headers groups).
    change (bodies (b :: h :: groups)) with (b :: bodies groups).
    change (unsplit (b :: h :: groups))
      with (b +:+ marker h +:+ unsplit groups).
    rewrite Hu. simpl. repeat split; [lia|lia|by constructor].
Qed.

(** C5, amended: every text is cut in one way at the delimiters a scan
    from the left meets, which gives it its number [N] of delimiters, and
    the split is that cut: it has [2 * N + 1] elements, the bodies and the
    headers in turn, and with every header back inside its marker they put
    the text back together. When the [N] headers are pairwise distinct, the
    mapping holds exactly [N + 1] entries in the order of the text: the
    lead-in under the empty string, then every header with the stripped body
    that follows it. Without any delimiter the mapping is the single entry
    from the empty string to the stripped text. *)
Theorem sections_of_distinct_headers (text : string) :
  (∃ groups, cut text groups)
  ∧ ∀ groups, cut text groups →
      let N := length (headers groups) in
      re_split text = groups
      ∧ length groups = 2 * N + 1
      ∧ unsplit groups = text
      ∧ (NoDup (headers groups) →
         parse_info_sections text
         = zip (EmptyString :: headers groups) (Py.strip <$> bodies groups)
         ∧ length (parse_info_sections text) = N + 1)
      ∧ (N = 0 → parse_info_sections text = [(EmptyString, Py.strip text)]).
Proof.
  split.
  { exists (re_split text). by apply split_fuel_cut. }
  intros groups Hcut N.
  pose proof (cut_re_split _ _ Hcut) as Hsplit.
  destruct (cut_shape _ _ Hcut) as (Hu & Hl & Hb & Hh).
  assert (Hparse : NoDup (headers groups) →
            parse_info_sections text = assignments EmptyString groups).
  { intros Hnd. unfold parse_info_sections. rewrite Hsplit.
    rewrite loop_assignments by done.
    rewrite foldl_assign_fresh; [done|]. simpl.
    rewrite assignments_keys by done.
    apply NoDup_cons. split; [|done].
    intros Hin. by eapply Forall_forall in Hh. }
  split; [done|]. split; [done|]. split; [done|]. split.
  - intros Hnd. rewrite Hparse by done. split; [done|].
    unfold assignments. rewrite length_zip, length_fmap, Hb. simpl.
    unfold N. lia.
  - intros HN. assert (Hnil : headers groups = []) by by apply nil_length_inv.
    rewrite Hparse by (rewrite Hnil; constructor).
    rewrite Hnil in Hl. clear Hparse Hsplit Hcut Hb Hh.
    destruct groups as [|b [|h rest]]; simpl in Hl; [lia| |lia].
    simpl in Hu. by rewrite Hu.
Qed.

Lemma sections_of_distinct_headers_witness :
  cut Samples.distinct_headers ["lead "; "TRIVIA"; " one"; "TIPS"; "two"]
  ∧ parse_info_sections Samples.distinct_headers
    = [(EmptyString, "lead"); ("TRIVIA", "one"); ("TIPS", "two")]
  ∧ length (parse_info_sections Samples.distinct_headers) = 3.
Proof.
  assert (Hcut : cut Samples.distinct_headers
                   ["lead "; "TRIVIA"; " one"; "TIPS"; "two"]).
  { exact (split_fuel_cut _ Samples.distinct_headers (le_n _)). }
  split; [exact Hcut|].
  destruct (proj2 (sections_of_distinct_headers Samples.distinct_headers)
              _ Hcut) as (_ & _ & _ & Hdistinct & _).
  assert (Hnd : NoDup (headers ["lead "; "TRIVIA"; " one"; "TIPS"; "two"])).
  { by apply (bool_decide_unpack _). }
  destruct (Hdistinct Hnd) as [Hparse Hlen]. split; [|exact Hlen].
  rewrite Hparse. by vm_compute.
Defined.

(** Where one delimiter starts on the newline that ends another, the scan
    meets the first of them only: the text has one delimiter, and the
    mapping two entries. *)
Lemma overlapping_delimiters_are_met_once :
  (∃ before after, occurs_at overlapping_delimiters before "B" after)
  ∧ cut overlapping_delimiters ["x"; "A"; "- B -" +:+ Py.nl +:+ "y"]
  ∧ length (parse_info_sections overlapping_delimiters) = 2.
Proof.
  split; [|split].
  - exists ("x" +:+ Py.nl +:+ "- A -"), "y". by split.
  - exact (split_fuel_cut _ overlapping_delimiters (le_n _)).
  - by vm_compute.
Qed.

End HistoryCutFacts.

(** ** The MAMEInfo entry parser: values that later sections leave alone *)

Section MAMEInfoLater.

Import MAMEInfo MAMEInfoLines MAMEInfoKeys.

(** The name a header line opens a section under is not [Levels]. *)
Lemma opened_section_not_levels (line : string) :
  Py.mem line normal_sections || Py.mem line list_sections_names = true
  ∨ Py.startswith line "Recommended Games" = true →
  Py.init line ≠ "Levels".
Proof.
  intros [H|H].
  - apply orb_true_iff in H as [H|H]; apply bool_decide_eq_true in H;
      vm_compute in H; set_unfold; destruct_or?; by subst.
  - apply startswith_drop in H. rewrite H. rewrite !app_cons. simpl.
    by case_match.
Qed.

(** A line that is no [LEVELS:] line leaves the value of [Levels] alone,
    once the section [Levels] is closed. *)
Lemma step_keeps_levels (st : state) (line v : string) :
  sections st !! "Levels" = Some v → current_section st ≠ "Levels" →
  Py.startswith line "LEVELS:" = false →
  sections (step st line) !! "Levels" = Some v
  ∧ current_section (step st line) ≠ "Levels".
Proof.
  intros Hv Hc Hl.
  pose proof (finish_sections_other st "Levels" Hc) as Hf.
  pose proof (opened_section_not_levels line) as Hopen.
  unfold step, scalar_section. rewrite Hl.
  destruct (Py.mem line normal_sections || Py.mem line list_sections_names);
    [simpl; split; [congruence|auto]|].
  destruct (Py.startswith line "Recommended Games");
    [simpl; split; [congruence|auto]|].
  destruct (Py.startswith line "ARCADE RELEASE:");
    [simpl; split; [by rewrite lookup_insert_ne, Hf|done]|].
  by destruct (_ || _).
Qed.

Lemma foldl_keeps_levels (rest : list string) (st : state) (v : string) :
  sections st !! "Levels" = Some v → current_section st ≠ "Levels" →
  Forall (λ line, Py.startswith line "LEVELS:" = false) rest →
  sections (foldl step st rest) !! "Levels" = Some v.
Proof.
  revert st. induction rest as [|line rest IH]; intros st Hv Hc Hrest;
    [done|].
  apply Forall_cons in Hrest as [Hline Hrest]. simpl.
  destruct (step_keeps_levels st line v Hv Hc Hline). by apply IH.
Qed.

(** X6: The value of a [LEVELS:] line is stored under [Levels] as long as no
    header follows. The line leaves the section [Levels] open, so the next
    header replaces the value by the lines in between, by the empty string
    when there are none, and that is the value of the entry whatever follows
    that header, unless another [LEVELS:] line does. *)
Theorem levels_value_is_replaced_at_the_next_header
    (contents line : string) (before mid after : list string) :
  Py.startswith line "LEVELS:" = true →
  Forall (λ line, is_header line = false) mid →
  (Py.splitlines contents = (before ++ line :: mid)%list →
   entry_sections (init contents) !! "Levels"
   = Some (Py.strip (Py.removeprefix "LEVELS:" line)))
  ∧ (∀ header,
       is_header header = true →
       Forall (λ line, Py.startswith line "LEVELS:" = false)
         (header :: after) →
       Py.splitlines contents
       = (before ++ line :: mid ++ header :: after)%list →
       entry_sections (init contents) !! "Levels"
       = Some (Py.join Py.nl (kept mid))).
Proof.
  intros Hline Hmid. unfold init, scan. simpl. split.
  - intros ->. rewrite foldl_app. simpl.
    rewrite (scan_plain_lines mid) by done. simpl.
    rewrite levels_line_step by done. simpl. apply lookup_insert_eq.
  - intros header Hheader [Hnot Hafter]%Forall_cons ->.
    rewrite foldl_app. simpl. rewrite foldl_app. simpl.
    rewrite (scan_plain_lines mid) by done.
    rewrite (levels_line_step _ line) by done.
    set (st := Build_state _ _ _ _ _ _).
    apply foldl_keeps_levels; [| |done].
    + rewrite header_step_sections by done.
      erewrite finish_free_text by done. simpl.
      by rewrite finish_lines.
    + pose proof (opened_section_not_levels header) as Hopen.
      unfold is_header in Hheader. unfold step, scalar_section.
      rewrite Hnot in *.
      destruct (Py.mem header normal_sections
                || Py.mem header list_sections_names); [simpl; auto|].
      destruct (Py.startswith header "Recommended Games"); [simpl; auto|].
      by destruct (Py.startswith header "ARCADE RELEASE:").
Qed.

Lemma levels_value_is_replaced_at_the_next_header_witness :
  entry_sections (init levels_and_sections) !! "Levels"
  = Some "three loops".
Proof.
  apply (proj2 (levels_value_is_replaced_at_the_next_header
                  levels_and_sections "LEVELS: 5" [] ["- three loops"]
                  ["- Fixed sound"; "BIOS:"; "* foo"]
                  ltac:(reflexivity) ltac:(by repeat constructor)) "WIP:");
    [reflexivity|by repeat constructor|reflexivity].
Defined.

(** [finish] leaves alone the recommended games of a key that the open
    section is not filed under. *)
Lemma finish_recommended_other (st : state) (key : string) :
  stores_under key (current_section st) = false →
  recommended_games (finish st) !! key = recommended_games st !! key.
Proof.
  unfold stores_under, recommended_key, finish. intros H.
  destruct (Py.startswith (current_section st) "Recommended Games");
    simpl in *.
  - apply String.eqb_neq in H. by rewrite lookup_insert_ne.
  - by destruct (current_is_list st).
Qed.

(** A line that opens no section filed under [key] leaves the recommended
    games of [key] alone, once the section filed under it is closed. *)
Lemma step_keeps_recommended (st : state) (line key : string)
    (v : list string) :
  recommended_games st !! key = Some v →
  stores_under key (current_section st) = false →
  opens_recommended key line = false →
  recommended_games (step st line) !! key = Some v
  ∧ stores_under key (current_section (step st line)) = false.
Proof.
  intros Hv Hc Hl.
  pose proof (finish_recommended_other st key Hc) as Hf.
  unfold step, scalar_section.
  destruct (Py.mem line normal_sections || Py.mem line list_sections_names);
    [simpl; split; [congruence|done]|].
  destruct (Py.startswith line "Recommended Games");
    [simpl; split; [congruence|done]|].
  destruct (Py.startswith line "LEVELS:");
    [simpl; split; [congruence|done]|].
  destruct (Py.startswith line "ARCADE RELEASE:");
    [simpl; split; [congruence|done]|].
  by destruct (_ || _).
Qed.

Lemma foldl_keeps_recommended (rest : list string) (st : state)
    (key : string) (v : list string) :
  recommended_games st !! key = Some v →
  stores_under key (current_section st) = false →
  Forall (λ line, opens_recommended key line = false) rest →
  recommended_games (foldl step st rest) !! key = Some v.
Proof.
  revert st. induction rest as [|line rest IH]; intros st Hv Hc Hrest;
    [done|].
  apply Forall_cons in Hrest as [Hline Hrest]. simpl.
  destruct (step_keeps_recommended st line key v Hv Hc Hline). by apply IH.
Qed.

(** The section a header leaves open is not filed under [key] when the
    header opens no such section. *)
Lemma header_step_not_stored (st : state) (header key : string) :
  opens_recommended key header = false →
  is_header header = true →
  stores_under key (current_section (step st header)) = false.
Proof.
  intros Hl Hh. unfold is_header in Hh. unfold step, scalar_section.
  destruct (Py.mem header normal_sections
            || Py.mem header list_sections_names); [done|].
  destruct (Py.startswith header "Recommended Games"); [done|].
  destruct (Py.startswith header "LEVELS:"); [done|].
  by destruct (Py.startswith header "ARCADE RELEASE:").
Qed.

(** X7: The lines between a recommended games header and the next header are
    stored as a list, under the platform the header names between its
    parentheses, and under [Games] for the header [Recommended Games:]. They
    are the recommended games of the entry for that key whatever follows the
    next header, unless that header or a later one opens a recommended games
    section of the same key. *)
Theorem recommended_games_are_keyed_by_platform
    (contents platform header : string) (before mid after : list string) :
  Forall (λ line, is_header line = false) mid →
  is_header header = true →
  (Forall (λ line, opens_recommended platform line = false)
     (header :: after) →
   Py.splitlines contents
   = (before ++ recommended_header platform :: mid ++ header :: after)%list →
   entry_recommended_games (init contents) !! platform = Some (kept mid))
  ∧ (Forall (λ line, opens_recommended "Games" line = false)
       (header :: after) →
     Py.splitlines contents
     = (before ++ "Recommended Games:" :: mid ++ header :: after)%list →
     entry_recommended_games (init contents) !! "Games" = Some (kept mid)).
Proof.
  intros Hmid Hheader. unfold init, scan. simpl.
  assert (Hstart : ∀ x, Py.startswith ("Recommended Games" +:+ x)
                          "Recommended Games" = true)
    by apply startswith_app.
  split; intros [Hnot Hafter]%Forall_cons ->;
    rewrite foldl_app; simpl; rewrite foldl_app; simpl;
    (apply foldl_keeps_recommended;
       [|by apply header_step_not_stored|done]);
    rewrite header_step_recommended by done;
    rewrite (scan_plain_lines mid) by done.
  - rewrite recommended_line_step by apply (Hstart (" (" +:+ _)).
    assert (Hsection : Py.init (recommended_header platform)
                       = "Recommended Games (" +:+ platform +:+ ")").
    { unfold recommended_header.
      change ("Recommended Games (" +:+ platform +:+ "):")
        with ("Recommended Games (" +:+ (platform +:+ ")" +:+ ":")).
      by rewrite <- !app_assoc_string, init_snoc. }
    rewrite Hsection.
    erewrite finish_recommended; cbn [current_section current_lines].
    + by rewrite finish_lines.
    + apply (Hstart (" (" +:+ _)).
    + replace (Py.contains "(" _) with true
        by (symmetry;
            apply (contains_app "(" "Recommended Games " (platform +:+ ")"))).
      by rewrite removeprefix_app, init_snoc.
  - rewrite recommended_line_step by done.
    erewrite finish_recommended; cbn [current_section current_lines];
      [|done|done].
    by rewrite finish_lines.
Qed.

Lemma recommended_games_are_keyed_by_platform_witness :
  entry_recommended_games (init two_platforms) !! "Arcade"
  = Some ["Pac-Man"].
Proof.
  apply (proj1 (recommended_games_are_keyed_by_platform
                  two_platforms "Arcade" "Recommended Games (Console):"
                  [] ["* Pac-Man"] ["* Tetris"; "WIP:"; "- x"; "BIOS:"]
                  ltac:(by repeat constructor) ltac:(reflexivity))).
  - by repeat constructor.
  - reflexivity.
Defined.

End MAMEInfoLater.
